(** * Quiz solver: a shallow embedding of [quiz_solver.py]

    The development follows the Python module [quiz_solver.py] (class
    [QuizSolver]) function by function.

    - Python [str] values are Rocq [string]s, one character for each code
      point: the text covered is the text whose code points are below 256.
    - A Python [float] is a binary64 number ([spec_float] at precision 53).
    - Python values that travel through result dictionaries are [pyval]s;
      dictionaries with string keys are [gmap string pyval].
    - Calls to collaborators (browser, language model, data processor,
      HTTP client, clock) are operations of a class [Collaborators] over an
      abstract world; they return a value or raise, and change the world.
    - [async]/[await] is sequential here: every call is awaited at once. *)

From Stdlib Require Import ZArith SpecFloat Ascii String List Bool Lia.
From stdpp Require Import base option gmap strings list.

Local Open Scope Z_scope.

(* ===================================================================== *)
(** * Python strings                                                      *)
(* ===================================================================== *)

Definition code (c : ascii) : N := N_of_ascii c.

Definition in_range (lo hi : N) (c : ascii) : bool :=
  ((lo <=? code c) && (code c <=? hi))%N.

(** The decimal digits, which is what [\d] matches and [int] and [float]
    read: below code point 256 these are the digits 0 to 9. *)
Definition is_digit (c : ascii) : bool := in_range 48 57 c.

(** Whitespace as [str.strip] and [\s] see it: the characters for which
    [str.isspace] holds. Below code point 256 these are the tab, line
    feed, vertical tab, form feed and carriage return, the four
    separators U+001C to U+001F, the space, the next-line character
    U+0085 and the no-break space U+00A0. *)
Definition is_space (c : ascii) : bool :=
  in_range 9 13 c || in_range 28 32 c || in_range 133 133 c || in_range 160 160 c.

(** The characters that [str.lower] changes: the letters A to Z and the
    capital letters U+00C0 to U+00DE, the multiplication sign U+00D7
    apart. Each one has its small letter 32 places on. *)
Definition is_upper (c : ascii) : bool :=
  in_range 65 90 c || in_range 192 214 c || in_range 216 222 c.

Definition lower_char (c : ascii) : ascii :=
  if is_upper c then ascii_of_N (code c + 32) else c.

(** [s.lower()] *)
Fixpoint lower (s : string) : string :=
  match s with
  | EmptyString => EmptyString
  | String c r => String (lower_char c) (lower r)
  end.

(** [s.startswith(p)] *)
Fixpoint startswith (p s : string) : bool :=
  match p, s with
  | EmptyString, _ => true
  | String a p', String b s' => if Ascii.eqb a b then startswith p' s' else false
  | String _ _, EmptyString => false
  end.

(** [sub in s] *)
Fixpoint contains (sub s : string) : bool :=
  startswith sub s ||
  match s with
  | EmptyString => false
  | String _ r => contains sub r
  end.

(** [s.endswith(p)] *)
Definition endswith (p s : string) : bool :=
  startswith (String.rev p) (String.rev s).

Fixpoint lstrip (s : string) : string :=
  match s with
  | EmptyString => EmptyString
  | String c r => if is_space c then lstrip r else s
  end.

Fixpoint rstrip (s : string) : string :=
  match s with
  | EmptyString => EmptyString
  | String c r =>
      match rstrip r with
      | EmptyString => if is_space c then EmptyString else String c EmptyString
      | r' => String c r'
      end
  end.

(** [s.strip()] *)
Definition strip (s : string) : string := rstrip (lstrip s).

(** Truth value of a string: [if s:] *)
Definition str_truthy (s : string) : bool :=
  match s with EmptyString => false | _ => true end.

(* ===================================================================== *)
(** * Regular expressions of the module                                   *)
(* ===================================================================== *)

(** The longest prefix of [s] whose characters satisfy [p], and the rest:
    a greedy [[class]*]. *)
Fixpoint span (p : ascii -> bool) (s : string) : string * string :=
  match s with
  | EmptyString => (EmptyString, EmptyString)
  | String c r =>
      if p c then let '(a, b) := span p r in (String c a, b)
      else (EmptyString, s)
  end.

(** [re.findall] for a pattern without groups whose matches are never
    empty: [m s] is the text matched at the very start of [s], if any.
    Matches are searched left to right and do not overlap; [skip] counts
    the characters still covered by the previous match. *)
Fixpoint findall_from (m : string -> option string) (skip : nat) (s : string)
  : list string :=
  match s with
  | EmptyString => []
  | String _ r =>
      match skip with
      | S k => findall_from m k r
      | O =>
          match m s with
          | Some t => t :: findall_from m (Nat.pred (String.length t)) r
          | None => findall_from m 0 r
          end
      end
  end.

Definition findall (m : string -> option string) (s : string) : list string :=
  findall_from m 0 s.

(** An optional character [ch?] at the start of [s]: what it matches and
    the rest. *)
Definition eat (ch : ascii) (s : string) : string * string :=
  match s with
  | String c r => if Ascii.eqb ch c then (String ch EmptyString, r) else (EmptyString, s)
  | EmptyString => (EmptyString, s)
  end.

(** [number_pattern = r'-?\d+\.?\d*'] anchored at the start of [s].
    With a leading minus that no digit follows, the engine retries without
    the minus and fails on the minus itself. *)
Definition match_number (s : string) : option string :=
  let '(sign, s1) := eat "-" s in
  let '(ds, s2) := span is_digit s1 in
  match ds with
  | EmptyString => None
  | _ =>
      let '(dot, s3) := eat "." s2 in
      let '(fs, _) := span is_digit s3 in
      Some (sign +:+ ds +:+ dot +:+ fs)
  end.

(** Characters of the class that excludes whitespace, angle brackets,
    both quote characters and the closing parenthesis. *)
Definition is_url_char (c : ascii) : bool :=
  negb (is_space c
        || Ascii.eqb c "<" || Ascii.eqb c ">" || Ascii.eqb c "034"
        || Ascii.eqb c "'" || Ascii.eqb c ")").

(** The rest of [s] after the prefix [p], when [s] starts with [p]. *)
Fixpoint strip_prefix (p s : string) : option string :=
  match p, s with
  | EmptyString, _ => Some s
  | String a p', String b s' => if Ascii.eqb a b then strip_prefix p' s' else None
  | String _ _, EmptyString => None
  end.

(** [https?://] at the start of [s]: the scheme and what follows it. *)
Definition match_scheme (s : string) : option (string * string) :=
  match strip_prefix "https://" s with
  | Some rest => Some ("https://", rest)
  | None =>
      match strip_prefix "http://" s with
      | Some rest => Some ("http://", rest)
      | None => None
      end
  end.

(** The URL pattern: scheme, then one or more class characters;
    anchored at the start. *)
Definition match_url (s : string) : option string :=
  match match_scheme s with
  | Some (scheme, rest) =>
      match span is_url_char rest with
      | (EmptyString, _) => None
      | (run, _) => Some (scheme +:+ run)
      end
  | None => None
  end.

(** The text /submit occurs in [run] with at least one character before. *)
Definition has_submit (run : string) : bool :=
  match run with
  | EmptyString => false
  | String _ r => contains "/submit" r
  end.

(** The submit pattern: scheme, one or more class characters, the text
    /submit, then zero or more class characters; anchored at the start.
    The class admits every character of /submit, so whichever occurrence
    the engine settles on, the match is the scheme followed by the whole
    run of class characters. *)
Definition match_submit (s : string) : option string :=
  match match_scheme s with
  | Some (scheme, rest) =>
      let '(run, _) := span is_url_char rest in
      if has_submit run then Some (scheme +:+ run) else None
  | None => None
  end.

(* ===================================================================== *)
(** * Python values                                                       *)
(* ===================================================================== *)

(** The outcome of a call: a value, or an exception known by [str(e)].
    Exceptions are those that [except Exception] catches. *)
Inductive res (A : Type) : Type :=
  | Ok (a : A)
  | Raise (e : string).
Arguments Ok {A} a.
Arguments Raise {A} e.

(** The values that answers and dictionary entries take. A [float] is a
    binary64 number: a signed zero, an infinity, not-a-number, or a sign,
    a mantissa and a binary exponent. Any other object (list, nested
    dict, NumPy scalar) is known only by its truth value. *)
Inductive pyval : Type :=
  | PNone
  | PBool (b : bool)
  | PInt (z : Z)
  | PFloat (f : spec_float)
  | PStr (s : string)
  | PObject (truth : bool).

(** [bool(v)]: of the floats only the two zeros are false. *)
Definition truthy (v : pyval) : bool :=
  match v with
  | PNone => false
  | PBool b => b
  | PInt z => negb (z =? 0)
  | PFloat (S754_zero _) => false
  | PFloat _ => true
  | PStr s => str_truthy s
  | PObject t => t
  end.

(** The binary64 number nearest to [m * 2 ^ e], ties to the even
    mantissa; [float(m)] for an [int] [m] is [binary64 m 0]. *)
Definition binary64 (m e : Z) : spec_float := binary_normalize 53 1024 m e false.

(** [d.get(k)] and [d.get(k, default)] on a dictionary with string keys. *)
Definition dict_get (d : gmap string pyval) (k : string) : pyval :=
  default PNone (d !! k).

Definition dict_get_default (d : gmap string pyval) (k : string) (dflt : pyval) : pyval :=
  default dflt (d !! k).

(** Value of a run of decimal digits. *)
Fixpoint digits_value (acc : N) (s : string) : N :=
  match s with
  | EmptyString => acc
  | String c r => digits_value (10 * acc + (code c - 48)) r
  end.

(** [int(tok)] for a token [-?\d+]. *)
Definition int_of_token (tok : string) : Z :=
  let '(sign, body) := eat "-" tok in
  let n := Z.of_N (digits_value 0 body) in
  if str_truthy sign then - n else n.

(** The number of digits from which [int] looks at the limit on the
    length of a literal at all. *)
Definition int_str_digits_threshold : N := 640.

(** [int(tok)] raises [ValueError] for this token: the interpreter limits
    the digits of a decimal literal to [max_str_digits], which is
    [sys.get_int_max_str_digits()], 4300 unless it was set otherwise; 0
    stands for no limit, which is also how an interpreter without the
    limit behaves. The sign is not counted, leading zeros are. *)
Definition int_refuses (max_str_digits : N) (tok : string) : bool :=
  let '(_, body) := eat "-" tok in
  let digits := N.of_nat (String.length body) in
  ((int_str_digits_threshold <? digits) && (0 <? max_str_digits)
   && (max_str_digits <? digits))%N.

(** [int(tok)] for a token [-?\d+], with the limit on its length. *)
Definition py_int (max_str_digits : N) (tok : string) : res Z :=
  if int_refuses max_str_digits tok
  then Raise "Exceeds the limit for integer string conversion"
  else Ok (int_of_token tok).

(** [float(tok)] for a token [-?\d+\.\d*]: the binary64 number nearest
    to the decimal the token denotes, ties to the even mantissa, an
    infinity when the decimal is too large and a zero when it is too
    small; the sign is kept on a zero. It raises on no token. The
    decimal is the integer [mant], written by all the digits of the
    token, over the power of ten of the digits after the point. *)
Definition float_of_token (tok : string) : spec_float :=
  let '(sign, body) := eat "-" tok in
  let '(ip, rest) := span is_digit body in
  let '(_, rest') := eat "." rest in
  let fp := fst (span is_digit rest') in
  let mant := Z.of_N (digits_value (digits_value 0 ip) fp) in
  let den := Z.to_pos (10 ^ Z.of_nat (String.length fp)) in
  let negative := str_truthy sign in
  let numerator :=
    match mant with
    | Zpos m => S754_finite negative m 0
    | _ => S754_zero negative
    end in
  SFdiv 53 1024 numerator (S754_finite false den 0).

(** [QuizSolver._extract_answer]. Whatever the conversion raises is
    dropped by the bare [except], and the stripped response is returned
    as when there is no number. *)
Definition _extract_answer (max_str_digits : N) (llm_response question_text : string)
  : pyval :=
  let numbers := findall match_number llm_response in
  let as_string := PStr (strip llm_response) in
  match numbers with
  | num_str :: _ =>
      if contains "." num_str then PFloat (float_of_token num_str)
      else
        match py_int max_str_digits num_str with
        | Ok z => PInt z
        | Raise _ => as_string
        end
  | [] => as_string
  end.

(* ===================================================================== *)
(** * Question classification                                             *)
(* ===================================================================== *)

(** The values of [info['type']]. *)
Inductive kind : Type :=
  | file_download | api_fetch | pdf_analysis
  | data_analysis | visualization | general.

Record QuestionInfo : Type := {
  qi_text : string;
  qi_html : string;
  qi_type : kind;
  qi_submit_url : option string;
  qi_data_urls : list string
}.

(** [QuizSolver._extract_submit_url]: the second search repeats the first
    with the same pattern. *)
Definition _extract_submit_url (html_content : string) : option string :=
  match findall match_submit html_content with
  | m :: _ => Some m
  | [] =>
      match findall match_submit html_content with
      | m :: _ => Some m
      | [] => None
      end
  end.

(** The [if]/[elif] chain on [text_lower]. *)
Definition question_type (text_lower : string) : kind :=
  if contains "download" text_lower || contains "file" text_lower then file_download
  else if contains "api" text_lower || contains "endpoint" text_lower then api_fetch
  else if contains "sum" text_lower || contains "calculate" text_lower
          || contains "table" text_lower then data_analysis
  else if contains "visualize" text_lower || contains "chart" text_lower
          || contains "plot" text_lower then visualization
  else if contains "pdf" text_lower then pdf_analysis
  else general.

(** [QuizSolver._extract_question_info] *)
Definition _extract_question_info (text_content html_content : string) : QuestionInfo :=
  let submit_url :=
    match _extract_submit_url html_content with
    | Some u => if str_truthy u then Some u else None
    | None => None
    end in
  let urls := findall match_url text_content in
  let text_lower := lower text_content in
  {| qi_text := text_content;
     qi_html := html_content;
     qi_type := question_type text_lower;
     qi_submit_url := submit_url;
     qi_data_urls := urls |}.

(* ===================================================================== *)
(** * Effects: a world-passing monad with exceptions                      *)
(* ===================================================================== *)

Definition M (W A : Type) : Type := W -> res A * W.

Definition ret {W A} (a : A) : M W A := fun w => (Ok a, w).

Definition raise {W A} (e : string) : M W A := fun w => (Raise e, w).

Definition bind {W A B} (c : M W A) (k : A -> M W B) : M W B :=
  fun w =>
    match c w with
    | (Ok a, w') => k a w'
    | (Raise e, w') => (Raise e, w')
    end.

(** [try: c  except Exception as e: h e] *)
Definition try_except {W A} (c : M W A) (h : string -> M W A) : M W A :=
  fun w =>
    match c w with
    | (Ok a, w') => (Ok a, w')
    | (Raise e, w') => h e w'
    end.

(** A pure computation that may raise. *)
Definition lift {W A} (r : res A) : M W A := fun w => (r, w).

Declare Scope py_scope.
Delimit Scope py_scope with py.
Notation "x <- c ;; k" := (bind c (fun x => k))
  (at level 100, c at next level, right associativity) : py_scope.

(* ===================================================================== *)
(** * Collaborators                                                       *)
(* ===================================================================== *)

Inductive json_body : Type :=
  | JsonDict (d : gmap string pyval)
  | JsonOther.

(** An [httpx] response: the status code and what [response.json()]
    gives (it raises on a body that is not JSON). *)
Record http_response : Type := {
  status_code : Z;
  json : res json_body
}.

(** The [context] argument of [LLMClient.solve_question]. *)
Record llm_context (J : Type) : Type := {
  ctx_data : string;
  ctx_tables : option J
}.
Arguments ctx_data {J} _.
Arguments ctx_tables {J} _.

(** What the solver calls outside itself. [W] is the state of the outside
    world, [DF] the type of pandas DataFrames and [J] the type of parsed
    JSON and PDF table data. Operations in [M W] act on the world and may
    raise; operations into [res] are pure library calls that may raise. *)
Class Collaborators (W DF J : Type) : Type := {
  (* sys.get_int_max_str_digits(): the interpreter's limit on the digits of
     an integer literal, 0 for none *)
  int_max_str_digits : N;
  (* datetime.now(), in microseconds *)
  clock_now : W -> Z * W;
  (* asyncio.sleep(seconds) *)
  sleep : Z -> W -> W;
  (* BrowserManager *)
  browser_start : M W unit;
  browser_close : W -> W;
  browser_navigate : pyval -> M W string;
  browser_extract_text : pyval -> M W string;
  (* LLMClient *)
  llm_solve_question : string -> option (llm_context J) -> M W string;
  (* DataProcessor *)
  download_file : string -> M W string;
  fetch_api_data : string -> M W J;
  parse_pdf : string -> res (string * J);
  parse_csv : string -> res DF;
  parse_json : string -> res J;
  extract_tables_from_html : string -> list DF;
  (* bytes.decode('utf-8'), json.dumps(_, indent=2), isinstance(_, dict), str(_) *)
  decode_utf8 : string -> res string;
  json_dumps : J -> string;
  is_dict : J -> bool;
  py_str : J -> string;
  (* pandas *)
  df_concat : list DF -> res DF;
  df_has_column : DF -> string -> bool;
  df_column_sum : DF -> string -> res pyval;
  df_total_sum : DF -> res pyval;
  df_column_mean : DF -> string -> res pyval;
  df_total_mean : DF -> res pyval;
  df_len : DF -> Z;
  df_column_max : DF -> string -> res pyval;
  df_summary : DF -> string;
  (* httpx.AsyncClient(timeout=30.0).post(url, json=payload) *)
  http_post : string -> gmap string pyval -> M W http_response
}.

(* ===================================================================== *)
(** * More patterns                                                       *)
(* ===================================================================== *)

(** The first match of a pattern anywhere in [s]: [re.search]. *)
Fixpoint search (m : string -> option string) (s : string) : option string :=
  match m s with
  | Some t => Some t
  | None =>
      match s with
      | EmptyString => None
      | String _ r => search m r
      end
  end.

Definition is_quote (c : ascii) : bool := Ascii.eqb c "034".

(** Group 1 of the quoted-name pattern, a quote, one or more characters
    that are not quotes, a quote; anchored at the start. *)
Definition match_quoted (s : string) : option string :=
  match s with
  | String q r =>
      if is_quote q then
        match span (fun c => negb (is_quote c)) r with
        | (String c run, String _ _) => Some (String c run)
        | _ => None
        end
      else None
  | EmptyString => None
  end.

Definition file_extensions : list string := [".pdf"; ".csv"; ".json"; ".xlsx"; ".xls"].

(** The alternation [(pdf|csv|json|xlsx|xls)] under [re.IGNORECASE] at
    the start of [s]: the text it matches there. *)
Definition match_ext (s : string) : option string :=
  let try (e : string) :=
    if startswith e (lower s) then Some (String.substring 0 (String.length e) s)
    else None in
  match try "pdf" with Some t => Some t | None =>
  match try "csv" with Some t => Some t | None =>
  match try "json" with Some t => Some t | None =>
  match try "xlsx" with Some t => Some t | None => try "xls" end end end end.

(** The last place in [s] where a dot is followed by an extension. *)
Fixpoint last_ext (s : string) : option string :=
  match s with
  | EmptyString => None
  | String c r =>
      match last_ext r with
      | Some e => Some e
      | None => if Ascii.eqb c "."%char then match_ext r else None
      end
  end.

(** Group 1 of the URL-with-extension pattern under [re.IGNORECASE]:
    scheme, one or more class characters, a dot, an extension, zero or
    more class characters; anchored at the start. The greedy run gives
    back characters until a dot and an extension follow. *)
Definition match_file_url_ext (s : string) : option string :=
  match match_scheme (lower (String.substring 0 8 s)) with
  | Some (scheme, _) =>
      let rest := String.substring (String.length scheme) (String.length s) s in
      match fst (span is_url_char rest) with
      | EmptyString => None
      | String _ run => last_ext run
      end
  | None => None
  end.

(* ===================================================================== *)
(** * class QuizSolver                                                    *)
(* ===================================================================== *)

(** [Config.MAX_QUIZ_TIME_SECONDS] *)
Definition MAX_QUIZ_TIME_SECONDS : Z := 180.

(** [self.max_time = timedelta(seconds=...)], in microseconds. *)
Definition max_time : Z := MAX_QUIZ_TIME_SECONDS * 1000000.

(** Truth value of an optional string: [None] and the empty string are false. *)
Definition opt_truthy (o : option string) : option string :=
  match o with
  | Some u => if str_truthy u then Some u else None
  | None => None
  end.

(** The dictionary returned by [solve_quiz]. [total_time] is kept in
    microseconds. *)
Record Summary : Type := {
  success : bool;
  results : list (gmap string pyval);
  total_time : option Z;
  error : option string
}.

(** What one pass through the body of the [while] loop leaves behind. *)
Inductive loop_next : Type :=
  | Continue (current_url : pyval)
  | Break.

Section QuizSolver.

Context {W DF J : Type} {C : Collaborators W DF J}.

(** [self.email], [self.secret] *)
Variable email secret : string.

Local Open Scope py_scope.

(** [QuizSolver._solve_general_question] *)
Definition _solve_general_question (question_info : QuestionInfo) : M W pyval :=
  let text := qi_text question_info in
  answer <- llm_solve_question text None ;;
  ret (_extract_answer int_max_str_digits answer text).

(** The last part of [_analyze_dataframe_question]: ask the model with a
    summary of the frame. *)
Definition analyze_with_llm (df : DF) (question_text : string) : M W pyval :=
  let context := {| ctx_data := df_summary df; ctx_tables := None |} in
  answer <- llm_solve_question question_text (Some context) ;;
  ret (_extract_answer int_max_str_digits answer question_text).

(** [QuizSolver._analyze_dataframe_question] *)
Definition _analyze_dataframe_question (df : DF) (question_text : string) : M W pyval :=
  let question_lower := lower question_text in
  let column_match := search match_quoted question_text in
  if contains "sum" question_lower then
    match column_match with
    | Some column =>
        if df_has_column df column then lift (df_column_sum df column)
        else lift (df_total_sum df)
    | None => lift (df_total_sum df)
    end
  else if contains "mean" question_lower || contains "average" question_lower then
    match column_match with
    | Some column =>
        if df_has_column df column then lift (df_column_mean df column)
        else lift (df_total_mean df)
    | None => lift (df_total_mean df)
    end
  else if contains "count" question_lower then
    ret (PInt (df_len df))
  else if contains "max" question_lower then
    match column_match with
    | Some column =>
        if df_has_column df column then lift (df_column_max df column)
        else analyze_with_llm df question_text
    | None => analyze_with_llm df question_text
    end
  else analyze_with_llm df question_text.

(** [QuizSolver._solve_file_question] *)
Definition _solve_file_question (question_info : QuestionInfo) : M W pyval :=
  let text := qi_text question_info in
  let urls := qi_data_urls question_info in
  let file_url :=
    List.find (fun url => existsb (fun ext => contains ext (lower url)) file_extensions)
              urls in
  let file_url :=
    match opt_truthy file_url with
    | Some u => Some u
    | None => search match_file_url_ext text
    end in
  match opt_truthy file_url with
  | Some file_url =>
      file_bytes <- download_file file_url ;;
      if endswith ".pdf" file_url then
        pdf_data <- lift (parse_pdf file_bytes) ;;
        let context := {| ctx_data := fst pdf_data; ctx_tables := Some (snd pdf_data) |} in
        answer <- llm_solve_question text (Some context) ;;
        ret (_extract_answer int_max_str_digits answer text)
      else if endswith ".csv" file_url then
        csv_text <- lift (decode_utf8 file_bytes) ;;
        df <- lift (parse_csv csv_text) ;;
        _analyze_dataframe_question df text
      else if endswith ".json" file_url then
        json_text <- lift (decode_utf8 file_bytes) ;;
        json_data <- lift (parse_json json_text) ;;
        let context := {| ctx_data := json_dumps json_data; ctx_tables := None |} in
        answer <- llm_solve_question text (Some context) ;;
        ret (_extract_answer int_max_str_digits answer text)
      else _solve_general_question question_info
  | None => _solve_general_question question_info
  end.

(** [QuizSolver._solve_api_question] *)
Definition _solve_api_question (question_info : QuestionInfo) : M W pyval :=
  let text := qi_text question_info in
  let urls := qi_data_urls question_info in
  let api_url :=
    List.find (fun url => contains "api" (lower url) || contains "endpoint" (lower url))
              urls in
  match opt_truthy api_url with
  | Some api_url =>
      api_data <- fetch_api_data api_url ;;
      let context :=
        {| ctx_data := if is_dict api_data then json_dumps api_data else py_str api_data;
           ctx_tables := None |} in
      answer <- llm_solve_question text (Some context) ;;
      ret (_extract_answer int_max_str_digits answer text)
  | None => _solve_general_question question_info
  end.

(** [QuizSolver._solve_pdf_question] *)
Definition _solve_pdf_question (question_info : QuestionInfo) : M W pyval :=
  _solve_file_question question_info.

(** [QuizSolver._solve_data_analysis_question] *)
Definition _solve_data_analysis_question (question_info : QuestionInfo) : M W pyval :=
  let text := qi_text question_info in
  let tables := extract_tables_from_html (qi_html question_info) in
  match tables with
  | [] => _solve_general_question question_info
  | [df] => _analyze_dataframe_question df text
  | _ => df <- lift (df_concat tables) ;; _analyze_dataframe_question df text
  end.

(** [QuizSolver._solve_visualization_question] *)
Definition _solve_visualization_question (question_info : QuestionInfo) : M W pyval :=
  answer <- _solve_general_question question_info ;;
  ret answer.

(** The body of the [try] in [_solve_question]: dispatch on the type. *)
Definition solve_by_type (question_info : QuestionInfo) : M W pyval :=
  match qi_type question_info with
  | file_download => _solve_file_question question_info
  | api_fetch => _solve_api_question question_info
  | pdf_analysis => _solve_pdf_question question_info
  | data_analysis => _solve_data_analysis_question question_info
  | visualization => _solve_visualization_question question_info
  | general => _solve_general_question question_info
  end.

(** [QuizSolver._solve_question] *)
Definition _solve_question (question_info : QuestionInfo) : M W pyval :=
  try_except (solve_by_type question_info)
             (fun _ => _solve_general_question question_info).

(** The dictionary [_submit_answer] returns on a 200 response. *)
Definition submit_result (quiz_url answer : pyval) (result : gmap string pyval)
    (attempt : Z) : gmap string pyval :=
  {[ "url" := quiz_url;
     "answer" := answer;
     "correct" := dict_get_default result "correct" (PBool false);
     "next_url" := dict_get result "url";
     "reason" := dict_get result "reason";
     "attempt" := PInt (attempt + 1) ]}.

(** The dictionary [_submit_answer] returns after the loop. *)
Definition submit_failure (quiz_url answer : pyval) : gmap string pyval :=
  {[ "url" := quiz_url;
     "answer" := answer;
     "correct" := PBool false;
     "error" := PStr "Failed to submit after retries" ]}.

(** [if attempt < max_retries - 1: await asyncio.sleep(1)] *)
Definition backoff (attempt max_retries : Z) (w : W) : W :=
  if attempt <? max_retries - 1 then sleep 1 w else w.

(** The [for attempt in range(max_retries)] loop of [_submit_answer],
    with [remaining] iterations to go; [Some] is an early [return]. *)
Fixpoint submit_loop (submit_url : string) (quiz_url answer : pyval)
    (payload : gmap string pyval) (max_retries : Z)
    (remaining : nat) (attempt : Z) (w : W) : option (gmap string pyval) * W :=
  match remaining with
  | O => (None, w)
  | S remaining' =>
      let retry w' :=
        submit_loop submit_url quiz_url answer payload max_retries
                    remaining' (attempt + 1) (backoff attempt max_retries w') in
      match http_post submit_url payload w with
      | (Ok response, w1) =>
          if status_code response =? 200 then
            match json response with
            | Ok (JsonDict result) =>
                (Some (submit_result quiz_url answer result attempt), w1)
            | Ok JsonOther => retry w1
            | Raise _ => retry w1
            end
          else retry w1
      | (Raise _, w1) => retry w1
      end
  end.

(** [QuizSolver._submit_answer] *)
Definition _submit_answer (submit_url : string) (quiz_url answer : pyval)
    (max_retries : Z) : M W (gmap string pyval) :=
  fun w =>
    let payload : gmap string pyval :=
      {[ "email" := PStr email;
         "secret" := PStr secret;
         "url" := quiz_url;
         "answer" := answer ]} in
    match submit_loop submit_url quiz_url answer payload max_retries
                      (Z.to_nat max_retries) 0 w with
    | (Some result, w') => (Ok result, w')
    | (None, w') => (Ok (submit_failure quiz_url answer), w')
    end.

(** The dictionary [_solve_single_quiz] returns when there is no submit
    URL. *)
Definition no_submit_result (url answer : pyval) : gmap string pyval :=
  {[ "url" := url;
     "answer" := answer;
     "correct" := PNone;
     "error" := PStr "No submit URL found" ]}.

(** The body of the [try] in [_solve_single_quiz]. *)
Definition single_quiz_try (url : pyval) : M W (gmap string pyval) :=
  html_content <- browser_navigate url ;;
  text_content <- browser_extract_text url ;;
  let question_info := _extract_question_info text_content html_content in
  answer <- _solve_question question_info ;;
  let submit_url :=
    match opt_truthy (qi_submit_url question_info) with
    | Some u => Some u
    | None => _extract_submit_url html_content
    end in
  match opt_truthy submit_url with
  | Some submit_url => _submit_answer submit_url url answer 3
  | None => ret (no_submit_result url answer)
  end.

(** The dictionary the [except] of [_solve_single_quiz] returns. *)
Definition step_error (url : pyval) (e : string) : gmap string pyval :=
  {[ "url" := url; "error" := PStr e; "correct" := PBool false ]}.

(** [QuizSolver._solve_single_quiz]: it returns on every path. *)
Definition _solve_single_quiz (url : pyval) (w : W) : gmap string pyval * W :=
  match single_quiz_try url w with
  | (Ok result, w') => (result, w')
  | (Raise e, w') => (step_error url e, w')
  end.

(** One pass through the body of [while current_url:] in [solve_quiz]. *)
Definition loop_body (start_time : Z) (current_url : pyval)
    (results : list (gmap string pyval)) (w : W)
  : list (gmap string pyval) * loop_next * W :=
  let '(now, w1) := clock_now w in
  if now - start_time >? max_time then (results, Break, w1)
  else
    let '(result, w2) := _solve_single_quiz current_url w1 in
    let results := results ++ [result] in
    if truthy (dict_get result "correct") then
      let current_url := dict_get result "next_url" in
      if negb (truthy current_url) then (results, Break, w2)
      else (results, Continue current_url, w2)
    else
      let next_url := dict_get result "next_url" in
      if truthy next_url then (results, Continue next_url, w2)
      else (results, Break, w2).

(** The [while current_url:] loop. [None]: the fuel ran out first. *)
Fixpoint quiz_loop (fuel : nat) (start_time : Z) (current_url : pyval)
    (results : list (gmap string pyval)) (w : W)
  : option (list (gmap string pyval) * W) :=
  if truthy current_url then
    match fuel with
    | O => None
    | S fuel' =>
        match loop_body start_time current_url results w with
        | (results', Continue next, w') => quiz_loop fuel' start_time next results' w'
        | (results', Break, w') => Some (results', w')
        end
    end
  else Some (results, w).

(** [QuizSolver.solve_quiz]. Inside the [try], only [browser.start()] can
    raise; [finally] closes the browser on every path. *)
Definition solve_quiz (fuel : nat) (initial_url : string) (w : W)
  : option (Summary * W) :=
  let '(start_time, w0) := clock_now w in
  match browser_start w0 with
  | (Ok _, w1) =>
      match quiz_loop fuel start_time (PStr initial_url) [] w1 with
      | Some (results, w2) =>
          let '(now, w3) := clock_now w2 in
          Some ({| success := true;
                   results := results;
                   total_time := Some (now - start_time);
                   error := None |},
                browser_close w3)
      | None => None
      end
  | (Raise e, w1) =>
      Some ({| success := false;
               results := [];
               total_time := None;
               error := Some e |},
            browser_close w1)
  end.

End QuizSolver.

(* ===================================================================== *)
(** * Statements in the words of the specification                        *)
(* ===================================================================== *)

(** The classification rules as an ordered list: keywords and the kind
    they give; the first rule with a keyword in the text wins. *)
Definition kind_rules : list (list string * kind) :=
  [ (["download"; "file"], file_download);
    (["api"; "endpoint"], api_fetch);
    (["sum"; "calculate"; "table"], data_analysis);
    (["visualize"; "chart"; "plot"], visualization);
    (["pdf"], pdf_analysis) ].

Fixpoint first_match (rules : list (list string * kind)) (t : string) : kind :=
  match rules with
  | [] => general
  | (keywords, k) :: rest =>
      if existsb (fun kw => contains kw t) keywords then k
      else first_match rest t
  end.

Fixpoint all_chars (p : ascii -> bool) (s : string) : bool :=
  match s with
  | EmptyString => true
  | String c r => p c && all_chars p r
  end.

(** The first character of [s] satisfies [p]. *)
Definition head_is (p : ascii -> bool) (s : string) : bool :=
  match s with
  | EmptyString => false
  | String c _ => p c
  end.

Definition no_digit (s : string) : bool := all_chars (fun c => negb (is_digit c)) s.

(** [t] is [s] without the whitespace at its two ends: whitespace only
    is left out, and [t] neither starts nor ends with whitespace. *)
Definition trimmed (s t : string) : Prop :=
  exists l r,
    s = l +:+ t +:+ r
    /\ all_chars is_space l = true
    /\ all_chars is_space r = true
    /\ head_is is_space t = false
    /\ (forall t' c, t = t' +:+ String c "" -> is_space c = false).

(** [tok] is the first number-shaped token of [pre +:+ tok +:+ post]: an
    optional minus sign, digits, an optional decimal point and digits;
    nothing number-shaped starts inside [pre], and the token is as long
    as the pattern lets it be. *)
Inductive first_number_token (pre tok post : string) : Prop :=
  | FirstNumberToken (sign ds dot fs : string) :
      tok = sign +:+ ds +:+ dot +:+ fs ->
      sign = "" \/ sign = "-" ->
      ds <> "" ->
      all_chars is_digit ds = true ->
      (dot = "" /\ fs = "") \/ (dot = "." /\ all_chars is_digit fs = true) ->
      no_digit pre = true ->
      (sign = "" -> forall p, pre <> p +:+ "-") ->
      head_is is_digit post = false ->
      (dot = "" -> head_is (Ascii.eqb ".") post = false) ->
      first_number_token pre tok post.

(* ===================================================================== *)
(** * A scripted world for running the solver                             *)
(* ===================================================================== *)

Inductive event : Type :=
  | EvStart
  | EvClose
  | EvNavigate (url : pyval)
  | EvExtractText (url : pyval)
  | EvAsk (question : string)
  | EvPost (url : string) (payload : gmap string pyval)
  | EvSleep (seconds : Z).

(** The clock, the replies the submit endpoint will give to the POSTs
    still to come, and the calls made so far, oldest first. *)
Record Script : Type := {
  sc_clock : Z;
  sc_replies : list (res http_response);
  sc_log : list event
}.

Definition log_event (ev : event) (cost : Z) (w : Script) : Script :=
  {| sc_clock := sc_clock w + cost;
     sc_replies := sc_replies w;
     sc_log := sc_log w ++ [ev] |}.

(** A world in which pages are fixed ([html_of], [text_of]), the model
    always gives the reply [llm_reply], each page load takes [latency]
    microseconds, and POSTs are answered from the script; a POST past the
    end of the script fails to connect. A payload that the HTTP client
    cannot encode as JSON ([encodes] tells) makes [post] raise before
    anything is sent: nothing is logged and no reply is used up. There
    are no files or tables, and the interpreter has its default limit on
    integer literals. *)
Definition scripted (html_of text_of : pyval -> res string)
    (llm_reply : res string) (latency : Z)
    (encodes : gmap string pyval -> bool) : Collaborators Script unit unit :=
  {| int_max_str_digits := 4300;
     clock_now := fun w => (sc_clock w, w);
     sleep := fun n w => log_event (EvSleep n) (n * 1000000) w;
     browser_start := fun w => (Ok tt, log_event EvStart 0 w);
     browser_close := fun w => log_event EvClose 0 w;
     browser_navigate := fun url w => (html_of url, log_event (EvNavigate url) latency w);
     browser_extract_text := fun url w => (text_of url, log_event (EvExtractText url) 0 w);
     llm_solve_question := fun q _ w => (llm_reply, log_event (EvAsk q) 0 w);
     download_file := fun _ w => (Raise "no files", w);
     fetch_api_data := fun _ w => (Raise "no api", w);
     parse_pdf := fun _ => Raise "no pdf";
     parse_csv := fun _ => Raise "no csv";
     parse_json := fun _ => Raise "no json";
     extract_tables_from_html := fun _ => [];
     decode_utf8 := fun b => Ok b;
     json_dumps := fun _ => "null";
     is_dict := fun _ => false;
     py_str := fun _ => "None";
     df_concat := fun _ => Raise "no frames";
     df_has_column := fun _ _ => false;
     df_column_sum := fun _ _ => Raise "no frames";
     df_total_sum := fun _ => Raise "no frames";
     df_column_mean := fun _ _ => Raise "no frames";
     df_total_mean := fun _ => Raise "no frames";
     df_len := fun _ => 0;
     df_column_max := fun _ _ => Raise "no frames";
     df_summary := fun _ => "";
     http_post := fun url payload w =>
       if encodes payload then
         match sc_replies w with
         | r :: rest =>
             (r, {| sc_clock := sc_clock w;
                    sc_replies := rest;
                    sc_log := sc_log w ++ [EvPost url payload] |})
         | [] => (Raise "connection refused", log_event (EvPost url payload) 0 w)
         end
       else (Raise "Object is not JSON serializable", w) |}.

(** An encoder that takes every value but the objects known only by
    their truth value. *)
Definition plain_values (payload : gmap string pyval) : bool :=
  forallb (fun entry => match entry.2 with PObject _ => false | _ => true end)
          (map_to_list payload).

(** A fresh scripted world. *)
Definition script (replies : list (res http_response)) : Script :=
  {| sc_clock := 0; sc_replies := replies; sc_log := [] |}.

(** A response with the given status and JSON object body. *)
Definition reply (status : Z) (body : gmap string pyval) : res http_response :=
  Ok {| status_code := status; json := Ok (JsonDict body) |}.

(** The URLs passed to [browser.navigate], in order. *)
Definition navigated (log : list event) : list pyval :=
  omap (fun ev => match ev with EvNavigate u => Some u | _ => None end) log.

(** The number of POSTs made. *)
Definition post_count (log : list event) : nat :=
  length (List.filter (fun ev => match ev with EvPost _ _ => true | _ => false end) log).

(** The shape of a token, and what follows it, as the pattern needs them. *)
Definition token_shape (sign ds dot fs post : string) : Prop :=
  (sign = "" \/ sign = "-")
  /\ ds <> ""
  /\ all_chars is_digit ds = true
  /\ ((dot = "" /\ fs = "") \/ (dot = "." /\ all_chars is_digit fs = true))
  /\ head_is is_digit post = false
  /\ (dot = "" -> head_is (Ascii.eqb ".") post = false).

(* ===================================================================== *)
(** * Runs of the retry loop and of the session loop                      *)
(* ===================================================================== *)

Section Runs.

Context {W DF J : Type} {C : Collaborators W DF J}.

(** One POST that does not end [_submit_answer]: the transport raises,
    the status is not 200, or the body of a 200 is not a JSON object. *)
Inductive attempt_fails (submit_url : string) (payload : gmap string pyval)
  : W -> W -> Prop :=
  | fails_transport (e : string) (w w1 : W) :
      http_post submit_url payload w = (Raise e, w1) ->
      attempt_fails submit_url payload w w1
  | fails_status (response : http_response) (w w1 : W) :
      http_post submit_url payload w = (Ok response, w1) ->
      status_code response <> 200 ->
      attempt_fails submit_url payload w w1
  | fails_body (response : http_response) (w w1 : W) :
      http_post submit_url payload w = (Ok response, w1) ->
      status_code response = 200 ->
      (forall d, json response <> Ok (JsonDict d)) ->
      attempt_fails submit_url payload w w1.

(** [n] failing POSTs in a row, the first one numbered [attempt], with
    the pause after each one that is not the last allowed. *)
Inductive failed_attempts (submit_url : string) (payload : gmap string pyval)
    (max_retries : Z) : nat -> Z -> W -> W -> Prop :=
  | failed_none (attempt : Z) (w : W) :
      failed_attempts submit_url payload max_retries 0 attempt w w
  | failed_more (n : nat) (attempt : Z) (w w1 w' : W) :
      attempt_fails submit_url payload w w1 ->
      failed_attempts submit_url payload max_retries n (attempt + 1)
                      (backoff attempt max_retries w1) w' ->
      failed_attempts submit_url payload max_retries (S n) attempt w w'.

(** The payload [_submit_answer] posts. *)
Definition submit_payload (email secret : string) (quiz_url answer : pyval)
  : gmap string pyval :=
  {[ "email" := PStr email;
     "secret" := PStr secret;
     "url" := quiz_url;
     "answer" := answer ]}.

(** The loop of [solve_quiz] gets from one state at the top of the
    [while] to another by [n] passes through the body that end in neither
    [break] nor a false loop condition. A state is the current URL, the
    results so far and the world. *)
Inductive loop_reaches (email secret : string) (start_time : Z)
  : nat -> pyval * list (gmap string pyval) * W ->
    pyval * list (gmap string pyval) * W -> Prop :=
  | reaches_here (s : pyval * list (gmap string pyval) * W) :
      loop_reaches email secret start_time 0 s s
  | reaches_next (n : nat) (u u' : pyval) (rs rs' : list (gmap string pyval))
      (w w' : W) (s : pyval * list (gmap string pyval) * W) :
      truthy u = true ->
      loop_body email secret start_time u rs w = (rs', Continue u', w') ->
      loop_reaches email secret start_time n (u', rs', w') s ->
      loop_reaches email secret start_time (S n) (u, rs, w) s.

(** A session started on [initial_url] in world [w] is, after [n] passes,
    at the top of the loop with current URL [u], results [rs] and world
    [wk]; it started at time [start_time]. *)
Definition session_at (email secret initial_url : string) (w : W)
    (start_time : Z) (n : nat) (u : pyval) (rs : list (gmap string pyval))
    (wk : W) : Prop :=
  exists w0 w1,
    clock_now w = (start_time, w0)
    /\ browser_start w0 = (Ok tt, w1)
    /\ loop_reaches email secret start_time n (PStr initial_url, [], w1) (u, rs, wk).

(** The summary of a session that ends normally, with the clock read
    after the loop. *)
Definition finished (start_time : Z) (rs : list (gmap string pyval)) (w : W)
  : Summary * W :=
  let '(now, w') := clock_now w in
  ({| success := true; results := rs;
      total_time := Some (now - start_time); error := None |},
   browser_close w').

(** The visited URLs form a chain: each entry is for the URL the loop was
    at, and the entry after it is for the [next_url] it returned. *)
Fixpoint chained (u : pyval) (rs : list (gmap string pyval)) : Prop :=
  match rs with
  | [] => True
  | r :: rest =>
      dict_get r "url" = u
      /\ (rest = [] \/ (truthy (dict_get r "next_url") = true
                        /\ chained (dict_get r "next_url") rest))
  end.

(** A call leaves what [obs] reads of the world as it was. *)
Definition keeps {A B : Type} (obs : W -> A) (c : M W B) : Prop :=
  forall w, obs (c w).2 = obs w.

(** No call to a collaborator changes what [obs] reads of the world,
    page loads apart. *)
Definition kept_but_by_navigate {A : Type} (obs : W -> A) : Prop :=
  (forall w, obs (clock_now w).2 = obs w)
  /\ (forall n w, obs (sleep n w) = obs w)
  /\ keeps obs browser_start
  /\ (forall w, obs (browser_close w) = obs w)
  /\ (forall url, keeps obs (browser_extract_text url))
  /\ (forall question context, keeps obs (llm_solve_question question context))
  /\ (forall url, keeps obs (download_file url))
  /\ (forall url, keeps obs (fetch_api_data url))
  /\ (forall url payload, keeps obs (http_post url payload)).

(** The world keeps a record of the pages loaded: [visited] reads it,
    every call of [browser.navigate] adds its URL at the end, whether
    the load succeeds or not, and nothing else changes it. *)
Definition records_visits (visited : W -> list pyval) : Prop :=
  (forall url w, visited (browser_navigate url w).2 = visited w ++ [url])
  /\ kept_but_by_navigate visited.

End Runs.

(** [chained], for a loop that is still running: the results so far are
    chained from [u0] and the loop is now at [u]. *)
Fixpoint chain_to (u0 : pyval) (rs : list (gmap string pyval)) (u : pyval) : Prop :=
  match rs with
  | [] => u = u0
  | r :: rest =>
      dict_get r "url" = u0
      /\ truthy (dict_get r "next_url") = true
      /\ chain_to (dict_get r "next_url") rest u
  end.

(* ===================================================================== *)
(** * Example worlds                                                      *)
(* ===================================================================== *)

Definition page_html : string :=
  "<html><body><p>What is 6 times 7?</p><form action='https://quiz.example/submit'></form></body></html>".

Definition page_text : string := "What is 6 times 7?".

(** Every page asks the same question and names the same submit URL; the
    model answers 42; a page load takes [latency] microseconds. *)
Definition quiz_world (latency : Z) : Collaborators Script unit unit :=
  scripted (fun _ => Ok page_html) (fun _ => Ok page_text) (Ok "42") latency plain_values.

(** The same pages without a submit URL. *)
Definition bare_world : Collaborators Script unit unit :=
  scripted (fun _ => Ok "<html><body><p>What is 6 times 7?</p></body></html>")
           (fun _ => Ok page_text) (Ok "42") 0 plain_values.

(** No page can be loaded. *)
Definition offline_world : Collaborators Script unit unit :=
  scripted (fun _ => Raise "net::ERR_CONNECTION_REFUSED")
           (fun _ => Ok page_text) (Ok "42") 0 plain_values.

(** A page that asks for a file to be downloaded; there are no files. *)
Definition file_text : string :=
  "Download https://quiz.example/data.csv and report the sum of the amount column".

Definition file_world : Collaborators Script unit unit :=
  scripted (fun _ => Ok page_html) (fun _ => Ok file_text) (Ok "42") 0 plain_values.

Definition quiz1 : string := "https://quiz.example/1".
Definition quiz2 : string := "https://quiz.example/2".
Definition quiz3 : string := "https://quiz.example/3".
Definition submit1 : string := "https://quiz.example/submit".

(* ===================================================================== *)
(** * Printing integers                                                   *)
(* ===================================================================== *)

Definition digit_char (d : N) : ascii := ascii_of_N (48 + d).

(** The decimal digits of [n], most significant first, in front of
    [acc]; [fuel] bounds the number of digits. *)
Fixpoint digits_of (fuel : nat) (n : N) (acc : string) : string :=
  match fuel with
  | O => acc
  | S fuel' =>
      let acc' := String (digit_char (n mod 10)) acc in
      if (n <? 10)%N then acc' else digits_of fuel' (n / 10) acc'
  end.

Definition str_of_N (n : N) : string :=
  digits_of (S (N.to_nat (N.log2 n))) n EmptyString.

(** [str(z)] for an [int]. *)
Definition str_of_int (z : Z) : string :=
  if z <? 0 then String "-" (str_of_N (Z.abs_N z)) else str_of_N (Z.abs_N z).


(** The number of pauses taken. *)
Definition sleep_count (log : list event) : nat :=
  length (List.filter (fun ev => match ev with EvSleep _ => true | _ => false end) log).

(** No page can be loaded, and each try takes a second. *)
Definition slow_offline_world : Collaborators Script unit unit :=
  scripted (fun _ => Raise "net::ERR_CONNECTION_REFUSED")
           (fun _ => Ok page_text) (Ok "42") 1000000 plain_values.


(** Reading the value out of an outcome, for stating what a run gave. *)
Definition ok_or {A : Type} (d : A) (r : res A) : A :=
  match r with Ok a => a | Raise _ => d end.

Definition no_summary : Summary :=
  {| success := false; results := []; total_time := None; error := None |}.

(** What a run of [solve_quiz] in a scripted world returned. *)
Definition returned (run : option (Summary * Script)) : Summary * Script :=
  default (no_summary, script []) run.

(** The passes that may still be needed when the clock shows [now] and
    every step takes at least [latency]. *)
Definition passes_left (latency start_time now : Z) : nat :=
  if now - start_time >? max_time then 1%nat
  else (Z.to_nat ((max_time - (now - start_time)) / latency) + 2)%nat.

(* ===================================================================== *)
(** * class LLMClient                                                     *)
(* ===================================================================== *)

(** A line break. *)
Definition nl : string := String "010" EmptyString.

(** [LLMClient._build_user_prompt]. The context is a dictionary with any
    values, [fmt] is how a value prints inside an f-string; an empty
    dictionary counts as no context. *)
Definition _build_user_prompt {V : Type} (fmt : V -> string) (question_text : string)
    (context : option (gmap string V)) : string :=
  let prompt :=
    "Solve the following quiz question:" +:+ nl +:+ nl +:+ question_text +:+ nl +:+ nl in
  let prompt :=
    match context with
    | Some ctx =>
        if Nat.eqb (size ctx) 0 then prompt
        else
          let prompt :=
            match ctx !! "data" with
            | Some d => prompt +:+ ("Data:" +:+ nl +:+ fmt d +:+ nl +:+ nl)
            | None => prompt
            end in
          match ctx !! "instructions" with
          | Some i => prompt +:+ ("Additional instructions:" +:+ nl +:+ fmt i +:+ nl +:+ nl)
          | None => prompt
          end
    | None => prompt
    end in
  prompt +:+ "Provide a clear, direct answer. If it's a number, provide only the number. If it's text, provide the text. Be precise and accurate.".

(** [LLMClient.extract_answer_from_response]. What [int] raises is a
    [ValueError], which the [except] drops. *)
Definition extract_answer_from_response (max_str_digits : N) (response : string)
    (expected_type : option string) : pyval :=
  let response := strip response in
  let as_number :=
    if bool_decide (expected_type = Some "number") then
      match findall match_number response with
      | num :: _ =>
          if contains "." num then Some (PFloat (float_of_token num))
          else
            match py_int max_str_digits num with
            | Ok z => Some (PInt z)
            | Raise _ => None
            end
      | [] => None
      end
    else None in
  match as_number with
  | Some v => v
  | None =>
      let as_boolean :=
        if bool_decide (expected_type = Some "boolean") then
          let response_lower := lower response in
          if contains "true" response_lower || contains "yes" response_lower
          then Some (PBool true)
          else if contains "false" response_lower || contains "no" response_lower
               then Some (PBool false)
               else None
        else None in
      match as_boolean with
      | Some b => b
      | None => PStr response
      end
  end.

(* ===================================================================== *)
(** * class Config and the synchronous endpoint                           *)
(* ===================================================================== *)

(** The settings [Config.validate] looks at. *)
Record Config : Type := {
  OPENAI_API_KEY : string;
  SECRET : string;
  EMAIL : string;
  SYSTEM_PROMPT : string;
  USER_PROMPT : string
}.

(** [Config.validate] *)
Definition validate (cfg : Config) : bool * option string :=
  if negb (str_truthy (OPENAI_API_KEY cfg)) then (false, Some "OPENAI_API_KEY is required")
  else if negb (str_truthy (SECRET cfg)) then (false, Some "SECRET is required")
  else if negb (str_truthy (EMAIL cfg)) then (false, Some "EMAIL is required")
  else if (100 <? String.length (SYSTEM_PROMPT cfg))%nat
       then (false, Some "SYSTEM_PROMPT must be 100 characters or less")
  else if (100 <? String.length (USER_PROMPT cfg))%nat
       then (false, Some "USER_PROMPT must be 100 characters or less")
  else (true, None).

(** [QuizRequest] and [QuizResponse] of [app.py]. *)
Record QuizRequest : Type := {
  req_email : string;
  req_secret : string;
  req_url : string
}.

Record QuizResponse : Type := {
  resp_success : bool;
  resp_message : string;
  resp_details : Summary
}.

(** What the endpoint sends back: a response, or an [HTTPException]. *)
Inductive endpoint_reply : Type :=
  | Replied (response : QuizResponse)
  | HttpError (status : Z) (detail : string).

(** [solve_quiz_sync] of [app.py]. The secret is compared first; building
    the solver raises when there is no API key ([LLMClient.__init__]),
    which the endpoint turns into a 500. *)
Definition solve_quiz_sync {W DF J : Type} {C : Collaborators W DF J}
    (cfg : Config) (fuel : nat) (request : QuizRequest) (w : W)
  : option (endpoint_reply * W) :=
  if negb (String.eqb (req_secret request) (SECRET cfg)) then
    Some (HttpError 403 "Invalid secret", w)
  else if negb (str_truthy (OPENAI_API_KEY cfg)) then
    Some (HttpError 500 "Internal server error: OpenAI API key is required", w)
  else
    match solve_quiz (req_email request) (req_secret request) fuel (req_url request) w with
    | Some (result, w') =>
        Some (Replied {| resp_success := success result;
                         resp_message := if success result then "Quiz solving completed"
                                         else "Quiz solving failed";
                         resp_details := result |},
              w')
    | None => None
    end.

(* ===================================================================== *)
(** * class BrowserManager                                                *)
(* ===================================================================== *)

(** What a Playwright call may raise: its timeout error, or anything
    else. *)
Inductive pw_exn : Type :=
  | PwTimeout (msg : string)
  | PwError (msg : string).

Inductive pw_res (A : Type) : Type :=
  | PwOk (a : A)
  | PwRaise (e : pw_exn).
Arguments PwOk {A} a.
Arguments PwRaise {A} e.

(** The Playwright calls of [browser.py], over the state [P] of the
    browser process. *)
Class Playwright (P : Type) : Type := {
  pw_start : P -> pw_res unit * P;
  pw_launch : P -> pw_res unit * P;
  pw_new_context : P -> pw_res unit * P;
  pw_new_page : P -> pw_res unit * P;
  pw_goto : pyval -> Z -> P -> pw_res unit * P;
  pw_sleep : Z -> P -> P;
  pw_content : P -> pw_res string * P;
  pw_inner_text : P -> pw_res string * P;
  pw_page_close : P -> pw_res unit * P;
  pw_browser_close : P -> pw_res unit * P;
  pw_stop : P -> pw_res unit * P
}.

(** Which of [self.playwright], [self.browser] and [self.page] are set. *)
Record BrowserManager : Type := {
  bm_playwright : bool;
  bm_browser : bool;
  bm_page : bool
}.

Section BrowserManager.

Context {P : Type} {PW : Playwright P}.

(** [BrowserManager.start] *)
Definition bm_start (s : BrowserManager * P) : pw_res unit * (BrowserManager * P) :=
  let '(b, p) := s in
  match pw_start p with
  | (PwRaise e, p1) => (PwRaise e, (b, p1))
  | (PwOk _, p1) =>
      let b1 := {| bm_playwright := true; bm_browser := bm_browser b; bm_page := bm_page b |} in
      match pw_launch p1 with
      | (PwRaise e, p2) => (PwRaise e, (b1, p2))
      | (PwOk _, p2) =>
          let b2 := {| bm_playwright := true; bm_browser := true; bm_page := bm_page b |} in
          match pw_new_context p2 with
          | (PwRaise e, p3) => (PwRaise e, (b2, p3))
          | (PwOk _, p3) =>
              match pw_new_page p3 with
              | (PwRaise e, p4) => (PwRaise e, (b2, p4))
              | (PwOk _, p4) =>
                  (PwOk tt, ({| bm_playwright := true; bm_browser := true;
                                bm_page := true |}, p4))
              end
          end
      end
  end.

(** The part of [navigate] after the browser is known to be started. *)
Definition bm_load (url : pyval) (timeout : Z) (s : BrowserManager * P)
  : pw_res string * (BrowserManager * P) :=
  let '(b, p) := s in
  let attempt :=
    match pw_goto url timeout p with
    | (PwRaise e, p1) => (PwRaise e, p1)
    | (PwOk _, p1) => pw_content (pw_sleep 2 p1)
    end in
  match attempt with
  | (PwOk content, p2) => (PwOk content, (b, p2))
  | (PwRaise (PwTimeout _), p2) =>
      let '(r, p3) := pw_content p2 in (r, (b, p3))
  | (PwRaise (PwError msg), p2) => (PwRaise (PwError msg), (b, p2))
  end.

(** [BrowserManager.navigate] *)
Definition bm_navigate (url : pyval) (timeout : Z) (s : BrowserManager * P)
  : pw_res string * (BrowserManager * P) :=
  if bm_page s.1 then bm_load url timeout s
  else
    match bm_start s with
    | (PwRaise e, s1) => (PwRaise e, s1)
    | (PwOk _, s1) => bm_load url timeout s1
    end.

(** [BrowserManager.extract_text] *)
Definition bm_extract_text (url : pyval) (s : BrowserManager * P)
  : pw_res string * (BrowserManager * P) :=
  let started :=
    if bm_page s.1 then (PwOk tt, s) else bm_start s in
  match started with
  | (PwRaise e, s1) => (PwRaise e, s1)
  | (PwOk _, s1) =>
      match bm_navigate url 30000 s1 with
      | (PwRaise e, s2) => (PwRaise e, s2)
      | (PwOk _, (b, p2)) =>
          let '(r, p3) := pw_inner_text p2 in (r, (b, p3))
      end
  end.

(** [BrowserManager.close]: whatever is raised inside is logged and
    dropped. *)
Definition bm_close (s : BrowserManager * P) : BrowserManager * P :=
  let '(b, p) := s in
  let step (set : bool) (call : P -> pw_res unit * P) (st : bool * P) : bool * P :=
    let '(ok, p0) := st in
    if ok && set then
      match call p0 with
      | (PwOk _, p1) => (true, p1)
      | (PwRaise _, p1) => (false, p1)
      end
    else st in
  let st := step (bm_page b) pw_page_close (true, p) in
  let st := step (bm_browser b) pw_browser_close st in
  let st := step (bm_playwright b) pw_stop st in
  (b, st.2).

End BrowserManager.

(** A browser process that only counts: the page loads asked for, and
    whether the next load times out. *)
Record LoadCount : Type := {
  loads : nat;
  slow : bool
}.

Definition counting_browser : Playwright LoadCount :=
  {| pw_start := fun p => (PwOk tt, p);
     pw_launch := fun p => (PwOk tt, p);
     pw_new_context := fun p => (PwOk tt, p);
     pw_new_page := fun p => (PwOk tt, p);
     pw_goto := fun _ _ p =>
       (if slow p then PwRaise (PwTimeout "Timeout 30000ms exceeded") else PwOk tt,
        {| loads := S (loads p); slow := slow p |});
     pw_sleep := fun _ p => p;
     pw_content := fun p => (PwOk "<html>partial</html>", p);
     pw_inner_text := fun p => (PwOk "partial", p);
     pw_page_close := fun p => (PwRaise (PwError "Target closed"), p);
     pw_browser_close := fun p => (PwOk tt, p);
     pw_stop := fun p => (PwOk tt, p) |}.

(* ===================================================================== *)
(** * DataProcessor.parse_pdf                                             *)
(* ===================================================================== *)

(** [sep.join(parts)] *)
Fixpoint join (sep : string) (parts : list string) : string :=
  match parts with
  | [] => EmptyString
  | [x] => x
  | x :: rest => x +:+ sep +:+ join sep rest
  end.

(** The loop of [parse_pdf] over the opened pages, from page number
    [page_num] on. A page is what [extract_text] gave, a string or
    [None], and what [extract_tables] gave, tables as lists of rows. *)
Fixpoint parse_pages {R : Type} (page_num : Z)
    (pages : list (option string * list (list R)))
  : list string * list (Z * list R) :=
  match pages with
  | [] => ([], [])
  | (text, tables) :: rest =>
      let '(text_parts, tables_list) := parse_pages (page_num + 1) rest in
      (match opt_truthy text with
       | Some t => ["--- Page " +:+ str_of_int page_num +:+ " ---" +:+ nl +:+ t]
       | None => []
       end ++ text_parts,
       List.map (fun table => (page_num, table))
                (List.filter (fun table => negb (Nat.eqb (length table) 0)) tables)
       ++ tables_list)
  end.

(** What [parse_pdf] returns for the opened pages: the entries text,
    tables and num_pages. *)
Definition parse_pdf_pages {R : Type} (pages : list (option string * list (list R)))
  : string * list (Z * list R) * Z :=
  let '(text_parts, tables_list) := parse_pages 1 pages in
  (join (nl +:+ nl) text_parts, tables_list, Z.of_nat (length text_parts)).

(* ===================================================================== *)
(** * A world with one CSV file                                           *)
(* ===================================================================== *)

(** Tables as named columns of integers. *)
Definition column_sum (df : list (string * list Z)) (column : string) : Z :=
  match List.find (fun col => String.eqb column col.1) df with
  | Some col => fold_right Z.add 0 col.2
  | None => 0
  end.

(** Every download gives the same file, every CSV parses to the table
    [table], and the model cannot be reached. *)
Definition csv_world (table : list (string * list Z))
  : Collaborators Script (list (string * list Z)) unit :=
  {| int_max_str_digits := 4300;
     clock_now := fun w => (sc_clock w, w);
     sleep := fun n w => log_event (EvSleep n) (n * 1000000) w;
     browser_start := fun w => (Ok tt, log_event EvStart 0 w);
     browser_close := fun w => log_event EvClose 0 w;
     browser_navigate := fun url w => (Ok page_html, log_event (EvNavigate url) 0 w);
     browser_extract_text := fun url w => (Ok page_text, log_event (EvExtractText url) 0 w);
     llm_solve_question := fun q _ w => (Raise "model unreachable", log_event (EvAsk q) 0 w);
     download_file := fun _ w => (Ok "amount,qty", w);
     fetch_api_data := fun _ w => (Raise "no api", w);
     parse_pdf := fun _ => Raise "no pdf";
     parse_csv := fun _ => Ok table;
     parse_json := fun _ => Raise "no json";
     extract_tables_from_html := fun _ => [];
     decode_utf8 := fun b => Ok b;
     json_dumps := fun _ => "null";
     is_dict := fun _ => false;
     py_str := fun _ => "None";
     df_concat := fun _ => Raise "no frames";
     df_has_column := fun df column => existsb (fun col => String.eqb column col.1) df;
     df_column_sum := fun df column => Ok (PFloat (binary64 (column_sum df column) 0));
     df_total_sum := fun df =>
       Ok (PFloat (binary64 (fold_right Z.add 0 (List.map (fun col => fold_right Z.add 0 col.2) df)) 0));
     df_column_mean := fun _ _ => Raise "not needed";
     df_total_mean := fun _ => Raise "not needed";
     df_len := fun df => match df with col :: _ => Z.of_nat (length col.2) | [] => 0 end;
     df_column_max := fun _ _ => Raise "not needed";
     df_summary := fun _ => "";
     http_post := fun url payload w => (Raise "connection refused", log_event (EvPost url payload) 0 w) |}.

(** A question about a column of a CSV file, with the column name in
    quotes. *)
Definition csv_text : string :=
  "Download the file at https://quiz.example/data.csv and report the sum of column "
  +:+ String "034" "amount" +:+ String "034" "".


(* ===================================================================== *)
(** * Sanity checks of the patterns and conversions                       *)
(* ===================================================================== *)

Example ex_number_1 : findall match_number "The answer is -3.5 units" = ["-3.5"].
Proof. reflexivity. Qed.

Example ex_number_2 : findall match_number "a-b 12. 7.25.5 -x-9" = ["12."; "7.25"; "5"; "-9"].
Proof. vm_compute. reflexivity. Qed.

Example ex_submit_1 :
  _extract_submit_url "<a href='https://q.example/api/submit?x=1'>go</a> http://a/b"
  = Some "https://q.example/api/submit?x=1".
Proof. vm_compute. reflexivity. Qed.

Example ex_submit_2 : _extract_submit_url "post to https:///submit or http://x/y" = None.
Proof. vm_compute. reflexivity. Qed.

Example ex_urls : findall match_url "see (http://a/b.csv) and https://c" = ["http://a/b.csv"; "https://c"].
Proof. vm_compute. reflexivity. Qed.

Example ex_float : float_of_token "-3.5" = binary64 (-7) (-1).
Proof. vm_compute. reflexivity. Qed.

Example ex_float2 :
  float_of_token "12." = binary64 12 0 /\ float_of_token "0.25" = binary64 1 (-2)
  /\ int_of_token "-007" = (-7)%Z.
Proof. vm_compute. auto. Qed.

(** One tenth is not a binary fraction: [float] gives the nearest
    binary64 number, 0x1.999999999999ap-4. *)
Example ex_float_rounds : float_of_token "0.1" = S754_finite false 7205759403792794 (-56).
Proof. vm_compute. reflexivity. Qed.

(** Zeros keep their sign, and 400 digits are too many for a finite
    float. *)
Example ex_float_edges :
  float_of_token "-0.0" = S754_zero true
  /\ float_of_token (String.concat "" (repeat "9" 400) +:+ ".") = S754_infinity false.
Proof. vm_compute. auto. Qed.

Example ex_strip : strip "  no numeric value
 " = "no numeric value".
Proof. vm_compute. reflexivity. Qed.

Example ex_file_ext : search match_file_url_ext "get HTTP://x.org/a.Pdf.xlsx?y and" = Some "xlsx".
Proof. vm_compute. reflexivity. Qed.

Example ex_quoted :
  search match_quoted ("sum of " +:+ String "034" (String "034" "amount" +:+ String "034" " and b"))
  = Some "amount".
Proof. vm_compute. reflexivity. Qed.

(* ===================================================================== *)
(** * Strings: substrings and spans                                       *)
(* ===================================================================== *)

#[local] Arguments String.append !_ _ : simpl nomatch.

(** Name what a closed run returns by its projections, so that proofs
    compute but never carry the computed worlds. *)
Ltac name_submit_run :=
  match goal with
  | |- exists r w', ?run = (Ok r, w') /\ _ => exists (ok_or ∅ run.1), run.2
  end.

Ltac name_session_run :=
  match goal with
  | |- exists s w', ?run = Some (s, w') /\ _ => exists (returned run).1, (returned run).2
  end.

(** From [Hq : run = Some (s, w')] for a closed run, replace [s] and [w']
    by the projections of the run. *)
Ltac pin_session_run Hq :=
  match type of Hq with
  | ?run = Some (?s, ?w') =>
      let H := fresh in
      let H' := fresh in
      assert (H : run = Some ((returned run).1, (returned run).2))
        by (vm_compute; reflexivity);
      pose proof (eq_trans (eq_sym Hq) H) as H'; injection H' as -> ->
  end.

Lemma append_assoc (a b c : string) : (a +:+ b) +:+ c = a +:+ b +:+ c.
Proof. induction a as [|x a IH]; simpl; [reflexivity | now rewrite IH]. Qed.

Lemma append_nil_r (a : string) : a +:+ "" = a.
Proof. induction a as [|x a IH]; simpl; [reflexivity | now rewrite IH]. Qed.

Lemma startswith_spec (p s : string) :
  startswith p s = true <-> exists post, s = p +:+ post.
Proof.
  revert s. induction p as [|a p IH]; intros s; simpl.
  - split; [intros _; now exists s | reflexivity].
  - destruct s as [|b s].
    + split; [discriminate | intros [post H]; discriminate].
    + destruct (Ascii.eqb_spec a b) as [->|Hne].
      * rewrite IH. split; intros [post H]; exists post; congruence.
      * split; [discriminate | intros [post H]; congruence].
Qed.

(** [sub in s] holds exactly when [s] is some text, [sub], some text. *)
Lemma contains_spec (sub s : string) :
  contains sub s = true <-> exists pre post, s = pre +:+ sub +:+ post.
Proof.
  induction s as [|c s IH].
  - simpl. rewrite orb_false_r, startswith_spec. split.
    + intros [post H]. now exists "", post.
    + intros [pre [post H]]. destruct pre; [now exists post | discriminate].
  - cbn [contains]. rewrite orb_true_iff, startswith_spec, IH. split.
    + intros [[post H] | [pre [post H]]].
      * now exists "", post.
      * exists (String c pre), post. simpl. now rewrite H.
    + intros [pre [post H]]. destruct pre as [|x pre].
      * left. now exists post.
      * right. exists pre, post. simpl in H. congruence.
Qed.

Lemma span_spec (p : ascii -> bool) (s a b : string) :
  span p s = (a, b) ->
  s = a +:+ b /\ all_chars p a = true /\ head_is p b = false.
Proof.
  revert a b. induction s as [|c s IH]; intros a b; simpl.
  - intros [= <- <-]. auto.
  - destruct (p c) eqn:Hc.
    + destruct (span p s) as [a' b'] eqn:Hs. intros [= <- <-].
      destruct (IH _ _ eq_refl) as (-> & Ha & Hb). simpl. rewrite Hc. auto.
    + intros [= <- <-]. simpl. auto.
Qed.

Lemma span_app (p : ascii -> bool) (a b : string) :
  all_chars p a = true -> head_is p b = false -> span p (a +:+ b) = (a, b).
Proof.
  intros Ha Hb. induction a as [|c a IH]; simpl in *.
  - destruct b as [|x b]; simpl in *; [reflexivity | now rewrite Hb].
  - apply andb_true_iff in Ha as [Hc Ha]. rewrite Hc, (IH Ha). reflexivity.
Qed.

Lemma span_head_false (p : ascii -> bool) (s : string) :
  head_is p s = false -> span p s = ("", s).
Proof. destruct s as [|c s]; simpl; [reflexivity | now intros ->]. Qed.

(* ===================================================================== *)
(** * Classification                                                      *)
(* ===================================================================== *)

Lemma question_type_first_match (t : string) :
  question_type t = first_match kind_rules t.
Proof.
  unfold question_type, kind_rules. cbn [first_match existsb].
  repeat match goal with
         | |- context [contains ?kw t] =>
             destruct (contains kw t); cbn [orb]; try reflexivity
         end.
Qed.

(** C3. The kind is decided by first match over the lower-cased text, in
    the order download/file, api/endpoint, sum/calculate/table,
    visualize/chart/plot, pdf, and general when nothing matches, where a
    keyword matches when it is a substring. A text with api and pdf but
    neither download nor file is an api_fetch question. *)
Theorem classify_first_match_priority (text html : string) :
  let t := lower text in
  let k := qi_type (_extract_question_info text html) in
  k = first_match kind_rules t
  /\ (forall kw, contains kw t = true <-> exists pre post, t = pre +:+ kw +:+ post)
  /\ (contains "download" t || contains "file" t = true -> k = file_download)
  /\ (contains "download" t || contains "file" t = false ->
      (contains "api" t || contains "endpoint" t = true -> k = api_fetch)
      /\ (contains "api" t || contains "endpoint" t = false ->
          (contains "sum" t || contains "calculate" t || contains "table" t = true ->
           k = data_analysis)
          /\ (contains "sum" t || contains "calculate" t || contains "table" t = false ->
              (contains "visualize" t || contains "chart" t || contains "plot" t = true ->
               k = visualization)
              /\ (contains "visualize" t || contains "chart" t || contains "plot" t = false ->
                  (contains "pdf" t = true -> k = pdf_analysis)
                  /\ (contains "pdf" t = false -> k = general)))))
  /\ (contains "api" t = true -> contains "pdf" t = true ->
      contains "download" t = false -> contains "file" t = false ->
      k = api_fetch).
Proof.
  intros t k. subst k. cbn [_extract_question_info qi_type]. fold t.
  split; [apply question_type_first_match |].
  split; [intros kw; apply contains_spec |].
  unfold question_type.
  split; [intros ->; reflexivity |].
  split.
  - intros ->. split; [intros ->; reflexivity |].
    intros ->. split; [intros ->; reflexivity |].
    intros ->. split; [intros ->; reflexivity |].
    intros ->. split; intros ->; reflexivity.
  - intros Ha _ Hd Hf. rewrite Hd, Hf, Ha. reflexivity.
Qed.

Lemma classify_first_match_priority_witness :
  qi_type (_extract_question_info "Call the API, then summarise the PDF report" "")
  = api_fetch.
Proof.
  apply (classify_first_match_priority
           "Call the API, then summarise the PDF report" ""); reflexivity.
Defined.

(* ===================================================================== *)
(** * The number pattern and answer coercion                              *)
(* ===================================================================== *)

Lemma eat_hit (ch : ascii) (r : string) : eat ch (String ch r) = (String ch "", r).
Proof. unfold eat. now rewrite Ascii.eqb_refl. Qed.

Lemma eat_miss (ch : ascii) (s : string) :
  head_is (Ascii.eqb ch) s = false -> eat ch s = ("", s).
Proof. destruct s as [|c s]; simpl; [reflexivity | now intros ->]. Qed.

Lemma digit_not_minus (c : ascii) : is_digit c = true -> Ascii.eqb "-" c = false.
Proof.
  intros H. destruct (Ascii.eqb_spec "-" c) as [<-|]; [vm_compute in H; discriminate | reflexivity].
Qed.

Lemma digit_not_dot (c : ascii) : is_digit c = true -> Ascii.eqb "." c = false.
Proof.
  intros H. destruct (Ascii.eqb_spec "." c) as [<-|]; [vm_compute in H; discriminate | reflexivity].
Qed.

Lemma all_chars_app (p : ascii -> bool) (a b : string) :
  all_chars p (a +:+ b) = all_chars p a && all_chars p b.
Proof. induction a as [|c a IH]; simpl; [reflexivity | now rewrite IH, andb_assoc]. Qed.

Lemma match_number_token (sign ds dot fs post : string) :
  token_shape sign ds dot fs post ->
  match_number (sign +:+ ds +:+ dot +:+ fs +:+ post) = Some (sign +:+ ds +:+ dot +:+ fs).
Proof.
  intros (Hsign & Hds & Hall & Hdot & Hpost & Hnodot).
  assert (Hrest : head_is is_digit (dot +:+ fs +:+ post) = false).
  { destruct Hdot as [[-> ->] | [-> _]]; [exact Hpost | reflexivity]. }
  assert (Htail : forall sg, (let '(d, s3) := eat "." (dot +:+ fs +:+ post) in
                   let '(f, _) := span is_digit s3 in Some (sg +:+ ds +:+ d +:+ f))
                  = Some (sg +:+ ds +:+ dot +:+ fs)).
  { intros sg. destruct Hdot as [[-> ->] | [-> Hfs]].
    - simpl String.append. rewrite (eat_miss _ _ (Hnodot eq_refl)).
      now rewrite (span_head_false _ _ Hpost).
    - change ("." +:+ fs +:+ post) with (String "." (fs +:+ post)).
      rewrite eat_hit. now rewrite (span_app _ _ _ Hfs Hpost). }
  unfold match_number.
  destruct ds as [|d ds']; [congruence |].
  pose proof Hall as Hd. simpl in Hd. apply andb_true_iff in Hd as [Hd _].
  destruct Hsign as [-> | ->].
  - change ("" +:+ String d ds' +:+ dot +:+ fs +:+ post)
      with (String d ds' +:+ dot +:+ fs +:+ post).
    rewrite eat_miss by (simpl; now apply digit_not_minus).
    rewrite (span_app _ _ _ Hall Hrest). apply Htail.
  - change ("-" +:+ String d ds' +:+ dot +:+ fs +:+ post)
      with (String "-" (String d ds' +:+ dot +:+ fs +:+ post)).
    rewrite eat_hit. rewrite (span_app _ _ _ Hall Hrest). apply Htail.
Qed.

Lemma match_number_none (s : string) :
  head_is is_digit s = false ->
  (forall r, s = String "-" r -> head_is is_digit r = false) ->
  match_number s = None.
Proof.
  intros Hd Hm. unfold match_number. destruct s as [|c s]; [reflexivity |].
  unfold eat. destruct (Ascii.eqb_spec "-" c) as [<-|Hne].
  - now rewrite (span_head_false _ _ (Hm _ eq_refl)).
  - now rewrite (span_head_false _ _ Hd).
Qed.

Lemma findall_from_skip_prefix (m : string -> option string) (pre s : string) :
  (forall p1 p2, pre = p1 +:+ p2 -> p2 <> "" -> m (p2 +:+ s) = None) ->
  findall_from m 0 (pre +:+ s) = findall_from m 0 s.
Proof.
  induction pre as [|c pre IH]; intros H; [reflexivity |].
  simpl String.append. cbn [findall_from].
  change (String c (pre +:+ s)) with (String c pre +:+ s).
  rewrite (H "" (String c pre) eq_refl) by discriminate.
  apply IH. intros p1 p2 -> Hp2. now apply (H (String c p1) p2).
Qed.

Lemma findall_no_digit (s : string) :
  no_digit s = true -> findall match_number s = [].
Proof.
  unfold findall, no_digit. induction s as [|c s IH]; intros H; [reflexivity |].
  simpl in H. apply andb_true_iff in H as [Hc Hs].
  cbn [findall_from]. rewrite match_number_none.
  - now apply IH.
  - simpl. now apply negb_true_iff.
  - intros r [= _ <-]. destruct s as [|c' s]; [reflexivity |].
    simpl in *. apply andb_true_iff in Hs as [Hc' _]. now apply negb_true_iff.
Qed.

Lemma first_number_token_found (pre tok post : string) :
  first_number_token pre tok post ->
  exists rest, findall match_number (pre +:+ tok +:+ post) = tok :: rest.
Proof.
  intros [sign ds dot fs -> Hsign Hds Hall Hdot Hpre Hend Hpost Hnodot].
  assert (Hshape : token_shape sign ds dot fs post) by (repeat split; assumption).
  assert (Htok : (sign +:+ ds +:+ dot +:+ fs) +:+ post
                 = sign +:+ ds +:+ dot +:+ fs +:+ post) by now rewrite !append_assoc.
  unfold findall. rewrite findall_from_skip_prefix.
  - destruct ((sign +:+ ds +:+ dot +:+ fs) +:+ post) as [|c r] eqn:E.
    + exfalso. destruct Hsign as [-> | ->]; [| discriminate].
      destruct ds; [congruence | discriminate].
    + cbn [findall_from]. rewrite Htok, (match_number_token _ _ _ _ _ Hshape).
      eexists. reflexivity.
  - intros p1 p2 -> Hp2. unfold no_digit in Hpre.
    rewrite all_chars_app in Hpre. apply andb_true_iff in Hpre as [_ Hp2d].
    destruct p2 as [|c p2]; [congruence |].
    simpl in Hp2d. apply andb_true_iff in Hp2d as [Hc Hp2d].
    apply negb_true_iff in Hc.
    apply match_number_none; [exact Hc |].
    intros r [= -> <-]. destruct p2 as [|c' p2].
    + simpl String.append. destruct Hsign as [-> | ->]; [| reflexivity].
      exfalso. apply (Hend eq_refl p1). reflexivity.
    + simpl in *. apply andb_true_iff in Hp2d as [Hc' _]. now apply negb_true_iff.
Qed.

Lemma token_at_digit (d : ascii) (r : string) :
  is_digit d = true ->
  exists ds dot fs post,
    String d r = ds +:+ dot +:+ fs +:+ post /\ token_shape "" ds dot fs post.
Proof.
  intros Hd. destruct (span is_digit (String d r)) as [ds s2] eqn:Hspan.
  destruct (span_spec _ _ _ _ Hspan) as (Hs & Hall & Hs2).
  assert (Hne : ds <> "").
  { simpl in Hspan. rewrite Hd in Hspan. destruct (span is_digit r).
    injection Hspan as <- _. discriminate. }
  destruct s2 as [|c s2'].
  - exists ds, "", "", "". split; [now rewrite Hs |].
    repeat split; auto.
  - destruct (Ascii.eqb_spec "." c) as [<-|Hc].
    + destruct (span is_digit s2') as [fs post] eqn:Hspan2.
      destruct (span_spec _ _ _ _ Hspan2) as (Hs' & Hfs & Hp).
      exists ds, ".", fs, post. split; [now rewrite Hs, Hs' |].
      repeat split; auto. discriminate.
    + exists ds, "", "", (String c s2'). split; [now rewrite Hs |].
      repeat split; auto. intros _. unfold head_is. now apply Ascii.eqb_neq.
Qed.

Lemma number_token_exists (s : string) :
  no_digit s = true
  \/ exists pre tok post, s = pre +:+ tok +:+ post /\ first_number_token pre tok post.
Proof.
  induction s as [|c s IH]; [now left |].
  destruct (is_digit c) eqn:Hc.
  - right. destruct (token_at_digit c s Hc)
      as (ds & dot & fs & post & Hs & _ & Hds & Hall & Hdot & Hpost & Hnodot).
    exists "", (ds +:+ dot +:+ fs), post. split.
    + simpl String.append. now rewrite Hs, !append_assoc.
    + apply (FirstNumberToken _ _ _ "" ds dot fs); auto.
      intros _ p. destruct p; discriminate.
  - destruct IH as [Hnd | (pre & tok & post & -> & Htok)].
    + left. unfold no_digit in *. simpl. now rewrite Hc, Hnd.
    + right. destruct Htok as [sign ds dot fs -> Hsign Hds Hall Hdot Hpre Hend Hpost Hnodot].
      destruct (Ascii.eqb_spec "-" c) as [<-|Hminus].
      * destruct pre as [|x pre].
        -- destruct Hsign as [-> | ->].
           ++ exists "", ("-" +:+ ds +:+ dot +:+ fs), post. split; [reflexivity |].
              apply (FirstNumberToken _ _ _ "-" ds dot fs); auto;
                intros H; discriminate H.
           ++ exists "-", ("-" +:+ ds +:+ dot +:+ fs), post. split; [reflexivity |].
              apply (FirstNumberToken _ _ _ "-" ds dot fs); auto;
                intros H; discriminate H.
        -- exists (String "-" (String x pre)), (sign +:+ ds +:+ dot +:+ fs), post.
           split; [reflexivity |].
           apply (FirstNumberToken _ _ _ sign ds dot fs); auto.
           intros Hs p Hp. destruct p as [|y p]; [discriminate |].
           injection Hp as _ Hp. exact (Hend Hs p Hp).
      * exists (String c pre), (sign +:+ ds +:+ dot +:+ fs), post.
        split; [reflexivity |].
        apply (FirstNumberToken _ _ _ sign ds dot fs); auto.
        -- unfold no_digit in *. simpl. now rewrite Hc, Hpre.
        -- intros Hs p Hp. destruct p as [|y p].
           ++ injection Hp as Hp _. congruence.
           ++ injection Hp as _ Hp. exact (Hend Hs p Hp).
Qed.

Lemma lstrip_spec (s : string) :
  exists l, s = l +:+ lstrip s
            /\ all_chars is_space l = true
            /\ head_is is_space (lstrip s) = false.
Proof.
  induction s as [|c s (l & Hs & Hl & Hh)]; [now exists "" |].
  cbn [lstrip]. destruct (is_space c) eqn:Hc.
  - exists (String c l). cbn [String.append all_chars]. rewrite Hc, Hl, <- Hs. auto.
  - exists "". cbn. auto.
Qed.

Lemma rstrip_cons_kept (c : ascii) (s : string) :
  is_space c = false -> rstrip (String c s) = String c (rstrip s).
Proof. intros H. cbn [rstrip]. rewrite H. now destruct (rstrip s). Qed.

Lemma rstrip_cons (c : ascii) (s : string) :
  rstrip (String c s) = "" \/ rstrip (String c s) = String c (rstrip s).
Proof. cbn [rstrip]. destruct (rstrip s); [destruct (is_space c) |]; auto. Qed.

Lemma rstrip_cons_nil (c : ascii) (s : string) :
  rstrip (String c s) = "" -> is_space c = true /\ rstrip s = "".
Proof.
  cbn [rstrip]. destruct (rstrip s); [| discriminate].
  destruct (is_space c); [auto | discriminate].
Qed.

Lemma rstrip_spec (s : string) :
  exists r, s = rstrip s +:+ r
            /\ all_chars is_space r = true
            /\ (forall t c, rstrip s = t +:+ String c "" -> is_space c = false).
Proof.
  induction s as [|c s (r & Hs & Hr & Hlast)].
  - exists "". repeat split. intros [|x t] c H; discriminate H.
  - destruct (rstrip_cons c s) as [E | E].
    + destruct (rstrip_cons_nil _ _ E) as [Hc Hnil]. rewrite E.
      exists (String c s). repeat split.
      * cbn [all_chars]. rewrite Hc. rewrite Hnil in Hs. cbn in Hs. now rewrite Hs.
      * intros [|x t] c' H; discriminate H.
    + rewrite E. exists r. cbn [String.append]. rewrite <- Hs. repeat split; [exact Hr |].
      intros [|x t] c' H.
      * injection H as -> Hnil.
        destruct (is_space c') eqn:Hc; [| reflexivity].
        exfalso. cbn [rstrip] in E. rewrite Hnil, Hc in E. discriminate E.
      * injection H as _ H. exact (Hlast _ _ H).
Qed.

Lemma rstrip_head (s : string) :
  head_is is_space s = false -> head_is is_space (rstrip s) = false.
Proof.
  destruct s as [|c s]; [auto |]. cbn [head_is]. intros Hc.
  now rewrite (rstrip_cons_kept _ _ Hc).
Qed.

(** [strip] removes whitespace, all of it, and only at the two ends. *)
Lemma strip_trimmed (s : string) : trimmed s (strip s).
Proof.
  unfold strip. destruct (lstrip_spec s) as (l & Hs & Hl & Hh).
  destruct (rstrip_spec (lstrip s)) as (r & Hs' & Hr & Hlast).
  exists l, r. repeat split; auto.
  - now rewrite <- Hs', <- Hs.
  - now apply rstrip_head.
Qed.

Lemma int_refuses_spec (max_str_digits : N) (sign ds : string) :
  sign = "" \/ sign = "-" ->
  head_is (Ascii.eqb "-") ds = false ->
  int_refuses max_str_digits (sign +:+ ds) = true
  <-> (640 < N.of_nat (String.length ds)
       /\ 0 < max_str_digits < N.of_nat (String.length ds))%N.
Proof.
  intros Hsign Hds. unfold int_refuses.
  assert (E : eat "-" (sign +:+ ds) = (sign, ds)).
  { destruct Hsign as [-> | ->]; [now apply eat_miss | apply eat_hit]. }
  rewrite E. unfold int_str_digits_threshold.
  rewrite !andb_true_iff, !N.ltb_lt. tauto.
Qed.

(** C4, as the code has it. The coercion of a model response. When the
    response holds a first number-shaped token (optional minus sign,
    digits, optional decimal point and digits), a token with a decimal
    point gives the float it denotes, rounded to binary64, and a token
    without one gives the integer it denotes, unless the interpreter
    refuses a literal of that many digits: then, as when the response
    holds no token, the answer is the response without the whitespace at
    its two ends. One of the two cases always applies. A literal is
    refused only when it has more than 640 digits and more than the
    limit, which is not 0. The answer is -3.5 units gives -3.5 and no
    numeric value gives that text back. *)
Theorem extract_answer_coercion
    (max_str_digits : N) (llm_response question_text : string) :
  (forall pre tok post,
      llm_response = pre +:+ tok +:+ post ->
      first_number_token pre tok post ->
      _extract_answer max_str_digits llm_response question_text
      = if contains "." tok then PFloat (float_of_token tok)
        else if int_refuses max_str_digits tok then PStr (strip llm_response)
        else PInt (int_of_token tok))
  /\ ((forall pre tok post,
          llm_response = pre +:+ tok +:+ post -> ~ first_number_token pre tok post) ->
      _extract_answer max_str_digits llm_response question_text = PStr (strip llm_response))
  /\ ((exists pre tok post,
          llm_response = pre +:+ tok +:+ post /\ first_number_token pre tok post)
      \/ (forall pre tok post,
             llm_response = pre +:+ tok +:+ post -> ~ first_number_token pre tok post))
  /\ trimmed llm_response (strip llm_response)
  /\ (forall sign ds,
         sign = "" \/ sign = "-" ->
         all_chars is_digit ds = true ->
         int_refuses max_str_digits (sign +:+ ds) = true
         <-> (640 < N.of_nat (String.length ds)
              /\ 0 < max_str_digits < N.of_nat (String.length ds))%N)
  /\ _extract_answer max_str_digits "The answer is -3.5 units" question_text
     = PFloat (binary64 (-7) (-1))
  /\ _extract_answer max_str_digits "no numeric value" question_text
     = PStr "no numeric value".
Proof.
  assert (Hfound : forall pre tok post,
             llm_response = pre +:+ tok +:+ post ->
             first_number_token pre tok post ->
             exists rest, findall match_number llm_response = tok :: rest).
  { intros pre tok post -> H. now apply first_number_token_found. }
  split; [| split; [| split; [| split; [| split]]]].
  - intros pre tok post E H. destruct (Hfound _ _ _ E H) as [rest Hrest].
    unfold _extract_answer, py_int. rewrite Hrest.
    destruct (contains "." tok); [reflexivity |].
    now destruct (int_refuses max_str_digits tok).
  - intros Hnone. destruct (number_token_exists llm_response)
      as [Hnd | (pre & tok & post & E & H)].
    + unfold _extract_answer. now rewrite (findall_no_digit _ Hnd).
    + destruct (Hnone _ _ _ E H).
  - destruct (number_token_exists llm_response)
      as [Hnd | (pre & tok & post & E & H)].
    + right. intros pre tok post E H. destruct (Hfound _ _ _ E H) as [rest Hrest].
      rewrite (findall_no_digit _ Hnd) in Hrest. discriminate.
    + left. now exists pre, tok, post.
  - apply strip_trimmed.
  - intros sign ds Hsign Hall. apply int_refuses_spec; [exact Hsign |].
    destruct ds as [|d ds]; [reflexivity |]. cbn [head_is].
    cbn [all_chars] in Hall. apply andb_true_iff in Hall as [Hd _].
    now apply digit_not_minus.
  - split; reflexivity.
Qed.

Lemma extract_answer_coercion_witness :
  _extract_answer 4300 "Total: 42 items" "" = PInt 42.
Proof.
  refine (proj1 (extract_answer_coercion 4300 "Total: 42 items" "")
            "Total: " "42" " items" eq_refl _).
  apply (FirstNumberToken _ _ _ "" "42" "" ""); try reflexivity.
  - left; reflexivity.
  - discriminate.
  - left; split; reflexivity.
  - intros _ p. destruct p as [|a [|b [|c [|d [|e [|f [|g [|h p]]]]]]]]; discriminate.
Defined.

(** C4 as claimed fails on a long number: a response of 4301 digits is
    one number-shaped token without a decimal point, and under the
    default limit of 4300 digits the answer is not an integer but the
    response itself, as text. *)
Lemma extract_answer_counterexample :
  let response := String.concat "" (repeat "7" 4301) in
  findall match_number response = [response]
  /\ contains "." response = false
  /\ _extract_answer 4300 response "" = PStr response
  /\ _extract_answer 4300 response "" <> PInt (int_of_token response).
Proof.
  cbv zeta. split; [vm_compute; reflexivity |].
  split; [vm_compute; reflexivity |].
  assert (H : _extract_answer 4300 (String.concat "" (repeat "7" 4301)) ""
              = PStr (String.concat "" (repeat "7" 4301))) by (vm_compute; reflexivity).
  split; [exact H |]. rewrite H. discriminate.
Qed.

(* ===================================================================== *)
(** * Submission with retries                                             *)
(* ===================================================================== *)

Section Submission.

Context {W DF J : Type} {C : Collaborators W DF J}.
Variable email secret : string.
Variable submit_url : string.
Variable quiz_url answer : pyval.
Variable max_retries : Z.

Let payload := submit_payload email secret quiz_url answer.
Let run := submit_loop submit_url quiz_url answer payload max_retries.

Lemma submit_loop_attempt_fails (remaining : nat) (attempt : Z) (w w1 : W) :
  attempt_fails submit_url payload w w1 ->
  run (S remaining) attempt w
  = run remaining (attempt + 1) (backoff attempt max_retries w1).
Proof.
  unfold run. intros [e ? ? H | response ? ? H Hs | response ? ? H Hs Hb];
    cbn [submit_loop]; rewrite H.
  - reflexivity.
  - apply Z.eqb_neq in Hs. now rewrite Hs.
  - apply Z.eqb_eq in Hs. rewrite Hs.
    destruct (json response) as [[d|]|e]; [destruct (Hb d eq_refl) | reflexivity | reflexivity].
Qed.

Lemma submit_loop_failed_attempts (n : nat) (attempt : Z) (w w' : W) :
  failed_attempts submit_url payload max_retries n attempt w w' ->
  forall m, run (n + m)%nat attempt w = run m (attempt + Z.of_nat n) w'.
Proof.
  induction 1 as [attempt w | n attempt w w1 w' Hfail _ IH]; intros m.
  - simpl. now rewrite Z.add_0_r.
  - change (S n + m)%nat with (S (n + m)).
    rewrite (submit_loop_attempt_fails _ _ _ _ Hfail), IH. f_equal. lia.
Qed.

Lemma submit_loop_ok (remaining : nat) (attempt : Z) (w w1 : W)
    (response : http_response) (result : gmap string pyval) :
  http_post submit_url payload w = (Ok response, w1) ->
  status_code response = 200 ->
  json response = Ok (JsonDict result) ->
  run (S remaining) attempt w
  = (Some (submit_result quiz_url answer result attempt), w1).
Proof.
  intros H Hs Hb. unfold run. cbn [submit_loop]. rewrite H.
  apply Z.eqb_eq in Hs. now rewrite Hs, Hb.
Qed.

(** A result that the loop returns from attempt number [attempt] on
    carries a later attempt count. *)
Lemma submit_loop_attempt_from (remaining : nat) (attempt : Z) (w w' : W)
    (r : gmap string pyval) :
  run remaining attempt w = (Some r, w') ->
  exists k, attempt <= k /\ r !! "attempt" = Some (PInt (k + 1)).
Proof.
  unfold run. revert attempt w. induction remaining as [|n IH]; intros attempt w;
    cbn [submit_loop]; [discriminate |].
  assert (Hretry : forall w1,
             submit_loop submit_url quiz_url answer payload max_retries n (attempt + 1)
                         (backoff attempt max_retries w1) = (Some r, w') ->
             exists k, attempt <= k /\ r !! "attempt" = Some (PInt (k + 1))).
  { intros w1 H. destruct (IH _ _ H) as (k & Hk & Hr). exists k. split; [lia | exact Hr]. }
  destruct (http_post submit_url payload w) as [[response|e] w1]; [| apply Hretry].
  destruct (status_code response =? 200); [| apply Hretry].
  destruct (json response) as [[d|]|e]; [| apply Hretry | apply Hretry].
  intros [= <- <-]. exists attempt. split; [lia |].
  unfold submit_result. by simplify_map_eq.
Qed.

(** A POST that fails leaves [_submit_answer] to the later attempts:
    what it returns does not carry the number of that attempt, and when
    it was the last attempt allowed it is the failure result. *)
Lemma submit_answer_attempt_fails (k : nat) (w wk w1 : W) :
  failed_attempts submit_url payload max_retries k 0 w wk ->
  Z.of_nat k < max_retries ->
  attempt_fails submit_url payload wk w1 ->
  exists r w',
    _submit_answer email secret submit_url quiz_url answer max_retries w = (Ok r, w')
    /\ r !! "attempt" <> Some (PInt (Z.of_nat k + 1))
    /\ (Z.of_nat k + 1 = max_retries -> r = submit_failure quiz_url answer /\ w' = w1).
Proof.
  intros Hbefore Hk Hfail. unfold _submit_answer. fold payload. fold run.
  replace (Z.to_nat max_retries) with (k + S (Z.to_nat max_retries - S k))%nat by lia.
  rewrite (submit_loop_failed_attempts _ _ _ _ Hbefore).
  rewrite (submit_loop_attempt_fails _ _ _ _ Hfail).
  destruct (run (Z.to_nat max_retries - S k) (0 + Z.of_nat k + 1)
                (backoff (0 + Z.of_nat k) max_retries w1)) as [[r|] w'] eqn:E.
  - exists r, w'. split; [reflexivity |].
    destruct (submit_loop_attempt_from _ _ _ _ _ E) as (k' & Hk' & Hr). split.
    + rewrite Hr. intros [= H]. lia.
    + intros Hlast. replace (Z.to_nat max_retries - S k)%nat with 0%nat in E by lia.
      discriminate E.
  - exists (submit_failure quiz_url answer), w'. split; [reflexivity |]. split.
    + unfold submit_failure. by simplify_map_eq.
    + intros Hlast. replace (Z.to_nat max_retries - S k)%nat with 0%nat in E by lia.
      cbn in E. unfold backoff in E.
      destruct (Z.ltb_spec (0 + Z.of_nat k) (max_retries - 1)); [lia |].
      injection E as <-. auto.
Qed.

Lemma submit_answer_unfold (w : W) :
  _submit_answer email secret submit_url quiz_url answer max_retries w
  = match run (Z.to_nat max_retries) 0 w with
    | (Some result, w') => (Ok result, w')
    | (None, w') => (Ok (submit_failure quiz_url answer), w')
    end.
Proof. reflexivity. Qed.

(** [_submit_answer] returns on every path. *)
Lemma submit_answer_returns (w : W) :
  exists r w', _submit_answer email secret submit_url quiz_url answer max_retries w
               = (Ok r, w').
Proof.
  rewrite submit_answer_unfold. destruct (run _ 0 w) as [[r|] w']; eauto.
Qed.

Lemma submit_answer_exhausted (w w' : W) :
  failed_attempts submit_url payload max_retries (Z.to_nat max_retries) 0 w w' ->
  _submit_answer email secret submit_url quiz_url answer max_retries w
  = (Ok (submit_failure quiz_url answer), w').
Proof.
  intros H. rewrite submit_answer_unfold.
  pose proof (submit_loop_failed_attempts _ _ _ _ H 0%nat) as E.
  rewrite Nat.add_0_r in E. rewrite E. reflexivity.
Qed.

Lemma submit_answer_ok (k : nat) (w wk w' : W)
    (response : http_response) (result : gmap string pyval) :
  failed_attempts submit_url payload max_retries k 0 w wk ->
  Z.of_nat k < max_retries ->
  http_post submit_url payload wk = (Ok response, w') ->
  status_code response = 200 ->
  json response = Ok (JsonDict result) ->
  _submit_answer email secret submit_url quiz_url answer max_retries w
  = (Ok (submit_result quiz_url answer result (Z.of_nat k)), w').
Proof.
  intros Hfail Hk Hpost Hs Hb. rewrite submit_answer_unfold.
  assert (E : Z.to_nat max_retries = (k + S (Z.to_nat max_retries - S k))%nat) by lia.
  rewrite E, (submit_loop_failed_attempts _ _ _ _ Hfail).
  rewrite (submit_loop_ok _ _ _ _ _ _ Hpost Hs Hb). reflexivity.
Qed.

End Submission.

Lemma submit_result_fields (quiz_url answer : pyval) (result : gmap string pyval) (attempt : Z) :
  let r := submit_result quiz_url answer result attempt in
  r !! "url" = Some quiz_url
  /\ r !! "answer" = Some answer
  /\ r !! "correct" = Some (dict_get_default result "correct" (PBool false))
  /\ r !! "next_url" = Some (dict_get result "url")
  /\ r !! "reason" = Some (dict_get result "reason")
  /\ r !! "attempt" = Some (PInt (attempt + 1))
  /\ r !! "error" = None.
Proof. unfold submit_result. repeat split; by simplify_map_eq. Qed.

Lemma submit_failure_fields (quiz_url answer : pyval) :
  let r := submit_failure quiz_url answer in
  r !! "url" = Some quiz_url
  /\ r !! "answer" = Some answer
  /\ r !! "correct" = Some (PBool false)
  /\ r !! "error" = Some (PStr "Failed to submit after retries")
  /\ r !! "attempt" = None
  /\ r !! "next_url" = None.
Proof. unfold submit_failure. repeat split; by simplify_map_eq. Qed.

(* ===================================================================== *)
(** * The session loop                                                    *)
(* ===================================================================== *)

Section Loop.

Context {W DF J : Type} {C : Collaborators W DF J}.
Variable email secret : string.

Implicit Types (u : pyval) (rs : list (gmap string pyval)) (w : W).

Lemma loop_body_deadline start_time u rs w now w1 :
  clock_now w = (now, w1) ->
  now - start_time > max_time ->
  loop_body email secret start_time u rs w = (rs, Break, w1).
Proof.
  intros Hc Hlate. unfold loop_body. rewrite Hc.
  destruct (Z.gtb_spec (now - start_time) max_time); [reflexivity | lia].
Qed.

(** Within the time limit a pass runs one step, appends its result, and
    goes on exactly when the result names a next URL. *)
Lemma loop_body_step start_time u rs w now w1 r w2 :
  clock_now w = (now, w1) ->
  now - start_time <= max_time ->
  _solve_single_quiz email secret u w1 = (r, w2) ->
  loop_body email secret start_time u rs w
  = (rs ++ [r],
     if truthy (dict_get r "next_url") then Continue (dict_get r "next_url") else Break,
     w2).
Proof.
  intros Hc Hin Hs. unfold loop_body. rewrite Hc.
  destruct (Z.gtb_spec (now - start_time) max_time); [lia |].
  rewrite Hs. destruct (truthy (dict_get r "correct")), (truthy (dict_get r "next_url"));
    reflexivity.
Qed.

Lemma quiz_loop_more_fuel fuel start_time u rs w out :
  quiz_loop email secret fuel start_time u rs w = Some out ->
  forall k, quiz_loop email secret (fuel + k) start_time u rs w = Some out.
Proof.
  revert u rs w. induction fuel as [|fuel IH]; intros u rs w H k.
  - simpl in H. destruct (truthy u) eqn:Hu; [discriminate |].
    destruct k; simpl; now rewrite Hu.
  - simpl in *. destruct (truthy u); [| exact H].
    destruct (loop_body email secret start_time u rs w) as [[rs' [u'|]] w'];
      [now apply IH | exact H].
Qed.

Lemma quiz_loop_reaches start_time n s s' :
  loop_reaches email secret start_time n s s' ->
  forall fuel out,
    quiz_loop email secret fuel start_time s'.1.1 s'.1.2 s'.2 = Some out ->
    quiz_loop email secret (n + fuel) start_time s.1.1 s.1.2 s.2 = Some out.
Proof.
  induction 1 as [s | n u u' rs rs' w w' s Hu Hbody _ IH]; intros fuel out H.
  - exact H.
  - simpl. rewrite Hu, Hbody. now apply IH.
Qed.

(** A session whose loop leaves by [break] in pass [n + 1] returns the
    normal summary, given fuel for that many passes. *)
Lemma session_finishes initial_url w start_time n u rs wk rs' wk' :
  session_at email secret initial_url w start_time n u rs wk ->
  truthy u = true ->
  loop_body email secret start_time u rs wk = (rs', Break, wk') ->
  forall fuel, (n < fuel)%nat ->
    solve_quiz email secret fuel initial_url w = Some (finished start_time rs' wk').
Proof.
  intros (w0 & w1 & Hclock & Hstart & Hreach) Hu Hbody fuel Hfuel.
  assert (Hloop : quiz_loop email secret fuel start_time (PStr initial_url) [] w1
                  = Some (rs', wk')).
  { replace fuel with ((n + 1) + (fuel - (n + 1)))%nat by lia.
    apply quiz_loop_more_fuel.
    apply (quiz_loop_reaches _ _ _ _ Hreach 1%nat). simpl. now rewrite Hu, Hbody. }
  unfold solve_quiz, finished. rewrite Hclock, Hstart, Hloop.
  now destruct (clock_now wk').
Qed.

Lemma finished_summary start_time rs w :
  success (finished start_time rs w).1 = true
  /\ results (finished start_time rs w).1 = rs
  /\ error (finished start_time rs w).1 = None
  /\ (finished start_time rs w).2 = browser_close (clock_now w).2.
Proof. unfold finished. destruct (clock_now w). simpl. auto. Qed.

End Loop.

(* ===================================================================== *)
(** * Claims about submission                                             *)
(* ===================================================================== *)

(** C6, as the code has it. When the POST numbered k+1 is the first to
    get HTTP 200 with a JSON object for a body, and k+1 is within the
    attempts allowed, [_submit_answer] returns there and then: the world
    is left as it was right after that POST, correct is the body's
    correct entry, the next URL is the body's url entry, and the attempt
    count is k+1. A POST that gets HTTP 200 with a body that is not a
    JSON object does not end the submission: it is one more failed
    attempt, the result does not carry its attempt number, and when it
    was the last attempt allowed the result is the failure result. Two
    refusals and then a 200 with correct true and url next give correct
    true, next URL next and attempt 3, after three POSTs. *)
Theorem submit_returns_on_200 :
  (forall (W DF J : Type) (C : Collaborators W DF J)
          (email secret submit_url : string) (quiz_url answer : pyval)
          (max_retries : Z) (k : nat) (w wk w' : W)
          (response : http_response) (result : gmap string pyval),
      failed_attempts submit_url (submit_payload email secret quiz_url answer)
                      max_retries k 0 w wk ->
      Z.of_nat k < max_retries ->
      http_post submit_url (submit_payload email secret quiz_url answer) wk
      = (Ok response, w') ->
      status_code response = 200 ->
      json response = Ok (JsonDict result) ->
      exists r,
        _submit_answer email secret submit_url quiz_url answer max_retries w = (Ok r, w')
        /\ r !! "correct" = Some (dict_get_default result "correct" (PBool false))
        /\ (forall v, result !! "correct" = Some v -> r !! "correct" = Some v)
        /\ r !! "next_url" = Some (dict_get result "url")
        /\ r !! "reason" = Some (dict_get result "reason")
        /\ r !! "attempt" = Some (PInt (Z.of_nat k + 1))
        /\ r !! "url" = Some quiz_url
        /\ r !! "answer" = Some answer)
  /\ (forall (W DF J : Type) (C : Collaborators W DF J)
             (email secret submit_url : string) (quiz_url answer : pyval)
             (max_retries : Z) (k : nat) (w wk w1 : W) (response : http_response),
         failed_attempts submit_url (submit_payload email secret quiz_url answer)
                         max_retries k 0 w wk ->
         Z.of_nat k < max_retries ->
         http_post submit_url (submit_payload email secret quiz_url answer) wk
         = (Ok response, w1) ->
         status_code response = 200 ->
         (forall d, json response <> Ok (JsonDict d)) ->
         exists r w',
           _submit_answer email secret submit_url quiz_url answer max_retries w = (Ok r, w')
           /\ r !! "attempt" <> Some (PInt (Z.of_nat k + 1))
           /\ (Z.of_nat k + 1 = max_retries ->
               r = submit_failure quiz_url answer /\ w' = w1))
  /\ (exists r w',
        @_submit_answer _ _ _ (quiz_world 0) "me@example.com" "s3cret" submit1
          (PStr quiz1) (PInt 42) 3
          (script [reply 500 ∅; reply 503 ∅;
                   reply 200 {[ "correct" := PBool true; "url" := PStr "next" ]}])
        = (Ok r, w')
        /\ r !! "correct" = Some (PBool true)
        /\ r !! "next_url" = Some (PStr "next")
        /\ r !! "attempt" = Some (PInt 3)
        /\ post_count (sc_log w') = 3%nat
        /\ sc_replies w' = []).
Proof.
  split; [| split].
  - intros W DF J C email secret submit_url quiz_url answer max_retries k w wk w'
           response result Hfail Hk Hpost Hs Hb.
    exists (submit_result quiz_url answer result (Z.of_nat k)).
    split; [exact (submit_answer_ok _ _ _ _ _ _ _ _ _ _ _ _ Hfail Hk Hpost Hs Hb) |].
    destruct (submit_result_fields quiz_url answer result (Z.of_nat k))
      as (Hu & Ha & Hc & Hn & Hr & Hat & _).
    repeat split; try assumption.
    intros v Hv. rewrite Hc. unfold dict_get_default. now rewrite Hv.
  - intros W DF J C email secret submit_url quiz_url answer max_retries k w wk w1
           response Hbefore Hk Hpost Hs Hb.
    apply (submit_answer_attempt_fails _ _ _ _ _ _ k w wk w1 Hbefore Hk).
    exact (fails_body _ _ _ _ _ Hpost Hs Hb).
  - name_submit_run. repeat split; vm_compute; reflexivity.
Qed.

Lemma submit_returns_on_200_witness :
  exists r w',
    @_submit_answer _ _ _ (quiz_world 0) "me@example.com" "s3cret" submit1
      (PStr quiz1) (PInt 42) 3
      (script [Raise "timed out";
               reply 200 {[ "correct" := PBool false; "reason" := PStr "off by one" ]}])
    = (Ok r, w')
    /\ r !! "correct" = Some (PBool false)
    /\ r !! "next_url" = Some PNone
    /\ r !! "attempt" = Some (PInt 2).
Proof.
  destruct (proj1 submit_returns_on_200 Script unit unit (quiz_world 0)
              "me@example.com" "s3cret" submit1 (PStr quiz1) (PInt 42) 3 1%nat
              (script [Raise "timed out";
                       reply 200 {[ "correct" := PBool false;
                                    "reason" := PStr "off by one" ]}])
              _ _ _ {[ "correct" := PBool false; "reason" := PStr "off by one" ]}
              ltac:(eapply failed_more;
                      [eapply fails_transport; reflexivity | apply failed_none])
              ltac:(lia) eq_refl eq_refl eq_refl)
    as (r & Hr & Hc & _ & Hn & _ & Ha & _).
  exists r. eexists. split; [exact Hr |].
  split; [exact Hc | split; [exact Hn | exact Ha]].
Defined.

(** C6 as claimed fails: a POST that gets HTTP 200 does not return a
    result when the body cannot be read as a JSON object. Three such
    responses, one that is not JSON and two that are JSON but no object,
    are three failed attempts: three POSTs are made and the result is
    the failure result, without an attempt count. *)
Lemma submit_on_200_counterexample :
  exists r w',
    @_submit_answer _ _ _ (quiz_world 0) "me@example.com" "s3cret" submit1
      (PStr quiz1) (PInt 42) 3
      (script [Ok {| status_code := 200; json := Raise "Expecting value" |};
               Ok {| status_code := 200; json := Ok JsonOther |};
               Ok {| status_code := 200; json := Ok JsonOther |}])
    = (Ok r, w')
    /\ post_count (sc_log w') = 3%nat
    /\ sc_replies w' = []
    /\ r = submit_failure (PStr quiz1) (PInt 42)
    /\ r !! "attempt" = None
    /\ r !! "correct" = Some (PBool false).
Proof.
  name_submit_run. repeat split; vm_compute; reflexivity.
Qed.

(** C5, as the code has it. When all the attempts allowed fail,
    [_submit_answer] returns a result with correct false and the error
    text Failed to submit after retries; the result carries neither an
    attempt count nor a next URL, and the world is the one left by that
    many POSTs. With three attempts and an endpoint that always answers
    500, the result has correct false and an error text, and three POSTs
    were made. *)
Theorem submit_exhausted_reports_failure :
  (forall (W DF J : Type) (C : Collaborators W DF J)
          (email secret submit_url : string) (quiz_url answer : pyval)
          (max_retries : Z) (w w' : W),
      failed_attempts submit_url (submit_payload email secret quiz_url answer)
                      max_retries (Z.to_nat max_retries) 0 w w' ->
      exists r,
        _submit_answer email secret submit_url quiz_url answer max_retries w = (Ok r, w')
        /\ r !! "correct" = Some (PBool false)
        /\ r !! "error" = Some (PStr "Failed to submit after retries")
        /\ r !! "attempt" = None
        /\ r !! "next_url" = None
        /\ r !! "url" = Some quiz_url
        /\ r !! "answer" = Some answer)
  /\ (exists r w',
        @_submit_answer _ _ _ (quiz_world 0) "me@example.com" "s3cret" submit1
          (PStr quiz1) (PInt 42) 3
          (script [reply 500 ∅; reply 500 ∅; reply 500 ∅; reply 500 ∅])
        = (Ok r, w')
        /\ r !! "correct" = Some (PBool false)
        /\ (exists msg, r !! "error" = Some (PStr msg))
        /\ post_count (sc_log w') = 3%nat).
Proof.
  split.
  - intros W DF J C email secret submit_url quiz_url answer max_retries w w' Hfail.
    exists (submit_failure quiz_url answer).
    split; [exact (submit_answer_exhausted _ _ _ _ _ _ _ _ Hfail) |].
    destruct (submit_failure_fields quiz_url answer) as (Hu & Ha & Hc & He & Hat & Hn).
    repeat split; assumption.
  - name_submit_run. split; [vm_compute; reflexivity |].
    split; [vm_compute; reflexivity |].
    split; [exists "Failed to submit after retries" |]; vm_compute; reflexivity.
Qed.

Lemma submit_exhausted_reports_failure_witness :
  exists r w',
    @_submit_answer _ _ _ (quiz_world 0) "me@example.com" "s3cret" submit1
      (PStr quiz1) (PInt 42) 2
      (script [reply 502 ∅; Raise "connection reset"; reply 200 ∅])
    = (Ok r, w')
    /\ r !! "correct" = Some (PBool false)
    /\ r !! "error" = Some (PStr "Failed to submit after retries")
    /\ r !! "attempt" = None.
Proof.
  destruct (proj1 submit_exhausted_reports_failure Script unit unit (quiz_world 0)
              "me@example.com" "s3cret" submit1 (PStr quiz1) (PInt 42) 2
              (script [reply 502 ∅; Raise "connection reset"; reply 200 ∅]) _
              ltac:(eapply failed_more;
                      [eapply fails_status; [reflexivity | simpl; lia] |
                       eapply failed_more;
                         [eapply fails_transport; reflexivity | apply failed_none]]))
    as (r & Hr & Hc & He & Ha & _).
  exists r. eexists. split; [exact Hr |].
  split; [exact Hc | split; [exact He | exact Ha]].
Defined.

(** C5 as claimed fails on its own example: after three 500 responses
    the result has no attempt count, so it is not 3, and the error text
    is not submission failed after retries. *)
Lemma submit_exhausted_counterexample :
  exists r w',
    @_submit_answer _ _ _ (quiz_world 0) "me@example.com" "s3cret" submit1
      (PStr quiz1) (PInt 42) 3
      (script [reply 500 ∅; reply 500 ∅; reply 500 ∅])
    = (Ok r, w')
    /\ post_count (sc_log w') = 3%nat
    /\ r !! "correct" = Some (PBool false)
    /\ r !! "attempt" <> Some (PInt 3)
    /\ r !! "error" <> Some (PStr "submission failed after retries").
Proof.
  name_submit_run. split; [vm_compute; reflexivity |].
  split; [vm_compute; reflexivity |].
  split; [vm_compute; reflexivity |].
  split; vm_compute; discriminate.
Qed.

(* ===================================================================== *)
(** * One quiz page                                                       *)
(* ===================================================================== *)

Lemma step_error_fields (url : pyval) (e : string) :
  let r := step_error url e in
  r !! "url" = Some url
  /\ r !! "error" = Some (PStr e)
  /\ r !! "correct" = Some (PBool false)
  /\ r !! "next_url" = None
  /\ r !! "answer" = None.
Proof. unfold step_error. repeat split; by simplify_map_eq. Qed.

Lemma no_submit_result_fields (url answer : pyval) :
  let r := no_submit_result url answer in
  r !! "url" = Some url
  /\ r !! "answer" = Some answer
  /\ r !! "correct" = Some PNone
  /\ r !! "error" = Some (PStr "No submit URL found")
  /\ r !! "next_url" = None
  /\ r !! "attempt" = None.
Proof. unfold no_submit_result. repeat split; by simplify_map_eq. Qed.

Section SingleQuiz.

Context {W DF J : Type} {C : Collaborators W DF J}.
Variable email secret : string.

Lemma solve_single_quiz_raise (url : pyval) (e : string) (w w' : W) :
  single_quiz_try email secret url w = (Raise e, w') ->
  _solve_single_quiz email secret url w = (step_error url e, w').
Proof. intros H. unfold _solve_single_quiz. now rewrite H. Qed.

Lemma solve_single_quiz_ok (url : pyval) (r : gmap string pyval) (w w' : W) :
  single_quiz_try email secret url w = (Ok r, w') ->
  _solve_single_quiz email secret url w = (r, w').
Proof. intros H. unfold _solve_single_quiz. now rewrite H. Qed.

Lemma single_quiz_try_no_submit (url answer : pyval) (html text : string)
    (w wa wb wc : W) :
  browser_navigate url w = (Ok html, wa) ->
  browser_extract_text url wa = (Ok text, wb) ->
  _solve_question (_extract_question_info text html) wb = (Ok answer, wc) ->
  _extract_submit_url html = None ->
  single_quiz_try email secret url w = (Ok (no_submit_result url answer), wc).
Proof.
  intros Hn Ht Hs Hu. unfold single_quiz_try, bind.
  rewrite Hn, Ht, Hs. cbn [_extract_question_info qi_submit_url].
  rewrite Hu. reflexivity.
Qed.

Lemma submit_loop_some_url (submit_url : string) (quiz_url answer : pyval)
    (payload : gmap string pyval) (max_retries : Z) (n : nat) (attempt : Z)
    (w w' : W) (r : gmap string pyval) :
  submit_loop submit_url quiz_url answer payload max_retries n attempt w = (Some r, w') ->
  dict_get r "url" = quiz_url.
Proof.
  revert attempt w. induction n as [|n IH]; intros attempt w; cbn [submit_loop].
  - discriminate.
  - destruct (http_post submit_url payload w) as [[response|e] w1]; [| apply IH].
    destruct (status_code response =? 200); [| apply IH].
    destruct (json response) as [[d|]|e]; [| apply IH | apply IH].
    intros [= <- <-]. unfold dict_get, submit_result. by simplify_map_eq.
Qed.

Lemma submit_answer_url (submit_url : string) (quiz_url answer : pyval)
    (max_retries : Z) (w w' : W) (r : gmap string pyval) :
  _submit_answer email secret submit_url quiz_url answer max_retries w = (Ok r, w') ->
  dict_get r "url" = quiz_url.
Proof.
  unfold _submit_answer.
  destruct (submit_loop _ _ _ _ _ _ _ w) as [[r'|] w1] eqn:E; intros [= <- <-].
  - exact (submit_loop_some_url _ _ _ _ _ _ _ _ _ _ E).
  - unfold dict_get, submit_failure. by simplify_map_eq.
Qed.

(** Every result of a step is filed under the URL of the step. *)
Lemma solve_single_quiz_url (url : pyval) (r : gmap string pyval) (w w' : W) :
  _solve_single_quiz email secret url w = (r, w') -> dict_get r "url" = url.
Proof.
  unfold _solve_single_quiz.
  destruct (single_quiz_try email secret url w) as [[r'|e] w1] eqn:E; intros [= <- <-].
  - revert E. unfold single_quiz_try, bind.
    destruct (browser_navigate url w) as [[html|?] wa]; [| discriminate].
    destruct (browser_extract_text url wa) as [[text|?] wb]; [| discriminate].
    destruct (_solve_question _ wb) as [[answer|?] wc]; [| discriminate].
    destruct (opt_truthy _) as [su|].
    + apply submit_answer_url.
    + intros [= <- <-]. unfold dict_get, no_submit_result. by simplify_map_eq.
  - unfold dict_get, step_error. by simplify_map_eq.
Qed.

End SingleQuiz.

(* ===================================================================== *)
(** * Claims about the session                                            *)
(* ===================================================================== *)

(** C2. The time limit is looked at once per pass, at the top of the
    loop. When the clock read there is past the limit, no step is begun:
    the pass ends the loop with the results as they were, in the world
    left by the clock read, and the session returns success true with
    those results. When it is within the limit, the step runs to its end
    and its result is appended, whatever the clock shows by then. *)
Theorem deadline_ends_session :
  (forall (W DF J : Type) (C : Collaborators W DF J)
          (email secret initial_url : string) (w : W) (start_time : Z) (n : nat)
          (u : pyval) (rs : list (gmap string pyval)) (wk : W) (now : Z) (wk1 : W),
      session_at email secret initial_url w start_time n u rs wk ->
      truthy u = true ->
      clock_now wk = (now, wk1) ->
      now - start_time > max_time ->
      loop_body email secret start_time u rs wk = (rs, Break, wk1)
      /\ forall fuel, (n < fuel)%nat ->
           exists s w',
             solve_quiz email secret fuel initial_url w = Some (s, w')
             /\ success s = true
             /\ results s = rs
             /\ error s = None
             /\ w' = browser_close (clock_now wk1).2)
  /\ (forall (W DF J : Type) (C : Collaborators W DF J)
             (email secret : string) (start_time : Z)
             (u : pyval) (rs : list (gmap string pyval)) (w : W) (now : Z)
             (w1 : W) (r : gmap string pyval) (w2 : W),
         clock_now w = (now, w1) ->
         now - start_time <= max_time ->
         _solve_single_quiz email secret u w1 = (r, w2) ->
         loop_body email secret start_time u rs w
         = (rs ++ [r],
            if truthy (dict_get r "next_url") then Continue (dict_get r "next_url")
            else Break,
            w2)).
Proof.
  split.
  - intros W DF J C email secret initial_url w start_time n u rs wk now wk1
           Hat Hu Hclock Hlate.
    pose proof (loop_body_deadline email secret start_time u rs wk now wk1 Hclock Hlate)
      as Hbody.
    split; [exact Hbody |].
    intros fuel Hfuel.
    pose proof (session_finishes _ _ _ _ _ _ _ _ _ _ _ Hat Hu Hbody fuel Hfuel) as Hq.
    destruct (finished_summary start_time rs wk1) as (Hs & Hr & He & Hw).
    destruct (finished start_time rs wk1) as [s w'].
    exists s, w'. auto.
  - intros W DF J C email secret start_time u rs w now w1 r w2.
    apply loop_body_step.
Qed.

(** Two pages of 100 seconds each: the third pass finds the clock at 200
    seconds and ends the session with two results. *)
Lemma deadline_ends_session_witness :
  exists s w',
    @solve_quiz _ _ _ (quiz_world 100000000) "me@example.com" "s3cret" 3 quiz1
      (script [reply 200 {[ "correct" := PBool true; "url" := PStr quiz2 ]};
               reply 200 {[ "correct" := PBool true; "url" := PStr quiz3 ]};
               reply 200 {[ "correct" := PBool true ]}])
    = Some (s, w')
    /\ success s = true
    /\ length (results s) = 2%nat
    /\ navigated (sc_log w') = [PStr quiz1; PStr quiz2].
Proof.
  pose (replies := [reply 200 {[ "correct" := PBool true; "url" := PStr quiz2 ]};
                    reply 200 {[ "correct" := PBool true; "url" := PStr quiz3 ]};
                    reply 200 ({[ "correct" := PBool true ]} : gmap string pyval)]).
  pose (w1 := log_event EvStart 0 (script replies)).
  pose (p1 := @loop_body _ _ _ (quiz_world 100000000) "me@example.com" "s3cret" 0
                (PStr quiz1) [] w1).
  pose (p2 := @loop_body _ _ _ (quiz_world 100000000) "me@example.com" "s3cret" 0
                (PStr quiz2) p1.1.1 p1.2).
  assert (Hat : @session_at _ _ _ (quiz_world 100000000) "me@example.com" "s3cret" quiz1
                  (script replies) 0 2 (PStr quiz3) p2.1.1 p2.2).
  { exists (script replies), w1. split; [reflexivity |]. split; [reflexivity |].
    apply (reaches_next _ _ _ _ (PStr quiz1) (PStr quiz2) [] p1.1.1 w1 p1.2);
      [reflexivity | vm_compute; reflexivity |].
    apply (reaches_next _ _ _ _ (PStr quiz2) (PStr quiz3) p1.1.1 p2.1.1 p1.2 p2.2);
      [reflexivity | vm_compute; reflexivity |].
    apply reaches_here. }
  destruct (proj1 deadline_ends_session Script unit unit (quiz_world 100000000)
              "me@example.com" "s3cret" quiz1 (script replies) 0 2%nat
              (PStr quiz3) p2.1.1 p2.2 (sc_clock p2.2) p2.2 Hat eq_refl eq_refl
              ltac:(vm_compute; reflexivity))
    as [_ Hrun].
  destruct (Hrun 3%nat ltac:(lia)) as (s & w' & Hq & Hs & Hr & _ & Hw).
  exists s, w'. split; [exact Hq |].
  split; [exact Hs |]. split; [rewrite Hr; vm_compute; reflexivity |].
  rewrite Hw. vm_compute. reflexivity.
Defined.

Section StepFailures.

Context {W DF J : Type} {C : Collaborators W DF J}.
Variable email secret : string.

Lemma single_quiz_try_navigate_raises (url : pyval) (e : string) (w w' : W) :
  browser_navigate url w = (Raise e, w') ->
  single_quiz_try email secret url w = (Raise e, w').
Proof. intros H. unfold single_quiz_try, bind. now rewrite H. Qed.

Lemma single_quiz_try_extract_raises (url : pyval) (html e : string) (w wa w' : W) :
  browser_navigate url w = (Ok html, wa) ->
  browser_extract_text url wa = (Raise e, w') ->
  single_quiz_try email secret url w = (Raise e, w').
Proof. intros H1 H2. unfold single_quiz_try, bind. now rewrite H1, H2. Qed.

Lemma single_quiz_try_solve_raises (url : pyval) (html text e : string)
    (w wa wb w' : W) :
  browser_navigate url w = (Ok html, wa) ->
  browser_extract_text url wa = (Ok text, wb) ->
  _solve_question (_extract_question_info text html) wb = (Raise e, w') ->
  single_quiz_try email secret url w = (Raise e, w').
Proof. intros H1 H2 H3. unfold single_quiz_try, bind. now rewrite H1, H2, H3. Qed.

(** The summary says success false only when the browser did not start,
    and then there are no results. *)
Lemma solve_quiz_failure (fuel : nat) (initial_url : string) (w : W)
    (s : Summary) (w' : W) :
  solve_quiz email secret fuel initial_url w = Some (s, w') ->
  success s = false ->
  results s = []
  /\ exists e w1, browser_start (clock_now w).2 = (Raise e, w1) /\ error s = Some e.
Proof.
  unfold solve_quiz. destruct (clock_now w) as [t0 w0]. simpl.
  destruct (browser_start w0) as [[[]|e] w1].
  - destruct (quiz_loop _ _ _ _ _ _ _) as [[rs w2]|]; [| discriminate].
    destruct (clock_now w2). intros [= <- <-]. discriminate.
  - intros [= <- <-] _. simpl. eauto.
Qed.

End StepFailures.

(** C1, as the code has it. When a step raises (loading the page,
    reading its text or producing the answer; the other parts of a step
    do not raise), [_solve_single_quiz] turns the exception into a result
    for the current URL with the error text and correct false; the loop
    appends it and stops, and the session returns success true with the
    earlier results followed by that one. The summary says success false
    only when the browser failed to start, with no results. *)
Theorem step_failure_recorded :
  (forall (W DF J : Type) (C : Collaborators W DF J)
          (email secret initial_url : string) (w : W) (start_time : Z) (n : nat)
          (u : pyval) (rs : list (gmap string pyval)) (wk : W) (now : Z)
          (wk1 wk2 : W) (e : string),
      session_at email secret initial_url w start_time n u rs wk ->
      truthy u = true ->
      clock_now wk = (now, wk1) ->
      now - start_time <= max_time ->
      single_quiz_try email secret u wk1 = (Raise e, wk2) ->
      exists r,
        loop_body email secret start_time u rs wk = (rs ++ [r], Break, wk2)
        /\ r !! "url" = Some u
        /\ r !! "error" = Some (PStr e)
        /\ r !! "correct" = Some (PBool false)
        /\ forall fuel, (n < fuel)%nat ->
             exists s w',
               solve_quiz email secret fuel initial_url w = Some (s, w')
               /\ success s = true
               /\ results s = rs ++ [r]
               /\ error s = None)
  /\ (forall (W DF J : Type) (C : Collaborators W DF J)
             (email secret : string) (u : pyval) (e : string) (w w' : W),
         (browser_navigate u w = (Raise e, w')
          \/ (exists html wa,
                 browser_navigate u w = (Ok html, wa)
                 /\ browser_extract_text u wa = (Raise e, w'))
          \/ (exists html text wa wb,
                 browser_navigate u w = (Ok html, wa)
                 /\ browser_extract_text u wa = (Ok text, wb)
                 /\ _solve_question (_extract_question_info text html) wb = (Raise e, w'))) ->
         single_quiz_try email secret u w = (Raise e, w'))
  /\ (forall (W DF J : Type) (C : Collaborators W DF J)
             (email secret : string) (fuel : nat) (initial_url : string) (w : W)
             (s : Summary) (w' : W),
         solve_quiz email secret fuel initial_url w = Some (s, w') ->
         success s = false ->
         results s = []
         /\ exists e w1, browser_start (clock_now w).2 = (Raise e, w1) /\ error s = Some e).
Proof.
  split; [| split].
  - intros W DF J C email secret initial_url w start_time n u rs wk now wk1 wk2 e
           Hat Hu Hclock Hin Hraise.
    pose proof (solve_single_quiz_raise email secret u e wk1 wk2 Hraise) as Hstep.
    pose proof (loop_body_step email secret start_time u rs wk now wk1 _ wk2
                  Hclock Hin Hstep) as Hbody.
    destruct (step_error_fields u e) as (Hurl & Herr & Hcor & Hnext & _).
    assert (Hn : truthy (dict_get (step_error u e) "next_url") = false).
    { unfold dict_get. now rewrite Hnext. }
    rewrite Hn in Hbody.
    exists (step_error u e). repeat split; try assumption.
    intros fuel Hfuel.
    pose proof (session_finishes _ _ _ _ _ _ _ _ _ _ _ Hat Hu Hbody fuel Hfuel) as Hq.
    destruct (finished_summary start_time (rs ++ [step_error u e]) wk2)
      as (Hs & Hr & He & _).
    destruct (finished start_time (rs ++ [step_error u e]) wk2) as [s w'].
    exists s, w'. auto.
  - intros W DF J C email secret u e w w'
           [H | [(html & wa & H1 & H2) | (html & text & wa & wb & H1 & H2 & H3)]].
    + now apply single_quiz_try_navigate_raises.
    + now apply (single_quiz_try_extract_raises _ _ _ html _ _ wa).
    + now apply (single_quiz_try_solve_raises _ _ _ html text _ _ wa wb).
  - intros W DF J C email secret fuel initial_url w s w'. apply solve_quiz_failure.
Qed.

(** The first page cannot be loaded: the failure is recorded and the
    session reports success. *)
Lemma step_failure_recorded_witness :
  exists s w',
    @solve_quiz _ _ _ offline_world "me@example.com" "s3cret" 1 quiz1 (script [])
    = Some (s, w')
    /\ success s = true
    /\ results s = [step_error (PStr quiz1) "net::ERR_CONNECTION_REFUSED"].
Proof.
  destruct (proj1 step_failure_recorded Script unit unit offline_world
              "me@example.com" "s3cret" quiz1 (script []) 0 0%nat (PStr quiz1) []
              (log_event EvStart 0 (script [])) 0 _ _ "net::ERR_CONNECTION_REFUSED"
              ltac:(eexists _, _; split; [reflexivity |]; split; [reflexivity |];
                    apply reaches_here)
              eq_refl eq_refl ltac:(vm_compute; discriminate) eq_refl)
    as (r & _ & _ & _ & _ & Hrun).
  destruct (Hrun 1%nat ltac:(lia)) as (s & w' & Hq & Hs & _).
  exists s, w'. split; [exact Hq |]. split; [exact Hs |].
  pin_session_run Hq. vm_compute. reflexivity.
Defined.

(** C1 as claimed fails: the first page cannot be loaded, the step
    raises, and the summary still says success true. *)
Lemma step_failure_counterexample :
  (exists w',
      @single_quiz_try _ _ _ offline_world "me@example.com" "s3cret" (PStr quiz1)
        (log_event EvStart 0 (script []))
      = (Raise "net::ERR_CONNECTION_REFUSED", w'))
  /\ exists s w',
      @solve_quiz _ _ _ offline_world "me@example.com" "s3cret" 1 quiz1 (script [])
      = Some (s, w')
      /\ results s = [step_error (PStr quiz1) "net::ERR_CONNECTION_REFUSED"]
      /\ success s <> false.
Proof.
  split.
  - eexists. reflexivity.
  - name_session_run. split; [vm_compute; reflexivity |].
    split; [vm_compute; reflexivity | discriminate].
Qed.

(** C7, as the code has it. When a step has loaded its page and produced
    an answer, and the page names no submit URL, the step's result has
    correct None and the error text No submit URL found; the loop appends
    it and stops, and the session returns with that result last, so no
    further page is loaded. *)
Theorem no_submit_stops_session
    (W DF J : Type) (C : Collaborators W DF J)
    (email secret initial_url : string) (w : W) (start_time : Z) (n : nat)
    (u : pyval) (rs : list (gmap string pyval)) (wk : W) (now : Z)
    (wk1 wa wb wc : W) (html text : string) (answer : pyval) :
  session_at email secret initial_url w start_time n u rs wk ->
  truthy u = true ->
  clock_now wk = (now, wk1) ->
  now - start_time <= max_time ->
  browser_navigate u wk1 = (Ok html, wa) ->
  browser_extract_text u wa = (Ok text, wb) ->
  _solve_question (_extract_question_info text html) wb = (Ok answer, wc) ->
  _extract_submit_url html = None ->
  exists r,
    loop_body email secret start_time u rs wk = (rs ++ [r], Break, wc)
    /\ r !! "url" = Some u
    /\ r !! "answer" = Some answer
    /\ r !! "correct" = Some PNone
    /\ r !! "error" = Some (PStr "No submit URL found")
    /\ forall fuel, (n < fuel)%nat ->
         exists s w',
           solve_quiz email secret fuel initial_url w = Some (s, w')
           /\ success s = true
           /\ results s = rs ++ [r]
           /\ w' = browser_close (clock_now wc).2.
Proof.
  intros Hat Hu Hclock Hin Hnav Htext Hsolve Hnone.
  pose proof (single_quiz_try_no_submit email secret u answer html text
                wk1 wa wb wc Hnav Htext Hsolve Hnone) as Htry.
  pose proof (solve_single_quiz_ok email secret u _ wk1 wc Htry) as Hstep.
  pose proof (loop_body_step email secret start_time u rs wk now wk1 _ wc
                Hclock Hin Hstep) as Hbody.
  destruct (no_submit_result_fields u answer) as (Hurl & Hans & Hcor & Herr & Hnext & _).
  assert (Hn : truthy (dict_get (no_submit_result u answer) "next_url") = false).
  { unfold dict_get. now rewrite Hnext. }
  rewrite Hn in Hbody.
  exists (no_submit_result u answer). repeat split; try assumption.
  intros fuel Hfuel.
  pose proof (session_finishes _ _ _ _ _ _ _ _ _ _ _ Hat Hu Hbody fuel Hfuel) as Hq.
  destruct (finished_summary start_time (rs ++ [no_submit_result u answer]) wc)
    as (Hs & Hr & _ & Hw).
  destruct (finished start_time (rs ++ [no_submit_result u answer]) wc) as [s w'].
  exists s, w'. auto.
Qed.

Lemma no_submit_stops_session_witness :
  exists s w',
    @solve_quiz _ _ _ bare_world "me@example.com" "s3cret" 1 quiz1
      (script [reply 200 {[ "correct" := PBool true; "url" := PStr quiz2 ]}])
    = Some (s, w')
    /\ results s = [no_submit_result (PStr quiz1) (PInt 42)]
    /\ navigated (sc_log w') = [PStr quiz1]
    /\ post_count (sc_log w') = 0%nat.
Proof.
  pose (replies := [reply 200 {[ "correct" := PBool true; "url" := PStr quiz2 ]}]).
  pose (wk := log_event EvStart 0 (script replies)).
  pose (wa := log_event (EvNavigate (PStr quiz1)) 0 wk).
  pose (wb := log_event (EvExtractText (PStr quiz1)) 0 wa).
  pose (wc := log_event (EvAsk page_text) 0 wb).
  destruct (no_submit_stops_session Script unit unit bare_world
              "me@example.com" "s3cret" quiz1 (script replies) 0 0%nat (PStr quiz1) []
              wk 0 wk wa wb wc
              "<html><body><p>What is 6 times 7?</p></body></html>" page_text (PInt 42)
              ltac:(exists (script replies), wk; split; [reflexivity |];
                    split; [reflexivity |]; apply reaches_here)
              eq_refl eq_refl ltac:(vm_compute; discriminate)
              eq_refl eq_refl ltac:(vm_compute; reflexivity)
              ltac:(vm_compute; reflexivity))
    as (r & _ & _ & _ & _ & _ & Hrun).
  destruct (Hrun 1%nat ltac:(lia)) as (s & w' & Hq & _ & _ & _).
  exists s, w'. split; [exact Hq |].
  pin_session_run Hq. repeat split; vm_compute; reflexivity.
Defined.

(** C7 as claimed fails: the result of a step without a submit URL
    carries the text No submit URL found, not no submit target. *)
Lemma no_submit_counterexample :
  exists s w' r,
    @solve_quiz _ _ _ bare_world "me@example.com" "s3cret" 1 quiz1 (script [])
    = Some (s, w')
    /\ _extract_submit_url "<html><body><p>What is 6 times 7?</p></body></html>" = None
    /\ results s = [r]
    /\ r !! "correct" = Some PNone
    /\ r !! "error" <> Some (PStr "no submit target").
Proof.
  pose (run := @solve_quiz _ _ _ bare_world "me@example.com" "s3cret" 1 quiz1 (script [])).
  exists (returned run).1, (returned run).2, (no_submit_result (PStr quiz1) (PInt 42)).
  split; [vm_compute; reflexivity |].
  split; [vm_compute; reflexivity |].
  split; [vm_compute; reflexivity |].
  split; [vm_compute; reflexivity | vm_compute; discriminate].
Qed.

(* ===================================================================== *)
(** * Claims about answer production                                      *)
(* ===================================================================== *)

Lemma general_raises_in_llm {W DF J : Type} {C : Collaborators W DF J}
    (question_info : QuestionInfo) (e : string) (w w' : W) :
  _solve_general_question question_info w = (Raise e, w') ->
  llm_solve_question (qi_text question_info) None w = (Raise e, w').
Proof.
  unfold _solve_general_question, bind, ret.
  destruct (llm_solve_question _ None w) as [[a|e'] w1]; [discriminate |].
  intros [= -> ->]. reflexivity.
Qed.

(** C8. An exception raised by the path chosen for the question's kind
    is caught in [_solve_question], which then runs the general path from
    the world the failed path left. What [_solve_question] raises is
    therefore always what the model call of that general path raised: a
    failure of a kind-specific path never reaches the caller. *)
Theorem kind_failure_falls_back
    (W DF J : Type) (C : Collaborators W DF J) (question_info : QuestionInfo) (w : W) :
  (forall e w1,
      solve_by_type question_info w = (Raise e, w1) ->
      _solve_question question_info w = _solve_general_question question_info w1)
  /\ (forall e w1,
         (qi_type question_info = file_download
          /\ _solve_file_question question_info w = (Raise e, w1))
         \/ (qi_type question_info = api_fetch
             /\ _solve_api_question question_info w = (Raise e, w1))
         \/ (qi_type question_info = pdf_analysis
             /\ _solve_pdf_question question_info w = (Raise e, w1))
         \/ (qi_type question_info = data_analysis
             /\ _solve_data_analysis_question question_info w = (Raise e, w1))
         \/ (qi_type question_info = visualization
             /\ _solve_visualization_question question_info w = (Raise e, w1)) ->
         _solve_question question_info w = _solve_general_question question_info w1)
  /\ (forall a w1,
         solve_by_type question_info w = (Ok a, w1) ->
         _solve_question question_info w = (Ok a, w1))
  /\ (forall e w',
         _solve_question question_info w = (Raise e, w') ->
         exists e0 w1,
           solve_by_type question_info w = (Raise e0, w1)
           /\ _solve_general_question question_info w1 = (Raise e, w')
           /\ llm_solve_question (qi_text question_info) None w1 = (Raise e, w')).
Proof.
  assert (Hcatch : forall e w1,
             solve_by_type question_info w = (Raise e, w1) ->
             _solve_question question_info w = _solve_general_question question_info w1).
  { intros e w1 H. unfold _solve_question, try_except. now rewrite H. }
  split; [exact Hcatch |]. split; [| split].
  - intros e w1 H. apply (Hcatch e). unfold solve_by_type.
    destruct H as [[-> H] | [[-> H] | [[-> H] | [[-> H] | [-> H]]]]]; exact H.
  - intros a w1 H. unfold _solve_question, try_except. now rewrite H.
  - intros e w' H. unfold _solve_question, try_except in H.
    destruct (solve_by_type question_info w) as [[a|e0] w1] eqn:E; [discriminate |].
    exists e0, w1. split; [reflexivity |]. split; [exact H |].
    now apply general_raises_in_llm.
Qed.

(** The file cannot be downloaded; the question is answered by the
    general path all the same. *)
Lemma kind_failure_falls_back_witness :
  qi_type (_extract_question_info file_text page_html) = file_download
  /\ (@_solve_question _ _ _ file_world (_extract_question_info file_text page_html)
        (script [])).1
     = Ok (PInt 42).
Proof.
  split; [vm_compute; reflexivity |].
  rewrite (proj1 (kind_failure_falls_back Script unit unit file_world
                    (_extract_question_info file_text page_html) (script []))
             "no files" (script []) ltac:(vm_compute; reflexivity)).
  vm_compute. reflexivity.
Defined.

(* ===================================================================== *)
(** * Which pages a session visits                                        *)
(* ===================================================================== *)

Lemma chain_to_chained (u0 u : pyval) (rs : list (gmap string pyval)) :
  chain_to u0 rs u -> chained u0 rs.
Proof.
  revert u0. induction rs as [|r rest IH]; intros u0; simpl; [auto |].
  intros (Hurl & Hnext & Hrest). split; [exact Hurl |].
  right. split; [exact Hnext | now apply IH].
Qed.

Lemma chain_to_snoc (u0 u : pyval) (rs : list (gmap string pyval))
    (r : gmap string pyval) :
  chain_to u0 rs u ->
  dict_get r "url" = u ->
  truthy (dict_get r "next_url") = true ->
  chain_to u0 (rs ++ [r]) (dict_get r "next_url").
Proof.
  revert u0. induction rs as [|r0 rest IH]; intros u0; simpl.
  - intros -> Hurl Hnext. auto.
  - intros (Hurl0 & Hnext0 & Hrest) Hurl Hnext. auto.
Qed.

Lemma chain_to_snoc_chained (u0 u : pyval) (rs : list (gmap string pyval))
    (r : gmap string pyval) :
  chain_to u0 rs u ->
  dict_get r "url" = u ->
  chained u0 (rs ++ [r]).
Proof.
  revert u0. induction rs as [|r0 rest IH]; intros u0; simpl.
  - intros -> Hurl. auto.
  - intros (Hurl0 & Hnext0 & Hrest) Hurl. split; [exact Hurl0 |].
    right. split; [exact Hnext0 | now apply IH].
Qed.

Lemma quiz_loop_chained {W DF J : Type} {C : Collaborators W DF J}
    (email secret : string) (u0 : pyval) (fuel : nat) (start_time : Z) (u : pyval)
    (rs rs' : list (gmap string pyval)) (w w' : W) :
  quiz_loop email secret fuel start_time u rs w = Some (rs', w') ->
  chain_to u0 rs u ->
  chained u0 rs'.
Proof.
  revert u rs w. induction fuel as [|fuel IH]; intros u rs w; simpl.
  - destruct (truthy u); [discriminate |]. intros [= <- <-]. apply chain_to_chained.
  - destruct (truthy u); [| intros [= <- <-]; apply chain_to_chained].
    unfold loop_body. destruct (clock_now w) as [now w1].
    destruct (now - start_time >? max_time).
    + intros [= <- <-]. apply chain_to_chained.
    + destruct (_solve_single_quiz email secret u w1) as [r w2] eqn:Hstep.
      pose proof (solve_single_quiz_url _ _ _ _ _ _ Hstep) as Hurl.
      destruct (truthy (dict_get r "correct")),
               (truthy (dict_get r "next_url")) eqn:Hnext; cbn [negb].
      * intros H Hchain. apply (IH _ _ _ H). now apply (chain_to_snoc _ u).
      * intros [= <- <-] Hchain. now apply (chain_to_snoc_chained _ u).
      * intros H Hchain. apply (IH _ _ _ H). now apply (chain_to_snoc _ u).
      * intros [= <- <-] Hchain. now apply (chain_to_snoc_chained _ u).
Qed.

(** ** What a step leaves untouched *)

Section Footprint.

Context {W DF J : Type} {C : Collaborators W DF J} {A : Type}.
Variable obs : W -> A.
Hypothesis Hkept : kept_but_by_navigate obs.
Variable email secret : string.

Lemma keeps_ret {B : Type} (b : B) : keeps obs (ret b).
Proof. intros w. reflexivity. Qed.

Lemma keeps_lift {B : Type} (r : res B) : keeps obs (lift r).
Proof. intros w. reflexivity. Qed.

Lemma keeps_bind {B B' : Type} (c : M W B) (k : B -> M W B') :
  keeps obs c -> (forall b, keeps obs (k b)) -> keeps obs (bind c k).
Proof.
  intros Hc Hk w. unfold bind. specialize (Hc w).
  destruct (c w) as [[b|e] w1]; cbn [snd] in *; [now rewrite Hk | exact Hc].
Qed.

Lemma keeps_try_except {B : Type} (c : M W B) (h : string -> M W B) :
  keeps obs c -> (forall e, keeps obs (h e)) -> keeps obs (try_except c h).
Proof.
  intros Hc Hh w. unfold try_except. specialize (Hc w).
  destruct (c w) as [[b|e] w1]; cbn [snd] in *; [exact Hc | now rewrite Hh].
Qed.

Lemma keeps_llm (question : string) (context : option (llm_context J)) :
  keeps obs (llm_solve_question question context).
Proof. apply Hkept. Qed.

Lemma keeps_download (url : string) : keeps obs (download_file url).
Proof. apply Hkept. Qed.

Lemma keeps_fetch (url : string) : keeps obs (fetch_api_data url).
Proof. apply Hkept. Qed.

(** Break a computation into its calls. *)
Ltac keeps_step :=
  first
    [ apply keeps_ret | apply keeps_lift | apply keeps_llm | apply keeps_download
    | apply keeps_fetch
    | apply keeps_bind; [| intros ?]
    | match goal with
      | |- keeps _ (if ?b then _ else _) => destruct b
      | |- keeps _ (match ?x with _ => _ end) => destruct x
      end ].

Lemma keeps_general (question_info : QuestionInfo) :
  keeps obs (_solve_general_question question_info).
Proof. unfold _solve_general_question. cbv zeta. repeat keeps_step. Qed.

Lemma keeps_analyze (df : DF) (question_text : string) :
  keeps obs (_analyze_dataframe_question df question_text).
Proof.
  unfold _analyze_dataframe_question, analyze_with_llm. cbv zeta. repeat keeps_step.
Qed.

Lemma keeps_file (question_info : QuestionInfo) :
  keeps obs (_solve_file_question question_info).
Proof.
  unfold _solve_file_question. cbv zeta.
  repeat first [apply keeps_general | apply keeps_analyze | keeps_step].
Qed.

Lemma keeps_api (question_info : QuestionInfo) :
  keeps obs (_solve_api_question question_info).
Proof.
  unfold _solve_api_question. cbv zeta. repeat first [apply keeps_general | keeps_step].
Qed.

Lemma keeps_data_analysis (question_info : QuestionInfo) :
  keeps obs (_solve_data_analysis_question question_info).
Proof.
  unfold _solve_data_analysis_question. cbv zeta.
  repeat first [apply keeps_general | apply keeps_analyze | keeps_step].
Qed.

(** Solving a question loads no page. *)
Lemma keeps_solve_question (question_info : QuestionInfo) :
  keeps obs (_solve_question question_info).
Proof.
  unfold _solve_question. apply keeps_try_except; [| intros e; apply keeps_general].
  unfold solve_by_type, _solve_pdf_question, _solve_visualization_question.
  destruct (qi_type question_info);
    repeat first [apply keeps_general | apply keeps_file | apply keeps_api
                 | apply keeps_data_analysis | keeps_step].
Qed.

Lemma keeps_submit_loop (submit_url : string) (quiz_url answer : pyval)
    (payload : gmap string pyval) (max_retries : Z) (remaining : nat) (attempt : Z) (w : W) :
  obs (submit_loop submit_url quiz_url answer payload max_retries remaining attempt w).2
  = obs w.
Proof.
  revert attempt w. induction remaining as [|n IH]; intros attempt w; [reflexivity |].
  cbn [submit_loop].
  assert (Hpost : obs (http_post submit_url payload w).2 = obs w) by apply Hkept.
  assert (Hretry : forall w1, obs w1 = obs w ->
             obs (submit_loop submit_url quiz_url answer payload max_retries n (attempt + 1)
                              (backoff attempt max_retries w1)).2 = obs w).
  { intros w1 H1. rewrite IH. unfold backoff.
    destruct (attempt <? max_retries - 1); [| exact H1].
    destruct Hkept as (_ & Hsleep & _). now rewrite Hsleep. }
  destruct (http_post submit_url payload w) as [[response|e] w1]; cbn [snd] in Hpost;
    [| now apply Hretry].
  destruct (status_code response =? 200); [| now apply Hretry].
  destruct (json response) as [[d|]|e]; [exact Hpost | |]; now apply Hretry.
Qed.

(** Submitting an answer loads no page. *)
Lemma keeps_submit (submit_url : string) (quiz_url answer : pyval) (max_retries : Z) :
  keeps obs (_submit_answer email secret submit_url quiz_url answer max_retries).
Proof.
  intros w. unfold _submit_answer.
  pose proof (keeps_submit_loop submit_url quiz_url answer
                (submit_payload email secret quiz_url answer) max_retries
                (Z.to_nat max_retries) 0 w) as H.
  unfold submit_payload in H.
  destruct (submit_loop _ _ _ _ _ _ _ w) as [[r|] w']; exact H.
Qed.

(** Of a step, only its page load shows. *)
Lemma solve_single_quiz_footprint (url : pyval) (w : W) :
  obs (_solve_single_quiz email secret url w).2 = obs (browser_navigate url w).2.
Proof.
  unfold _solve_single_quiz, single_quiz_try, bind.
  destruct (browser_navigate url w) as [[html|e] wa]; [| reflexivity].
  assert (Htext : obs (browser_extract_text url wa).2 = obs wa) by apply Hkept.
  destruct (browser_extract_text url wa) as [[text|e] wb]; cbn [snd] in *; [| exact Htext].
  pose proof (keeps_solve_question (_extract_question_info text html) wb) as Hsolve.
  destruct (_solve_question _ wb) as [[answer|e] wc]; cbn [snd] in *; [| congruence].
  destruct (opt_truthy _) as [su|].
  - pose proof (keeps_submit su url answer 3 wc) as Hsub.
    destruct (_submit_answer _ _ _ _ _ _ wc) as [[r|e] wd]; cbn [snd] in *; congruence.
  - cbn. congruence.
Qed.

End Footprint.

Section Visits.

Context {W DF J : Type} {C : Collaborators W DF J}.
Variable visited : W -> list pyval.
Hypothesis Hrecords : records_visits visited.
Variable email secret : string.

(** A step loads its page, once, and no other. *)
Lemma step_visit (u : pyval) (w : W) :
  visited (_solve_single_quiz email secret u w).2 = visited w ++ [u].
Proof.
  destruct Hrecords as [Hnav Hkept].
  rewrite (solve_single_quiz_footprint visited Hkept). apply Hnav.
Qed.

Lemma quiz_loop_visits (fuel : nat) (start_time : Z) (u : pyval)
    (rs rs' : list (gmap string pyval)) (w w' : W) :
  quiz_loop email secret fuel start_time u rs w = Some (rs', w') ->
  exists added,
    rs' = rs ++ added
    /\ visited w' = visited w ++ map (fun r => dict_get r "url") added.
Proof.
  assert (Hstop : forall w0, visited w0 = visited w ->
             exists added, rs = rs ++ added
                           /\ visited w0 = visited w ++ map (fun r => dict_get r "url") added).
  { intros w0 H0. exists []. cbn. now rewrite !app_nil_r. }
  revert u rs w Hstop. induction fuel as [|fuel IH]; intros u rs w Hstop; simpl.
  - destruct (truthy u); [discriminate |]. intros [= <- <-]. now apply Hstop.
  - destruct (truthy u); [| intros [= <- <-]; now apply Hstop].
    unfold loop_body.
    assert (Hclock : visited (clock_now w).2 = visited w) by apply Hrecords.
    destruct (clock_now w) as [now w1]. cbn [snd] in Hclock.
    destruct (now - start_time >? max_time); [intros [= <- <-]; now apply Hstop |].
    pose proof (step_visit u w1) as Hvisit.
    destruct (_solve_single_quiz email secret u w1) as [r w2] eqn:Hstep.
    cbn [snd] in Hvisit. rewrite Hclock in Hvisit.
    pose proof (solve_single_quiz_url _ _ _ _ _ _ Hstep) as Hurl.
    assert (Hone : exists added, rs ++ [r] = rs ++ added
                     /\ visited w2 = visited w ++ map (fun r => dict_get r "url") added).
    { exists [r]. cbn. now rewrite Hurl. }
    assert (Hmore : forall next,
               quiz_loop email secret fuel start_time next (rs ++ [r]) w2 = Some (rs', w') ->
               exists added, rs' = rs ++ added
                 /\ visited w' = visited w ++ map (fun r => dict_get r "url") added).
    { intros next H. apply IH in H.
      - destruct H as (added & -> & Hv). exists (r :: added). cbn.
        rewrite <- app_assoc, Hv, Hvisit, Hurl, <- app_assoc. auto.
      - intros w0 H0. exists []. cbn. now rewrite !app_nil_r. }
    destruct (truthy (dict_get r "correct")), (truthy (dict_get r "next_url"));
      cbn [negb]; first [apply Hmore | intros [= <- <-]; exact Hone].
Qed.

Lemma loop_reaches_quiz_loop (start_time : Z) (n : nat)
    (s s' : pyval * list (gmap string pyval) * W) :
  loop_reaches email secret start_time n s s' ->
  forall fuel out,
    quiz_loop email secret fuel start_time s.1.1 s.1.2 s.2 = Some out ->
    exists fuel', quiz_loop email secret fuel' start_time s'.1.1 s'.1.2 s'.2 = Some out.
Proof.
  induction 1 as [s | n u u' rs rs' w w' s Hu Hbody _ IH]; intros fuel out H.
  - now exists fuel.
  - cbn [fst snd] in H. destruct fuel as [|fuel]; simpl in H; rewrite Hu in H;
      [discriminate |].
    rewrite Hbody in H. exact (IH _ _ H).
Qed.

(** A URL that the loop arrives at within the time limit is visited, and
    the result of the visit is in what the loop returns. *)
Lemma reached_url_visited (start_time : Z) (n : nat) (u0 u : pyval)
    (rs rs' : list (gmap string pyval)) (w1 wk w' : W) (fuel : nat) :
  loop_reaches email secret start_time n (u0, [], w1) (u, rs, wk) ->
  quiz_loop email secret fuel start_time u0 [] w1 = Some (rs', w') ->
  truthy u = true ->
  (clock_now wk).1 - start_time <= max_time ->
  exists rest,
    rs' = rs ++ (_solve_single_quiz email secret u (clock_now wk).2).1 :: rest.
Proof.
  intros Hreach Hloop Hu Hin.
  destruct (loop_reaches_quiz_loop _ _ _ _ Hreach _ _ Hloop) as [fuel' H].
  cbn [fst snd] in H. destruct fuel' as [|fuel']; simpl in H; rewrite Hu in H;
    [discriminate |].
  destruct (clock_now wk) as [now wk1] eqn:Hclock. cbn [fst snd] in *.
  destruct (_solve_single_quiz email secret u wk1) as [r w2] eqn:Hstep. cbn [fst].
  rewrite (loop_body_step _ _ _ _ _ _ _ _ _ _ Hclock Hin Hstep) in H.
  destruct (truthy (dict_get r "next_url")).
  - destruct (quiz_loop_visits _ _ _ _ _ _ _ H) as (added & -> & _).
    exists added. now rewrite <- app_assoc.
  - injection H as <- <-. now exists [].
Qed.

End Visits.

(** In a scripted world the log is a record of the pages loaded. *)
Lemma scripted_records_visits (html_of text_of : pyval -> res string)
    (llm_reply : res string) (latency : Z) (encodes : gmap string pyval -> bool) :
  @records_visits _ _ _ (scripted html_of text_of llm_reply latency encodes)
    (fun w => navigated (sc_log w)).
Proof.
  assert (Hlog : forall ev cost w,
             navigated (sc_log (log_event ev cost w))
             = navigated (sc_log w)
               ++ match ev with EvNavigate u => [u] | _ => [] end).
  { intros ev cost w. unfold navigated, log_event. cbn [sc_log].
    rewrite omap_app. now destruct ev. }
  split; [| repeat split]; unfold keeps; intros;
    try (cbn -[navigated log_event]; rewrite ?Hlog, ?app_nil_r; reflexivity).
  cbn -[navigated log_event]. destruct (encodes payload); [| reflexivity].
  destruct (sc_replies w); cbn -[navigated log_event]; [now rewrite Hlog, app_nil_r |].
  unfold navigated. cbn [sc_log]. now rewrite omap_app, app_nil_r.
Qed.




(* ===================================================================== *)
(** * A 200 response that lacks fields                                    *)
(* ===================================================================== *)

(** C10. When the POST that gets HTTP 200 has a JSON object body without
    a correct entry, the result has correct false; when the body has no
    url entry either, the result's next URL is None. [_submit_answer]
    raises on no input, and a session whose step ends with such a result
    stops after it and returns success true. *)
Theorem submit_200_missing_fields :
  (forall (W DF J : Type) (C : Collaborators W DF J)
          (email secret submit_url : string) (quiz_url answer : pyval)
          (max_retries : Z) (k : nat) (w wk w' : W)
          (response : http_response) (result : gmap string pyval),
      failed_attempts submit_url (submit_payload email secret quiz_url answer)
                      max_retries k 0 w wk ->
      Z.of_nat k < max_retries ->
      http_post submit_url (submit_payload email secret quiz_url answer) wk
      = (Ok response, w') ->
      status_code response = 200 ->
      json response = Ok (JsonDict result) ->
      result !! "correct" = None ->
      exists r,
        _submit_answer email secret submit_url quiz_url answer max_retries w = (Ok r, w')
        /\ r !! "correct" = Some (PBool false)
        /\ r !! "error" = None
        /\ (result !! "url" = None ->
            r !! "next_url" = Some PNone /\ truthy (dict_get r "next_url") = false))
  /\ (forall (W DF J : Type) (C : Collaborators W DF J)
             (email secret submit_url : string) (quiz_url answer : pyval)
             (max_retries : Z) (w : W),
         exists r w',
           _submit_answer email secret submit_url quiz_url answer max_retries w
           = (Ok r, w'))
  /\ (forall (W DF J : Type) (C : Collaborators W DF J)
             (email secret initial_url : string) (w : W) (start_time : Z) (n : nat)
             (u : pyval) (rs : list (gmap string pyval)) (wk : W) (now : Z)
             (wk1 wk2 : W) (answer : pyval) (result : gmap string pyval) (attempt : Z),
         session_at email secret initial_url w start_time n u rs wk ->
         truthy u = true ->
         clock_now wk = (now, wk1) ->
         now - start_time <= max_time ->
         single_quiz_try email secret u wk1
         = (Ok (submit_result u answer result attempt), wk2) ->
         result !! "url" = None ->
         loop_body email secret start_time u rs wk
         = (rs ++ [submit_result u answer result attempt], Break, wk2)
         /\ forall fuel, (n < fuel)%nat ->
              exists s w',
                solve_quiz email secret fuel initial_url w = Some (s, w')
                /\ success s = true
                /\ results s = rs ++ [submit_result u answer result attempt]
                /\ error s = None).
Proof.
  split; [| split].
  - intros W DF J C email secret submit_url quiz_url answer max_retries k w wk w'
           response result Hfail Hk Hpost Hs Hb Hcorrect.
    exists (submit_result quiz_url answer result (Z.of_nat k)).
    split; [exact (submit_answer_ok _ _ _ _ _ _ _ _ _ _ _ _ Hfail Hk Hpost Hs Hb) |].
    destruct (submit_result_fields quiz_url answer result (Z.of_nat k))
      as (_ & _ & Hc & Hn & _ & _ & He).
    split; [rewrite Hc; unfold dict_get_default; now rewrite Hcorrect |].
    split; [exact He |].
    intros Hurl. unfold dict_get at 1. rewrite Hn. unfold dict_get. rewrite Hurl. auto.
  - intros W DF J C email secret submit_url quiz_url answer max_retries w.
    apply submit_answer_returns.
  - intros W DF J C email secret initial_url w start_time n u rs wk now wk1 wk2
           answer result attempt Hat Hu Hclock Hin Htry Hurl.
    pose proof (solve_single_quiz_ok email secret u _ wk1 wk2 Htry) as Hstep.
    pose proof (loop_body_step email secret start_time u rs wk now wk1 _ wk2
                  Hclock Hin Hstep) as Hbody.
    destruct (submit_result_fields u answer result attempt)
      as (_ & _ & _ & Hn & _).
    assert (Hnext : truthy (dict_get (submit_result u answer result attempt) "next_url")
                    = false).
    { unfold dict_get at 1. rewrite Hn. unfold dict_get. now rewrite Hurl. }
    rewrite Hnext in Hbody. split; [exact Hbody |].
    intros fuel Hfuel.
    pose proof (session_finishes _ _ _ _ _ _ _ _ _ _ _ Hat Hu Hbody fuel Hfuel) as Hq.
    destruct (finished_summary start_time
                (rs ++ [submit_result u answer result attempt]) wk2)
      as (Hs & Hr & He & _).
    destruct (finished start_time (rs ++ [submit_result u answer result attempt]) wk2)
      as [s w'].
    exists s, w'. auto.
Qed.

(** A 200 response whose body is the empty object. *)
Lemma submit_200_missing_fields_witness :
  exists r w',
    @_submit_answer _ _ _ (quiz_world 0) "me@example.com" "s3cret" submit1
      (PStr quiz1) (PInt 42) 3 (script [reply 200 ∅])
    = (Ok r, w')
    /\ r !! "correct" = Some (PBool false)
    /\ r !! "next_url" = Some PNone
    /\ post_count (sc_log w') = 1%nat.
Proof.
  destruct (proj1 submit_200_missing_fields Script unit unit (quiz_world 0)
              "me@example.com" "s3cret" submit1 (PStr quiz1) (PInt 42) 3 0%nat
              (script [reply 200 ∅]) _ _ _ ∅
              ltac:(apply failed_none) ltac:(lia) eq_refl eq_refl eq_refl eq_refl)
    as (r & Hr & Hc & _ & Hn).
  exists r. eexists. split; [exact Hr |].
  split; [exact Hc |]. split; [exact (proj1 (Hn eq_refl)) |].
  vm_compute. reflexivity.
Defined.

(* ===================================================================== *)
(** * More about the patterns                                             *)
(* ===================================================================== *)

Lemma strip_prefix_spec (p s rest : string) :
  strip_prefix p s = Some rest -> s = p +:+ rest.
Proof.
  revert s. induction p as [|a p IH]; intros s; simpl.
  - now intros [= ->].
  - destruct s as [|b s]; [discriminate |].
    destruct (Ascii.eqb_spec a b) as [->|]; [| discriminate].
    intros H. now rewrite (IH _ H).
Qed.

Lemma match_scheme_spec (s scheme rest : string) :
  match_scheme s = Some (scheme, rest) ->
  s = scheme +:+ rest /\ (scheme = "https://" \/ scheme = "http://").
Proof.
  unfold match_scheme.
  destruct (strip_prefix "https://" s) as [r|] eqn:E1.
  - intros [= <- <-]. split; [now apply strip_prefix_spec | now left].
  - destruct (strip_prefix "http://" s) as [r|] eqn:E2; [| discriminate].
    intros [= <- <-]. split; [now apply strip_prefix_spec | now right].
Qed.

(** Every match that [findall] lists was found at some place of the text. *)
Lemma findall_from_in (m : string -> option string) (t : string) (s : string) :
  forall skip, In t (findall_from m skip s) ->
  exists pre s', s = pre +:+ s' /\ m s' = Some t.
Proof.
  induction s as [|c s IH]; intros skip; cbn [findall_from]; [intros [] |].
  assert (Hrest : forall k, In t (findall_from m k s) ->
                  exists pre s', String c s = pre +:+ s' /\ m s' = Some t).
  { intros k H. destruct (IH k H) as (pre & s' & -> & Hm).
    now exists (String c pre), s'. }
  destruct skip as [|k]; [| apply Hrest].
  destruct (m (String c s)) as [t'|] eqn:Hm; [| apply Hrest].
  intros [<- | H]; [| exact (Hrest _ H)].
  now exists "", (String c s).
Qed.

Lemma all_chars_scheme (scheme : string) :
  scheme = "https://" \/ scheme = "http://" -> all_chars is_url_char scheme = true.
Proof. intros [-> | ->]; reflexivity. Qed.

Lemma match_url_spec (s t : string) :
  match_url s = Some t ->
  exists scheme run post,
    s = t +:+ post /\ t = scheme +:+ run
    /\ (scheme = "https://" \/ scheme = "http://")
    /\ run <> "" /\ all_chars is_url_char run = true
    /\ head_is is_url_char post = false.
Proof.
  unfold match_url. destruct (match_scheme s) as [[scheme rest]|] eqn:Hs; [| discriminate].
  destruct (match_scheme_spec _ _ _ Hs) as [-> Hscheme].
  destruct (span is_url_char rest) as [run post] eqn:Hspan.
  destruct (span_spec _ _ _ _ Hspan) as (-> & Hall & Hpost).
  destruct run as [|c run]; [discriminate |]. intros [= <-].
  exists scheme, (String c run), post. rewrite append_assoc.
  repeat split; auto; discriminate.
Qed.

Lemma match_submit_spec (s t : string) :
  match_submit s = Some t ->
  exists scheme run post,
    s = t +:+ post /\ t = scheme +:+ run
    /\ (scheme = "https://" \/ scheme = "http://")
    /\ has_submit run = true /\ all_chars is_url_char run = true
    /\ head_is is_url_char post = false.
Proof.
  unfold match_submit. destruct (match_scheme s) as [[scheme rest]|] eqn:Hs; [| discriminate].
  destruct (match_scheme_spec _ _ _ Hs) as [-> Hscheme].
  destruct (span is_url_char rest) as [run post] eqn:Hspan.
  destruct (span_spec _ _ _ _ Hspan) as (-> & Hall & Hpost).
  destruct (has_submit run) eqn:Hsub; [| discriminate]. intros [= <-].
  exists scheme, run, post. rewrite append_assoc. repeat split; auto.
Qed.

Lemma contains_app_r (sub a b : string) :
  contains sub b = true -> contains sub (a +:+ b) = true.
Proof.
  rewrite !contains_spec. intros (pre & post & ->).
  exists (a +:+ pre), post. now rewrite append_assoc.
Qed.

(** X1. A submit URL found in a page is a piece of the page's HTML that
    starts with http:// or https://, has at least one character between
    the scheme and the text /submit, and holds no whitespace, angle
    bracket, quote or closing parenthesis; it goes on to the first such
    character or the end of the page. *)
Theorem extract_submit_url_shape (html_content u : string) :
  _extract_submit_url html_content = Some u ->
  exists pre scheme run post,
    html_content = pre +:+ u +:+ post
    /\ u = scheme +:+ run
    /\ (scheme = "https://" \/ scheme = "http://")
    /\ (exists c r, run = String c r /\ contains "/submit" r = true)
    /\ contains "/submit" u = true
    /\ all_chars is_url_char u = true
    /\ head_is is_url_char post = false.
Proof.
  intros H.
  assert (Hin : In u (findall match_submit html_content)).
  { unfold _extract_submit_url in H.
    destruct (findall match_submit html_content) as [|m l]; [discriminate |].
    injection H as <-. now left. }
  destruct (findall_from_in _ _ _ _ Hin) as (pre & s' & -> & Hm).
  destruct (match_submit_spec _ _ Hm) as (scheme & run & post & -> & -> & Hs & Hsub & Hall & Hpost).
  exists pre, scheme, run, post.
  assert (Hrun : exists c r, run = String c r /\ contains "/submit" r = true).
  { destruct run as [|c r]; [discriminate |]. now exists c, r. }
  repeat split; auto.
  - destruct Hrun as (c & r & -> & Hr).
    apply contains_app_r. now apply (contains_app_r _ (String c "")).
  - rewrite all_chars_app, Hall, (all_chars_scheme _ Hs). reflexivity.
Qed.

Lemma extract_submit_url_shape_witness :
  exists pre scheme run post,
    page_html = pre +:+ submit1 +:+ post
    /\ submit1 = scheme +:+ run
    /\ (scheme = "https://" \/ scheme = "http://")
    /\ head_is is_url_char post = false.
Proof.
  destruct (extract_submit_url_shape page_html submit1 ltac:(vm_compute; reflexivity))
    as (pre & scheme & run & post & H1 & H2 & H3 & _ & _ & _ & H4).
  now exists pre, scheme, run, post.
Defined.

(** X2. Every data URL listed for a page is a piece of the page's text
    that starts with http:// or https://, has at least one character
    after the scheme, holds no whitespace, angle bracket, quote or
    closing parenthesis, and ends where such a character or the end of
    the text follows. *)
Theorem data_urls_shape (text_content html_content u : string) :
  In u (qi_data_urls (_extract_question_info text_content html_content)) ->
  exists pre scheme run post,
    text_content = pre +:+ u +:+ post
    /\ u = scheme +:+ run
    /\ (scheme = "https://" \/ scheme = "http://")
    /\ run <> ""
    /\ all_chars is_url_char u = true
    /\ head_is is_url_char post = false.
Proof.
  cbn [_extract_question_info qi_data_urls]. intros Hin.
  destruct (findall_from_in _ _ _ _ Hin) as (pre & s' & -> & Hm).
  destruct (match_url_spec _ _ Hm) as (scheme & run & post & -> & -> & Hs & Hne & Hall & Hpost).
  exists pre, scheme, run, post. repeat split; auto.
  rewrite all_chars_app, Hall, (all_chars_scheme _ Hs). reflexivity.
Qed.

Lemma data_urls_shape_witness :
  exists pre scheme run post,
    file_text = pre +:+ "https://quiz.example/data.csv" +:+ post
    /\ "https://quiz.example/data.csv" = scheme +:+ run
    /\ head_is is_url_char post = false.
Proof.
  destruct (data_urls_shape file_text page_html "https://quiz.example/data.csv"
              ltac:(vm_compute; left; reflexivity))
    as (pre & scheme & run & post & H1 & H2 & _ & _ & _ & H4).
  now exists pre, scheme, run, post.
Defined.

Lemma length_append (a b : string) :
  String.length (a +:+ b) = (String.length a + String.length b)%nat.
Proof. induction a as [|c a IH]; cbn; [reflexivity | now rewrite IH]. Qed.

(** A literal of at most 640 digits, or any literal when the interpreter
    has no limit, is accepted. *)
Lemma int_accepts (max_str_digits : N) (tok : string) :
  max_str_digits = 0%N \/ (String.length tok <= 640)%nat ->
  int_refuses max_str_digits tok = false.
Proof.
  intros H. unfold int_refuses, int_str_digits_threshold.
  assert (Hlen : (String.length (eat "-" tok).2 <= String.length tok)%nat).
  { destruct tok as [|c t]; [cbn; lia |]. unfold eat.
    destruct (Ascii.eqb "-" c); cbn [snd String.length]; lia. }
  destruct (eat "-" tok) as [sign body]. cbn [snd] in Hlen.
  destruct H as [-> | H].
  - now rewrite andb_false_r.
  - destruct (N.ltb_spec 640 (N.of_nat (String.length body))); [lia | reflexivity].
Qed.

(** X3. The coerced answer is a string exactly when the response holds
    no digit at all, or when its first number is an integer literal that
    the interpreter refuses for its length; the string is then the
    response without the whitespace at its two ends. So with no limit on
    literals, or for a response of at most 640 characters, the answer is
    a string exactly when the response holds no digit: any such response
    with a digit in it becomes a number, whatever else it says. *)
Theorem extract_answer_text_iff
    (max_str_digits : N) (llm_response question_text s : string) :
  (_extract_answer max_str_digits llm_response question_text = PStr s
   <-> s = strip llm_response
       /\ (no_digit llm_response = true
           \/ exists pre tok post,
               llm_response = pre +:+ tok +:+ post
               /\ first_number_token pre tok post
               /\ contains "." tok = false
               /\ int_refuses max_str_digits tok = true))
  /\ (max_str_digits = 0%N \/ (String.length llm_response <= 640)%nat ->
      (_extract_answer max_str_digits llm_response question_text = PStr s
       <-> s = strip llm_response /\ no_digit llm_response = true))
  /\ trimmed llm_response (strip llm_response).
Proof.
  assert (Hiff : _extract_answer max_str_digits llm_response question_text = PStr s
                 <-> s = strip llm_response
                     /\ (no_digit llm_response = true
                         \/ exists pre tok post,
                             llm_response = pre +:+ tok +:+ post
                             /\ first_number_token pre tok post
                             /\ contains "." tok = false
                             /\ int_refuses max_str_digits tok = true)).
  { split.
    - intros H. destruct (number_token_exists llm_response)
        as [Hnd | (pre & tok & post & E & Htok)].
      + unfold _extract_answer in H. rewrite (findall_no_digit _ Hnd) in H.
        injection H as <-. auto.
      + pose proof Htok as Hfound. rewrite E in H.
        apply first_number_token_found in Hfound as [rest Hrest].
        unfold _extract_answer, py_int in H. rewrite Hrest in H.
        destruct (contains "." tok) eqn:Hdot; [discriminate |].
        destruct (int_refuses max_str_digits tok) eqn:Href; [| discriminate].
        injection H as <-. rewrite E. split; [reflexivity |].
        right. now exists pre, tok, post.
    - intros [-> [Hnd | (pre & tok & post & E & Htok & Hdot & Href)]].
      + unfold _extract_answer. now rewrite (findall_no_digit _ Hnd).
      + apply first_number_token_found in Htok as [rest Hrest]. rewrite <- E in Hrest.
        unfold _extract_answer, py_int. now rewrite Hrest, Hdot, Href. }
  split; [exact Hiff |]. split; [| apply strip_trimmed].
  intros Hsmall. rewrite Hiff. split; [| intros [-> Hnd]; auto].
  intros [-> [Hnd | (pre & tok & post & E & _ & _ & Href)]]; [auto |].
  exfalso. rewrite int_accepts in Href; [discriminate |].
  destruct Hsmall as [-> | Hlen]; [now left | right].
  rewrite E, !length_append in Hlen. lia.
Qed.

Lemma extract_answer_text_iff_witness :
  _extract_answer 4300 "  I cannot tell " "" = PStr "I cannot tell".
Proof.
  apply (proj1 (extract_answer_text_iff 4300 "  I cannot tell " "" "I cannot tell")).
  split; [vm_compute; reflexivity |]. left. vm_compute. reflexivity.
Defined.

(* ===================================================================== *)
(** * Printing and reading integers                                       *)
(* ===================================================================== *)

Lemma digit_char_spec (d : N) :
  (d < 10)%N -> code (digit_char d) = (48 + d)%N /\ is_digit (digit_char d) = true.
Proof.
  intros H.
  assert (E : d = 0%N \/ d = 1%N \/ d = 2%N \/ d = 3%N \/ d = 4%N \/ d = 5%N
              \/ d = 6%N \/ d = 7%N \/ d = 8%N \/ d = 9%N) by lia.
  repeat (destruct E as [-> | E]; [split; reflexivity |]). subst. split; reflexivity.
Qed.

Lemma digits_value_digits_of (fuel : nat) (n : N) (acc : string) :
  (n < 10 ^ N.of_nat fuel)%N ->
  digits_value 0 (digits_of fuel n acc) = digits_value n acc.
Proof.
  revert n acc. induction fuel as [|fuel IH]; intros n acc Hn.
  - simpl in *. assert (n = 0%N) by lia. now subst.
  - cbn [digits_of].
    assert (Hmod : (n mod 10 < 10)%N) by (apply N.mod_lt; lia).
    destruct (digit_char_spec _ Hmod) as [Hcode _].
    destruct (N.ltb_spec n 10) as [Hlt | Hge].
    + cbn [digits_value]. rewrite Hcode. rewrite N.mod_small by exact Hlt.
      f_equal. lia.
    + rewrite IH.
      * cbn [digits_value]. rewrite Hcode. f_equal.
        rewrite (N.add_comm 48), N.add_sub. symmetry. apply N.div_mod. lia.
      * rewrite Nat2N.inj_succ, N.pow_succ_r' in Hn.
        apply N.Div0.div_lt_upper_bound; lia.
Qed.

Lemma all_digits_digits_of (fuel : nat) (n : N) (acc : string) :
  all_chars is_digit acc = true -> all_chars is_digit (digits_of fuel n acc) = true.
Proof.
  revert n acc. induction fuel as [|fuel IH]; intros n acc Hacc; [exact Hacc |].
  cbn [digits_of].
  assert (Hmod : (n mod 10 < 10)%N) by (apply N.mod_lt; lia).
  destruct (digit_char_spec _ Hmod) as [_ Hd].
  assert (Hacc' : all_chars is_digit (String (digit_char (n mod 10)) acc) = true).
  { cbn [all_chars]. now rewrite Hd, Hacc. }
  destruct (n <? 10)%N; [exact Hacc' | now apply IH].
Qed.

Lemma digits_of_nonempty (fuel : nat) (n : N) (acc : string) :
  acc <> "" -> digits_of fuel n acc <> "".
Proof.
  revert n acc. induction fuel as [|fuel IH]; intros n acc Hacc; [exact Hacc |].
  cbn [digits_of]. destruct (n <? 10)%N; [discriminate | apply IH; discriminate].
Qed.

Lemma str_of_N_spec (n : N) :
  digits_value 0 (str_of_N n) = n
  /\ all_chars is_digit (str_of_N n) = true
  /\ str_of_N n <> "".
Proof.
  unfold str_of_N. split; [| split].
  - rewrite digits_value_digits_of; [reflexivity |].
    rewrite Nat2N.inj_succ, N2Nat.id.
    destruct (N.eq_dec n 0%N) as [-> | Hn]; [reflexivity |].
    destruct (N.log2_spec n ltac:(lia)) as [_ Hlt].
    eapply N.lt_le_trans; [exact Hlt |].
    apply N.pow_le_mono_l. lia.
  - now apply all_digits_digits_of.
  - cbn [digits_of]. destruct (n <? 10)%N; [discriminate |].
    apply digits_of_nonempty. discriminate.
Qed.

Lemma all_chars_middle (p : ascii -> bool) (a b : string) (c : ascii) :
  all_chars p (a +:+ String c b) = true -> p c = true.
Proof.
  rewrite all_chars_app. cbn [all_chars]. intros H.
  apply andb_true_iff in H as [_ H]. now apply andb_true_iff in H as [H _].
Qed.

Lemma int_of_token_str_of_int (z : Z) : int_of_token (str_of_int z) = z.
Proof.
  destruct (str_of_N_spec (Z.abs_N z)) as (Hval & Hall & Hne).
  unfold str_of_int, int_of_token. destruct (Z.ltb_spec z 0) as [Hneg | Hpos].
  - rewrite eat_hit, Hval. cbn [str_truthy]. lia.
  - destruct (str_of_N (Z.abs_N z)) as [|d ds] eqn:E; [congruence |].
    cbn [all_chars] in Hall. apply andb_true_iff in Hall as [Hd _].
    rewrite eat_miss by (cbn [head_is]; now apply digit_not_minus).
    rewrite Hval. cbn [str_truthy]. lia.
Qed.

Lemma str_of_int_no_dot (z : Z) : contains "." (str_of_int z) = false.
Proof.
  destruct (contains "." (str_of_int z)) eqn:E; [| reflexivity].
  apply contains_spec in E as (a & b & E). exfalso.
  destruct (str_of_N_spec (Z.abs_N z)) as (_ & Hall & _).
  unfold str_of_int in E. destruct (z <? 0).
  - destruct a as [|x a]; [discriminate |]. injection E as _ E.
    rewrite E in Hall. apply all_chars_middle in Hall. discriminate.
  - rewrite E in Hall. apply all_chars_middle in Hall. discriminate.
Qed.

Lemma length_digits_of (fuel k : nat) (n : N) (acc : string) :
  (0 < k)%nat -> (n < 10 ^ N.of_nat k)%N ->
  (String.length (digits_of fuel n acc) <= k + String.length acc)%nat.
Proof.
  revert k n acc. induction fuel as [|fuel IH]; intros k n acc Hk Hn; cbn [digits_of];
    [lia |].
  destruct (N.ltb_spec n 10) as [Hlt | Hge]; [cbn [String.length]; lia |].
  destruct k as [|[|k]]; [lia | cbn in Hn; lia |].
  etransitivity; [apply (IH (S k)); [lia |] | cbn [String.length]; lia].
  apply N.Div0.div_lt_upper_bound.
  rewrite <- N.pow_succ_r'. now rewrite <- Nat2N.inj_succ.
Qed.

(** An integer below 10 to the 640 prints with at most 640 digits. *)
Lemma length_str_of_int (z : Z) :
  Z.abs z < 10 ^ 640 -> (String.length (str_of_N (Z.abs_N z)) <= 640)%nat.
Proof.
  intros Hz. unfold str_of_N.
  pose proof (length_digits_of (S (N.to_nat (N.log2 (Z.abs_N z)))) 640 (Z.abs_N z) ""
                ltac:(lia)) as H.
  cbn [String.length] in H. rewrite Nat.add_0_r in H. apply H.
  apply N2Z.inj_lt. rewrite N2Z.inj_abs_N, N2Z.inj_pow. exact Hz.
Qed.

(** X4. Printing an integer and coercing it gives the integer back, also
    inside other text, unless the interpreter refuses a literal of that
    many digits: then it gives the text back, without the whitespace at
    its two ends. The text before must hold no digit and, for a number
    that is not negative, not end in a minus sign, and the text after
    must start with neither a digit nor a decimal point. Every integer
    below 10 to the 640 in absolute value is given back, and with no
    limit on literals every integer is. *)
Theorem extract_answer_reads_printed_int
    (max_str_digits : N) (z : Z) (pre post question_text : string) :
  no_digit pre = true ->
  (0 <= z -> forall p, pre <> p +:+ "-") ->
  head_is is_digit post = false ->
  head_is (Ascii.eqb ".") post = false ->
  _extract_answer max_str_digits (pre +:+ str_of_int z +:+ post) question_text
  = (if int_refuses max_str_digits (str_of_int z)
     then PStr (strip (pre +:+ str_of_int z +:+ post))
     else PInt z)
  /\ (max_str_digits = 0%N \/ Z.abs z < 10 ^ 640 ->
      _extract_answer max_str_digits (pre +:+ str_of_int z +:+ post) question_text
      = PInt z).
Proof.
  intros Hpre Hend Hpost Hdot.
  destruct (str_of_N_spec (Z.abs_N z)) as (_ & Hall & Hne).
  assert (Htok : first_number_token pre (str_of_int z) post).
  { apply (FirstNumberToken _ _ _ (if z <? 0 then "-" else "") (str_of_N (Z.abs_N z)) "" "");
      auto.
    - unfold str_of_int. rewrite !append_nil_r. now destruct (z <? 0).
    - destruct (z <? 0); auto.
    - destruct (Z.ltb_spec z 0); [discriminate | intros _; now apply Hend]. }
  destruct (first_number_token_found _ _ _ Htok) as [rest Hrest].
  assert (H : _extract_answer max_str_digits (pre +:+ str_of_int z +:+ post) question_text
              = if int_refuses max_str_digits (str_of_int z)
                then PStr (strip (pre +:+ str_of_int z +:+ post))
                else PInt z).
  { unfold _extract_answer, py_int.
    rewrite Hrest, str_of_int_no_dot, int_of_token_str_of_int.
    now destruct (int_refuses max_str_digits (str_of_int z)). }
  split; [exact H |]. intros Hsmall. rewrite H.
  assert (Href : int_refuses max_str_digits (str_of_int z) = false).
  { destruct Hsmall as [-> | Hz].
    - apply int_accepts. now left.
    - unfold int_refuses, int_str_digits_threshold.
      pose proof (length_str_of_int z Hz) as Hlen.
      assert (E : eat "-" (str_of_int z)
                  = (if z <? 0 then "-" else "", str_of_N (Z.abs_N z))).
      { unfold str_of_int. destruct (z <? 0); [apply eat_hit |].
        apply eat_miss. destruct (str_of_N (Z.abs_N z)) as [|d ds]; [reflexivity |].
        cbn [all_chars] in Hall. apply andb_true_iff in Hall as [Hd _].
        cbn [head_is]. now apply digit_not_minus. }
      rewrite E.
      destruct (N.ltb_spec 640 (N.of_nat (String.length (str_of_N (Z.abs_N z)))));
        [lia | reflexivity]. }
  now rewrite Href.
Qed.

Lemma extract_answer_reads_printed_int_witness :
  _extract_answer 4300 ("about " +:+ str_of_int (-1200) +:+ " in all") "" = PInt (-1200).
Proof.
  apply (extract_answer_reads_printed_int 4300 (-1200) "about " " in all" "");
    try reflexivity.
  - intros H. exfalso. revert H. vm_compute. intros H. now apply H.
  - right. vm_compute. reflexivity.
Defined.

(* ===================================================================== *)
(** * More about submission                                               *)
(* ===================================================================== *)

(** X5. With no attempt allowed (a bound of zero or less) nothing is
    posted and nothing is waited for: the failure result comes back at
    once and the world is untouched. *)
Theorem submit_without_attempts
    (W DF J : Type) (C : Collaborators W DF J)
    (email secret submit_url : string) (quiz_url answer : pyval)
    (max_retries : Z) (w : W) :
  max_retries <= 0 ->
  _submit_answer email secret submit_url quiz_url answer max_retries w
  = (Ok (submit_failure quiz_url answer), w).
Proof.
  intros H. unfold _submit_answer.
  replace (Z.to_nat max_retries) with 0%nat by lia. reflexivity.
Qed.

Lemma submit_without_attempts_witness :
  @_submit_answer _ _ _ (quiz_world 0) "me@example.com" "s3cret" submit1
    (PStr quiz1) (PInt 42) 0 (script [reply 200 ∅])
  = (Ok (submit_failure (PStr quiz1) (PInt 42)), script [reply 200 ∅]).
Proof.
  apply (submit_without_attempts Script unit unit (quiz_world 0)). lia.
Defined.

Lemma post_count_app (l1 l2 : list event) :
  post_count (l1 ++ l2) = (post_count l1 + post_count l2)%nat.
Proof. unfold post_count. now rewrite List.filter_app, length_app. Qed.

Lemma sleep_count_app (l1 l2 : list event) :
  sleep_count (l1 ++ l2) = (sleep_count l1 + sleep_count l2)%nat.
Proof. unfold sleep_count. now rewrite List.filter_app, length_app. Qed.

Section ScriptedSubmission.

Variable html_of text_of : pyval -> res string.
Variable llm_reply : res string.
Variable latency : Z.
Variable email secret submit_url : string.
Variable quiz_url answer : pyval.
Variable max_retries : Z.
Variable encodes : gmap string pyval -> bool.

Let world := scripted html_of text_of llm_reply latency encodes.
Let payload := submit_payload email secret quiz_url answer.

Lemma scripted_post_log (w : Script) :
  encodes payload = true ->
  exists r w1,
    @http_post _ _ _ world submit_url payload w = (r, w1)
    /\ sc_log w1 = sc_log w ++ [EvPost submit_url payload].
Proof.
  intros Henc. cbn [http_post world scripted]. rewrite Henc.
  destruct (sc_replies w) as [|r rest]; eauto.
Qed.

(** With a payload that cannot be encoded every attempt raises before
    anything is sent: no POST is made, no reply is used up, and the
    pauses are the only thing that happens. *)
Lemma scripted_submit_loop_unsent (remaining : nat) :
  forall (attempt : Z) (w : Script),
    encodes payload = false ->
    attempt + Z.of_nat remaining = max_retries ->
    exists w',
      @submit_loop _ _ _ world submit_url quiz_url answer payload max_retries
        remaining attempt w = (None, w')
      /\ post_count (sc_log w') = post_count (sc_log w)
      /\ sleep_count (sc_log w') = (sleep_count (sc_log w) + (remaining - 1))%nat
      /\ sc_replies w' = sc_replies w.
Proof.
  induction remaining as [|remaining IH]; intros attempt w Henc Hinv; cbn [submit_loop].
  - exists w. repeat split. lia.
  - cbn [http_post world scripted]. rewrite Henc.
    destruct (IH (attempt + 1) (@backoff _ _ _ world attempt max_retries w) Henc
                ltac:(lia)) as (w' & Hloop & Hp & Hs & Hr).
    exists w'. split; [exact Hloop |].
    rewrite Hp, Hs, Hr. unfold backoff.
    destruct (Z.ltb_spec attempt (max_retries - 1)) as [Hlt | Hge].
    + cbn [sleep world scripted log_event sc_log sc_replies].
      rewrite post_count_app, sleep_count_app. cbn. repeat split; lia.
    + repeat split. lia.
Qed.

Lemma scripted_backoff_log (attempt : Z) (w : Script) :
  sc_log (@backoff _ _ _ world attempt max_retries w)
  = sc_log w ++ (if attempt <? max_retries - 1 then [EvSleep 1] else []).
Proof.
  unfold backoff. destruct (attempt <? max_retries - 1); cbn.
  - reflexivity.
  - now rewrite app_nil_r.
Qed.

(** The POSTs and pauses of the attempts from number [attempt] on, when
    [remaining] are left of [max_retries]. *)
Lemma scripted_submit_loop_counts (remaining : nat) :
  forall (attempt : Z) (w w' : Script) (o : option (gmap string pyval)),
    encodes payload = true ->
    attempt + Z.of_nat remaining = max_retries ->
    @submit_loop _ _ _ world submit_url quiz_url answer payload max_retries
      remaining attempt w = (o, w') ->
    exists p s : nat,
      post_count (sc_log w') = (post_count (sc_log w) + p)%nat
      /\ sleep_count (sc_log w') = (sleep_count (sc_log w) + s)%nat
      /\ match o with
         | Some r =>
             (1 <= p <= remaining)%nat /\ s = (p - 1)%nat
             /\ r !! "attempt" = Some (PInt (attempt + Z.of_nat p))
         | None => p = remaining /\ s = (remaining - 1)%nat
         end.
Proof.
  induction remaining as [|remaining IH]; intros attempt w w' o Henc Hinv;
    cbn [submit_loop].
  - intros [= <- <-]. exists 0%nat, 0%nat. repeat split; lia.
  - destruct (scripted_post_log w Henc) as (r & w1 & Hpost & Hlog). rewrite Hpost.
    assert (Hretry : @submit_loop _ _ _ world submit_url quiz_url answer payload
                       max_retries remaining (attempt + 1)
                       (@backoff _ _ _ world attempt max_retries w1) = (o, w') ->
                     exists p s : nat,
                       post_count (sc_log w') = (post_count (sc_log w) + p)%nat
                       /\ sleep_count (sc_log w') = (sleep_count (sc_log w) + s)%nat
                       /\ match o with
                          | Some r =>
                              (1 <= p <= S remaining)%nat /\ s = (p - 1)%nat
                              /\ r !! "attempt" = Some (PInt (attempt + Z.of_nat p))
                          | None => p = S remaining /\ s = (S remaining - 1)%nat
                          end).
    { intros H. destruct (IH (attempt + 1) _ _ _ Henc ltac:(lia) H)
        as (p & s & Hp & Hs & Ho).
      rewrite scripted_backoff_log in Hp, Hs. rewrite Hlog in Hp, Hs.
      rewrite !post_count_app in Hp. rewrite !sleep_count_app in Hs.
      destruct (Z.ltb_spec attempt (max_retries - 1)) as [Hlt | Hge].
      - exists (S p), (S s). cbn in Hp, Hs. split; [lia |]. split; [lia |].
        destruct o as [r'|].
        + destruct Ho as (Hp1 & -> & Hatt). split; [lia |]. split; [lia |].
          rewrite Hatt. do 2 f_equal. lia.
        + destruct Ho as [-> ->]. split; lia.
      - assert (remaining = 0%nat) by lia. subst remaining.
        exists (S p), s. cbn in Hp, Hs. split; [lia |]. split; [lia |].
        destruct o as [r'|]; [lia |]. destruct Ho as [-> ->]. split; lia. }
    destruct r as [response|e]; [| exact Hretry].
    destruct (status_code response =? 200); [| exact Hretry].
    destruct (json response) as [[d|]|e]; [| exact Hretry | exact Hretry].
    intros [= <- <-]. exists 1%nat, 0%nat.
    rewrite Hlog, post_count_app, sleep_count_app. cbn.
    split; [lia |]. split; [lia |]. split; [lia |]. split; [lia |].
    unfold submit_result. by simplify_map_eq.
Qed.

End ScriptedSubmission.

(** X6. Against any endpoint (any list of scripted responses, then
    refused connections) and with at least one attempt allowed, a
    submission whose payload the client can encode makes between one and
    [max_retries] POSTs, and one pause less than POSTs: there is no
    pause before the first POST or after the last. A result with an
    attempt count gives the number of POSTs made; the failure result
    comes after exactly [max_retries] POSTs. With a payload that the
    client cannot encode, such as an answer that is a NumPy scalar,
    nothing is sent at all: there are no POSTs, [max_retries - 1] pauses,
    and the result is the failure result. *)
Theorem submit_posts_and_pauses
    (html_of text_of : pyval -> res string) (llm_reply : res string) (latency : Z)
    (encodes : gmap string pyval -> bool)
    (email secret submit_url : string) (quiz_url answer : pyval)
    (max_retries : Z) (w w' : Script) (r : gmap string pyval) :
  1 <= max_retries ->
  @_submit_answer _ _ _ (scripted html_of text_of llm_reply latency encodes)
    email secret submit_url quiz_url answer max_retries w = (Ok r, w') ->
  if encodes (submit_payload email secret quiz_url answer) then
    exists p : nat,
      post_count (sc_log w') = (post_count (sc_log w) + p)%nat
      /\ sleep_count (sc_log w') = (sleep_count (sc_log w) + (p - 1))%nat
      /\ 1 <= Z.of_nat p <= max_retries
      /\ (r !! "attempt" = Some (PInt (Z.of_nat p))
          \/ (r = submit_failure quiz_url answer /\ Z.of_nat p = max_retries))
  else
    post_count (sc_log w') = post_count (sc_log w)
    /\ sleep_count (sc_log w')
       = (sleep_count (sc_log w) + (Z.to_nat max_retries - 1))%nat
    /\ sc_replies w' = sc_replies w
    /\ r = submit_failure quiz_url answer.
Proof.
  intros Hmax. unfold _submit_answer.
  change ({[ "email" := PStr email; "secret" := PStr secret; "url" := quiz_url;
             "answer" := answer ]} : gmap string pyval)
    with (submit_payload email secret quiz_url answer).
  destruct (encodes (submit_payload email secret quiz_url answer)) eqn:Henc.
  - destruct (submit_loop _ _ _ _ _ _ _ w) as [o w1] eqn:Hloop.
    destruct (scripted_submit_loop_counts html_of text_of llm_reply latency
                email secret submit_url quiz_url answer max_retries encodes
                (Z.to_nat max_retries) 0 w w1 o Henc ltac:(lia) Hloop)
      as (p & s & Hp & Hs & Ho).
    destruct o as [r'|]; intros [= <- <-]; exists p.
    + destruct Ho as (Hp1 & -> & Hatt). repeat split; try lia. left. exact Hatt.
    + destruct Ho as [-> ->]. repeat split; try lia. right. split; [reflexivity | lia].
  - destruct (scripted_submit_loop_unsent html_of text_of llm_reply latency
                email secret submit_url quiz_url answer max_retries encodes
                (Z.to_nat max_retries) 0 w Henc ltac:(lia))
      as (w1 & Hloop & Hp & Hs & Hr).
    rewrite Hloop. intros [= <- <-]. auto.
Qed.

Lemma submit_posts_and_pauses_witness :
  exists r w',
    @_submit_answer _ _ _ (quiz_world 0) "me@example.com" "s3cret" submit1
      (PStr quiz1) (PInt 42) 5
      (script [reply 500 ∅; Raise "timed out"; reply 200 ∅;
               reply 200 {[ "correct" := PBool true ]}])
    = (Ok r, w')
    /\ exists p : nat,
        post_count (sc_log w') = (0 + p)%nat
        /\ sleep_count (sc_log w') = (0 + (p - 1))%nat
        /\ 1 <= Z.of_nat p <= 5.
Proof.
  pose (run := @_submit_answer _ _ _ (quiz_world 0) "me@example.com" "s3cret" submit1
                 (PStr quiz1) (PInt 42) 5
                 (script [reply 500 ∅; Raise "timed out"; reply 200 ∅;
                          reply 200 {[ "correct" := PBool true ]}])).
  assert (H : run = (Ok (ok_or (∅ : gmap string pyval) run.1), run.2))
    by (vm_compute; reflexivity).
  exists (ok_or ∅ run.1), run.2. split; [exact H |].
  pose proof (submit_posts_and_pauses (fun _ => Ok page_html) (fun _ => Ok page_text)
                (Ok "42") 0 plain_values "me@example.com" "s3cret" submit1
                (PStr quiz1) (PInt 42) 5 _ _ _ ltac:(lia) H) as Hcount.
  assert (Henc : plain_values (submit_payload "me@example.com" "s3cret" (PStr quiz1)
                                 (PInt 42)) = true) by (vm_compute; reflexivity).
  rewrite Henc in Hcount. destruct Hcount as (p & Hp & Hs & Hb & _).
  exists p. auto.
Defined.

(* ===================================================================== *)
(** * More about the session                                              *)
(* ===================================================================== *)

(** X7. The loop only ever appends to the results, and at most one
    result per pass: what the loop returns is the results it started
    with followed by no more new ones than it had passes to make. *)
Theorem results_append_only
    (W DF J : Type) (C : Collaborators W DF J) (email secret : string)
    (fuel : nat) (start_time : Z) (u : pyval)
    (rs rs' : list (gmap string pyval)) (w w' : W) :
  quiz_loop email secret fuel start_time u rs w = Some (rs', w') ->
  exists added, rs' = rs ++ added /\ (length added <= fuel)%nat.
Proof.
  revert u rs w. induction fuel as [|fuel IH]; intros u rs w; simpl.
  - destruct (truthy u); [discriminate |]. intros [= <- <-].
    exists []. now rewrite app_nil_r.
  - destruct (truthy u).
    2:{ intros [= <- <-]. exists []. rewrite app_nil_r. split; [reflexivity | simpl; lia]. }
    unfold loop_body. destruct (clock_now w) as [now w1].
    destruct (now - start_time >? max_time).
    { intros [= <- <-]. exists []. rewrite app_nil_r. split; [reflexivity | simpl; lia]. }
    destruct (_solve_single_quiz email secret u w1) as [r w2].
    assert (Hstop : exists added, rs ++ [r] = rs ++ added /\ (length added <= S fuel)%nat).
    { exists [r]. split; [reflexivity | simpl; lia]. }
    assert (Hgo : forall next,
               quiz_loop email secret fuel start_time next (rs ++ [r]) w2 = Some (rs', w') ->
               exists added, rs' = rs ++ added /\ (length added <= S fuel)%nat).
    { intros next H. destruct (IH _ _ _ H) as (added & -> & Hlen).
      exists (r :: added). rewrite <- app_assoc. split; [reflexivity | simpl; lia]. }
    destruct (truthy (dict_get r "correct")), (truthy (dict_get r "next_url"));
      cbn [negb]; try (intros [= <- <-]; exact Hstop); apply Hgo.
Qed.

Lemma results_append_only_witness :
  exists rs' w' added,
    @quiz_loop _ _ _ (quiz_world 0) "me@example.com" "s3cret" 5 0 (PStr quiz2)
      [step_error (PStr quiz1) "earlier"]
      (script [reply 200 {[ "correct" := PBool true; "url" := PStr quiz3 ]};
               reply 200 {[ "correct" := PBool true ]}])
    = Some (rs', w')
    /\ rs' = [step_error (PStr quiz1) "earlier"] ++ added
    /\ (length added <= 5)%nat.
Proof.
  pose (run := @quiz_loop _ _ _ (quiz_world 0) "me@example.com" "s3cret" 5 0 (PStr quiz2)
                 [step_error (PStr quiz1) "earlier"]
                 (script [reply 200 {[ "correct" := PBool true; "url" := PStr quiz3 ]};
                          reply 200 {[ "correct" := PBool true ]}])).
  assert (H : run = Some ((default ([], script []) run).1, (default ([], script []) run).2))
    by (vm_compute; reflexivity).
  destruct (results_append_only _ _ _ _ _ _ _ _ _ _ _ _ _ H) as (added & Hadd & Hlen).
  eexists _, _, added. split; [exact H |]. split; assumption.
Defined.

(** X8. A session started on the empty URL loads no page: once the
    browser has started, the loop is not entered, whatever the fuel, and
    the summary says success true with no results. *)
Theorem empty_url_visits_nothing
    (W DF J : Type) (C : Collaborators W DF J) (email secret : string)
    (fuel : nat) (w : W) (start_time : Z) (w0 w1 : W) :
  clock_now w = (start_time, w0) ->
  browser_start w0 = (Ok tt, w1) ->
  solve_quiz email secret fuel "" w = Some (finished start_time [] w1)
  /\ success (finished start_time [] w1).1 = true
  /\ results (finished start_time [] w1).1 = [].
Proof.
  intros Hclock Hstart. split.
  - unfold solve_quiz, finished. rewrite Hclock, Hstart.
    destruct fuel; simpl; now destruct (clock_now w1).
  - destruct (finished_summary start_time [] w1) as (Hs & Hr & _). auto.
Qed.

Lemma empty_url_visits_nothing_witness :
  exists s w',
    @solve_quiz _ _ _ (quiz_world 0) "me@example.com" "s3cret" 0 "" (script [])
    = Some (s, w')
    /\ results s = []
    /\ navigated (sc_log w') = [].
Proof.
  destruct (empty_url_visits_nothing Script unit unit (quiz_world 0)
              "me@example.com" "s3cret" 0 (script []) 0 _ _ eq_refl eq_refl)
    as (Hq & _ & Hr).
  eexists _, _. split; [exact Hq |]. split; [exact Hr | vm_compute; reflexivity].
Defined.
(* ===================================================================== *)
(** * The time limit bounds the session                                   *)
(* ===================================================================== *)

Section Termination.

Context {W DF J : Type} {C : Collaborators W DF J}.
Variable email secret : string.
Variable latency : Z.
Hypothesis latency_pos : 0 < latency.

(** Every step takes at least [latency] on the clock. *)
Hypothesis step_takes_time :
  forall (u : pyval) (w : W),
    (clock_now w).1 + latency
    <= (clock_now (_solve_single_quiz email secret u (clock_now w).2).2).1.

Lemma quiz_loop_terminates (fuel : nat) :
  forall (start_time : Z) (u : pyval) (rs : list (gmap string pyval)) (w : W),
    (passes_left latency start_time (clock_now w).1 <= fuel)%nat ->
    exists out, quiz_loop email secret fuel start_time u rs w = Some out.
Proof.
  induction fuel as [|fuel IH]; intros start_time u rs w Hfuel.
  - unfold passes_left in Hfuel. destruct (_ >? _); lia.
  - simpl. destruct (truthy u); [| eauto].
    unfold loop_body. pose proof (step_takes_time u w) as Hstep.
    destruct (clock_now w) as [now w1] eqn:Hclock. cbn [fst snd] in *.
    unfold passes_left in Hfuel.
    destruct (Z.gtb_spec (now - start_time) max_time) as [Hlate | Hin]; [eauto |].
    destruct (_solve_single_quiz email secret u w1) as [r w2]. cbn [snd] in Hstep.
    assert (Hnext : (passes_left latency start_time (clock_now w2).1 <= fuel)%nat).
    { unfold passes_left.
      destruct (Z.gtb_spec ((clock_now w2).1 - start_time) max_time) as [Hl | Hi]; [lia |].
      assert (Hdiv : (max_time - ((clock_now w2).1 - start_time)) / latency
                     <= (max_time - (now - start_time)) / latency - 1).
      { replace ((max_time - (now - start_time)) / latency - 1)
          with ((max_time - (now - start_time) + (-1) * latency) / latency)
          by (rewrite Z.div_add by lia; lia).
        apply Z.div_le_mono; lia. }
      assert (0 <= (max_time - ((clock_now w2).1 - start_time)) / latency)
        by (apply Z.div_pos; lia).
      lia. }
    destruct (truthy (dict_get r "correct")), (truthy (dict_get r "next_url"));
      cbn [negb]; eauto.
Qed.

End Termination.

(** X9. The time limit bounds the session. When every step takes at
    least [latency] on the clock and starting the browser does not set
    the clock back, a session ends within [max_time / latency + 2]
    passes, whatever the pages and the endpoint answer. *)
Theorem session_ends_within_time_limit
    (W DF J : Type) (C : Collaborators W DF J) (email secret : string)
    (latency : Z) (fuel : nat) (initial_url : string) (w : W) :
  0 < latency ->
  (forall (u : pyval) (w0 : W),
      (clock_now w0).1 + latency
      <= (clock_now (_solve_single_quiz email secret u (clock_now w0).2).2).1) ->
  (forall w1, browser_start (clock_now w).2 = (Ok tt, w1) ->
              (clock_now w).1 <= (clock_now w1).1) ->
  (Z.to_nat (max_time / latency) + 2 <= fuel)%nat ->
  exists s w', solve_quiz email secret fuel initial_url w = Some (s, w').
Proof.
  intros Hlat Hstep Hstart Hfuel. unfold solve_quiz.
  destruct (clock_now w) as [t0 w0] eqn:Hclock. cbn [fst snd] in Hstart.
  destruct (browser_start w0) as [[[]|e] w1]; [| eauto].
  specialize (Hstart w1 eq_refl).
  destruct (quiz_loop_terminates email secret latency Hlat Hstep fuel t0
              (PStr initial_url) [] w1) as [[rs w2] Hloop].
  - unfold passes_left. destruct (_ >? _); [lia |].
    assert ((max_time - ((clock_now w1).1 - t0)) / latency <= max_time / latency)
      by (apply Z.div_le_mono; lia).
    assert (0 <= max_time / latency) by (apply Z.div_pos; [unfold max_time, MAX_QUIZ_TIME_SECONDS |]; lia).
    lia.
  - rewrite Hloop. destruct (clock_now w2). eauto.
Qed.

(** No page loads, and every try costs a second. *)
Lemma session_ends_within_time_limit_witness :
  exists s w',
    @solve_quiz _ _ _ slow_offline_world "me@example.com" "s3cret" 182 quiz1 (script [])
    = Some (s, w').
Proof.
  apply (session_ends_within_time_limit Script unit unit slow_offline_world
           "me@example.com" "s3cret" 1000000 182 quiz1 (script [])).
  - lia.
  - intros u w0. cbn. lia.
  - intros w1 [= <-]. cbn. lia.
  - vm_compute. lia.
Defined.

(* ===================================================================== *)
(** * The shape of a step's result                                        *)
(* ===================================================================== *)

Section StepResults.

Context {W DF J : Type} {C : Collaborators W DF J}.
Variable email secret : string.

Lemma submit_loop_some_form (submit_url : string) (quiz_url answer : pyval)
    (payload : gmap string pyval) (max_retries : Z) (n : nat) (attempt : Z)
    (w w' : W) (r : gmap string pyval) :
  submit_loop submit_url quiz_url answer payload max_retries n attempt w = (Some r, w') ->
  exists d k, r = submit_result quiz_url answer d k.
Proof.
  revert attempt w. induction n as [|n IH]; intros attempt w; cbn [submit_loop].
  - discriminate.
  - destruct (http_post submit_url payload w) as [[response|e] w1]; [| apply IH].
    destruct (status_code response =? 200); [| apply IH].
    destruct (json response) as [[d|]|e]; [| apply IH | apply IH].
    intros [= <- <-]. eauto.
Qed.

(** The four dictionaries a step can return. *)
Lemma step_result_forms (u : pyval) (r : gmap string pyval) (w w' : W) :
  _solve_single_quiz email secret u w = (r, w') ->
  (exists answer d k, r = submit_result u answer d k)
  \/ (exists answer, r = submit_failure u answer)
  \/ (exists answer, r = no_submit_result u answer)
  \/ (exists e, r = step_error u e).
Proof.
  unfold _solve_single_quiz.
  destruct (single_quiz_try email secret u w) as [[r'|e] w1] eqn:E; intros [= <- <-].
  2:{ right; right; right. eauto. }
  revert E. unfold single_quiz_try, bind.
  destruct (browser_navigate u w) as [[html|?] wa]; [| discriminate].
  destruct (browser_extract_text u wa) as [[text|?] wb]; [| discriminate].
  destruct (_solve_question _ wb) as [[answer|?] wc]; [| discriminate].
  destruct (opt_truthy _) as [su|].
  - unfold _submit_answer.
    destruct (submit_loop _ _ _ _ _ _ _ wc) as [[r''|] w2] eqn:E; intros [= <- <-].
    + destruct (submit_loop_some_form _ _ _ _ _ _ _ _ _ _ E) as (d & k & ->).
      left. eauto.
    + right; left. eauto.
  - intros [= <- <-]. right; right; left. eauto.
Qed.

End StepResults.

(** X10. Whatever happens in a step, its result is filed under the
    step's URL and has a correct entry. It either reports an error, and
    then it is not correct, carries no next URL and no attempt count, and
    the pass that got it ends the loop; or it reports none, and then it
    carries the answer, an attempt count and a next URL entry. *)
Theorem step_result_shape
    (W DF J : Type) (C : Collaborators W DF J) (email secret : string)
    (start_time : Z) (u : pyval) (rs : list (gmap string pyval))
    (w : W) (now : Z) (w1 : W) (r : gmap string pyval) (w2 : W) :
  clock_now w = (now, w1) ->
  now - start_time <= max_time ->
  _solve_single_quiz email secret u w1 = (r, w2) ->
  r !! "url" = Some u
  /\ is_Some (r !! "correct")
  /\ ((r !! "error" = None
       /\ is_Some (r !! "answer")
       /\ is_Some (r !! "attempt")
       /\ is_Some (r !! "next_url"))
      \/ (is_Some (r !! "error")
          /\ truthy (dict_get r "correct") = false
          /\ r !! "next_url" = None
          /\ r !! "attempt" = None
          /\ loop_body email secret start_time u rs w = (rs ++ [r], Break, w2))).
Proof.
  intros Hclock Hin Hstep.
  pose proof (loop_body_step email secret start_time u rs w now w1 r w2 Hclock Hin Hstep)
    as Hbody.
  destruct (step_result_forms email secret u r w1 w2 Hstep)
    as [(answer & d & k & ->) | [(answer & ->) | [(answer & ->) | (e & ->)]]].
  - destruct (submit_result_fields u answer d k) as (Hu & Ha & Hc & Hn & _ & Hat & He).
    split; [exact Hu |]. split; [rewrite Hc; eauto |].
    left. rewrite Ha, Hat, Hn. eauto.
  - destruct (submit_failure_fields u answer) as (Hu & _ & Hc & He & Hat & Hn).
    split; [exact Hu |]. split; [rewrite Hc; eauto |].
    right. unfold dict_get in *. rewrite Hn in Hbody. rewrite He, Hc.
    cbn in Hbody |- *. eauto 10.
  - destruct (no_submit_result_fields u answer) as (Hu & _ & Hc & He & Hn & Hat).
    split; [exact Hu |]. split; [rewrite Hc; eauto |].
    right. unfold dict_get in *. rewrite Hn in Hbody. rewrite He, Hc.
    cbn in Hbody |- *. eauto 10.
  - destruct (step_error_fields u e) as (Hu & He & Hc & Hn & _).
    split; [exact Hu |]. split; [rewrite Hc; eauto |].
    right. unfold dict_get in *. rewrite Hn in Hbody. rewrite He, Hc.
    assert (Hat : step_error u e !! "attempt" = None)
      by (unfold step_error; by simplify_map_eq).
    cbn in Hbody |- *. eauto 10.
Qed.

Lemma step_result_shape_witness :
  let r := (@_solve_single_quiz _ _ _ (quiz_world 0) "me@example.com" "s3cret"
              (PStr quiz1) (script [reply 500 ∅; reply 500 ∅; reply 500 ∅])).1 in
  r !! "url" = Some (PStr quiz1) /\ is_Some (r !! "correct").
Proof.
  intros r.
  destruct (step_result_shape Script unit unit (quiz_world 0) "me@example.com" "s3cret"
              0 (PStr quiz1) [] (script [reply 500 ∅; reply 500 ∅; reply 500 ∅]) 0
              (script [reply 500 ∅; reply 500 ∅; reply 500 ∅]) r
              (@_solve_single_quiz _ _ _ (quiz_world 0) "me@example.com" "s3cret"
                 (PStr quiz1) (script [reply 500 ∅; reply 500 ∅; reply 500 ∅])).2
              eq_refl ltac:(vm_compute; discriminate)
              ltac:(subst r; apply surjective_pairing))
    as (Hu & Hc & _).
  auto.
Defined.

(* ===================================================================== *)
(** * Questions answered from a table                                     *)
(* ===================================================================== *)

Lemma search_first_quoted (pre column post : string) :
  all_chars (fun c => negb (is_quote c)) pre = true ->
  column <> "" ->
  all_chars (fun c => negb (is_quote c)) column = true ->
  search match_quoted (pre +:+ String "034" (column +:+ String "034" post)) = Some column.
Proof.
  intros Hpre Hne Hcol. induction pre as [|c pre IH].
  - cbn [String.append]. destruct column as [|x column]; [congruence |].
    change (search match_quoted (String "034" (String x column +:+ String "034" post)))
      with (match match_quoted (String "034" (String x column +:+ String "034" post)) with
            | Some t => Some t
            | None => search match_quoted (String x column +:+ String "034" post)
            end).
    unfold match_quoted. change (is_quote "034") with true. cbv iota.
    rewrite (span_app _ (String x column) (String "034" post) Hcol eq_refl). reflexivity.
  - cbn [all_chars] in Hpre. apply andb_true_iff in Hpre as [Hc Hpre].
    apply negb_true_iff in Hc.
    change (search match_quoted (String c pre +:+ String "034" (column +:+ String "034" post)))
      with (match match_quoted (String c (pre +:+ String "034" (column +:+ String "034" post))) with
            | Some t => Some t
            | None => search match_quoted (pre +:+ String "034" (column +:+ String "034" post))
            end).
    unfold match_quoted at 1. rewrite Hc. now apply IH.
Qed.

(** X11. A table question that mentions sum, mean, average or count is
    answered from the table alone: the world is left as it was, so the
    model is not called, even when the aggregation raises. Sum comes
    first, whatever other keywords the question holds: the answer is the
    sum of the column named by the first quoted string of the question
    when the table has that column, and the sum of the whole table when
    it has not or when nothing is quoted. The first quoted string is the
    one between the first two quote characters, when it is not empty. A
    question that mentions none of sum, mean and average but count gets
    the number of rows. *)
Theorem dataframe_keywords_skip_model
    (W DF J : Type) (C : Collaborators W DF J) (df : DF) (question_text : string) (w : W) :
  let q := lower question_text in
  (contains "sum" q || contains "mean" q || contains "average" q || contains "count" q
   = true ->
   (_analyze_dataframe_question df question_text w).2 = w)
  /\ (contains "sum" q = true ->
      (forall column,
          search match_quoted question_text = Some column ->
          df_has_column df column = true ->
          (_analyze_dataframe_question df question_text w).1 = df_column_sum df column)
      /\ (forall column,
             search match_quoted question_text = Some column ->
             df_has_column df column = false ->
             (_analyze_dataframe_question df question_text w).1 = df_total_sum df)
      /\ (search match_quoted question_text = None ->
          (_analyze_dataframe_question df question_text w).1 = df_total_sum df))
  /\ (forall pre column post,
         question_text = pre +:+ String "034" (column +:+ String "034" post) ->
         all_chars (fun c => negb (is_quote c)) pre = true ->
         column <> "" ->
         all_chars (fun c => negb (is_quote c)) column = true ->
         search match_quoted question_text = Some column)
  /\ (contains "sum" q = false -> contains "mean" q = false ->
      contains "average" q = false -> contains "count" q = true ->
      _analyze_dataframe_question df question_text w = (Ok (PInt (df_len df)), w)).
Proof.
  intros q. unfold _analyze_dataframe_question. cbv zeta. fold q.
  split; [| split; [| split]].
  - intros H. destruct (contains "sum" q).
    { destruct (search match_quoted question_text) as [c|];
        [destruct (df_has_column df c) |]; reflexivity. }
    destruct (contains "mean" q || contains "average" q) eqn:Hm.
    { destruct (search match_quoted question_text) as [c|];
        [destruct (df_has_column df c) |]; reflexivity. }
    apply orb_false_iff in Hm as [Hm1 Hm2]. rewrite Hm1, Hm2 in H.
    cbn [orb] in H. rewrite H. reflexivity.
  - intros ->. repeat split.
    + intros column -> ->. reflexivity.
    + intros column -> ->. reflexivity.
    + intros ->. reflexivity.
  - intros pre column post -> Hpre Hne Hcol. now apply search_first_quoted.
  - intros -> -> -> ->. reflexivity.
Qed.

Lemma dataframe_keywords_skip_model_witness :
  (@_analyze_dataframe_question _ _ _ (quiz_world 0) tt
     "How many rows? Count them." (script [])).2 = script [].
Proof.
  apply (dataframe_keywords_skip_model Script unit unit (quiz_world 0) tt
           "How many rows? Count them." (script [])).
  vm_compute. reflexivity.
Defined.

(* ===================================================================== *)
(** * Questions without a URL                                             *)
(* ===================================================================== *)

Lemma lower_app (a b : string) : lower (a +:+ b) = lower a +:+ lower b.
Proof. induction a as [|c a IH]; simpl; [reflexivity | now rewrite IH]. Qed.

Lemma contains_lower (sub s : string) :
  lower sub = sub -> contains sub s = true -> contains sub (lower s) = true.
Proof.
  intros Hsub. rewrite !contains_spec. intros (pre & post & ->).
  exists (lower pre), (lower post). now rewrite !lower_app, Hsub.
Qed.

Lemma search_some (m : string -> option string) (s t : string) :
  search m s = Some t -> exists pre s', s = pre +:+ s' /\ m s' = Some t.
Proof.
  induction s as [|c s IH]; cbn [search].
  - destruct (m "") eqn:E; [| discriminate]. intros [= <-]. now exists "", "".
  - destruct (m (String c s)) eqn:E.
    + intros [= <-]. now exists "", (String c s).
    + intros H. destruct (IH H) as (pre & s' & -> & Hm). now exists (String c pre), s'.
Qed.

Lemma lower_substring (n m : nat) (s : string) :
  lower (String.substring n m s) = String.substring n m (lower s).
Proof.
  revert n m. induction s as [|c s IH]; intros n m.
  - destruct n, m; reflexivity.
  - destruct n as [|n].
    + destruct m as [|m]; [reflexivity |]. cbn [String.substring lower]. now rewrite IH.
    + cbn [String.substring lower]. apply IH.
Qed.

Lemma startswith_substring (p : string) (m : nat) (s : string) :
  startswith p (String.substring 0 m s) = true -> startswith p s = true.
Proof.
  revert m s. induction p as [|a p IH]; intros m s; [reflexivity |].
  destruct s as [|b s]; destruct m as [|m]; cbn [String.substring startswith];
    try discriminate.
  destruct (Ascii.eqb a b); [apply IH | discriminate].
Qed.

Lemma match_scheme_http (s : string) (x : string * string) :
  match_scheme s = Some x -> startswith "http" s = true.
Proof.
  intros H. destruct x as [scheme rest].
  destruct (match_scheme_spec _ _ _ H) as [-> [-> | ->]]; reflexivity.
Qed.

Lemma match_file_url_ext_http (s t : string) :
  match_file_url_ext s = Some t -> startswith "http" (lower s) = true.
Proof.
  unfold match_file_url_ext.
  destruct (match_scheme (lower (String.substring 0 8 s))) as [x|] eqn:E; [| discriminate].
  intros _. apply match_scheme_http in E. rewrite lower_substring in E.
  exact (startswith_substring _ _ _ E).
Qed.

Lemma contains_startswith_suffix (sub pre s : string) :
  startswith sub s = true -> contains sub (pre +:+ s) = true.
Proof.
  intros H. apply startswith_spec in H as [post ->].
  apply contains_spec. now exists pre, post.
Qed.

Lemma no_http_no_data_urls (text : string) :
  contains "http" (lower text) = false -> findall match_url text = [].
Proof.
  intros H. destruct (findall match_url text) as [|u l] eqn:E; [reflexivity |].
  exfalso. assert (Hin : In u (findall match_url text)) by (rewrite E; now left).
  destruct (findall_from_in _ _ _ _ Hin) as (pre & s' & -> & Hm).
  unfold match_url in Hm.
  destruct (match_scheme s') as [x|] eqn:Hs; [| discriminate].
  apply match_scheme_http in Hs.
  rewrite (contains_lower "http" _ eq_refl (contains_startswith_suffix _ pre _ Hs)) in H.
  discriminate.
Qed.

Lemma no_http_no_file_url (text : string) :
  contains "http" (lower text) = false -> search match_file_url_ext text = None.
Proof.
  intros H. destruct (search match_file_url_ext text) as [t|] eqn:E; [| reflexivity].
  exfalso. destruct (search_some _ _ _ E) as (pre & s' & -> & Hm).
  apply match_file_url_ext_http in Hm.
  rewrite lower_app, (contains_startswith_suffix _ (lower pre) _ Hm) in H. discriminate.
Qed.

(** X12. A page whose text holds no http in any letter case has no data
    URLs, and unless it is a table question it is answered by the general
    path alone: nothing is downloaded and no API is fetched, whatever
    kind the keywords gave it. *)
Theorem no_url_question_is_general
    (W DF J : Type) (C : Collaborators W DF J) (text_content html_content : string) (w : W) :
  contains "http" (lower text_content) = false ->
  let question_info := _extract_question_info text_content html_content in
  qi_data_urls question_info = []
  /\ (qi_type question_info <> data_analysis ->
      solve_by_type question_info w = _solve_general_question question_info w).
Proof.
  intros Hno question_info.
  assert (Hurls : qi_data_urls question_info = []) by (apply no_http_no_data_urls, Hno).
  split; [exact Hurls |]. intros Hkind.
  unfold solve_by_type.
  assert (Hfile : _solve_file_question question_info w
                  = _solve_general_question question_info w).
  { unfold _solve_file_question. rewrite Hurls. cbn [List.find opt_truthy].
    change (qi_text question_info) with text_content.
    now rewrite (no_http_no_file_url _ Hno). }
  destruct (qi_type question_info); try congruence; try exact Hfile.
  - unfold _solve_api_question. now rewrite Hurls.
  - unfold _solve_visualization_question, bind, ret.
    now destruct (_solve_general_question question_info w) as [[a|e] w'].
Qed.

Lemma no_url_question_is_general_witness :
  @solve_by_type _ _ _ file_world
    (_extract_question_info "Open the file and tell me the total" page_html) (script [])
  = @_solve_general_question _ _ _ file_world
      (_extract_question_info "Open the file and tell me the total" page_html) (script []).
Proof.
  apply (no_url_question_is_general Script unit unit file_world
           "Open the file and tell me the total" page_html (script [])).
  - vm_compute. reflexivity.
  - vm_compute. discriminate.
Defined.

(* ===================================================================== *)
(** * The prompt                                                          *)
(* ===================================================================== *)

(** X13. The prompt is made of the question and of the context entries
    data and instructions only. Two contexts that agree on those two
    entries give the same prompt, and a context with neither gives the
    prompt of no context at all: any other entry, such as the tables of
    a PDF, never reaches the model. *)
Theorem prompt_uses_data_and_instructions_only
    (V : Type) (fmt : V -> string) (question_text : string)
    (context context' : option (gmap string V)) :
  (context ≫= (.!! "data")) = (context' ≫= (.!! "data")) ->
  (context ≫= (.!! "instructions")) = (context' ≫= (.!! "instructions")) ->
  _build_user_prompt fmt question_text context
  = _build_user_prompt fmt question_text context'.
Proof.
  assert (Hnorm : forall ctx : option (gmap string V),
             _build_user_prompt fmt question_text ctx
             = _build_user_prompt fmt question_text
                 (Some (match ctx ≫= (.!! "data") with
                        | Some d => <[ "data" := d ]> ∅ | None => ∅ end
                        ∪ match ctx ≫= (.!! "instructions") with
                          | Some i => <[ "instructions" := i ]> ∅ | None => ∅ end))).
  { intros [ctx|]; cbn [mbind option_bind]; unfold _build_user_prompt.
    - destruct (Nat.eqb_spec (size ctx) 0) as [Hz | Hnz].
      + apply map_size_empty_iff in Hz. subst ctx. rewrite !lookup_empty.
        rewrite (left_id_L ∅ (∪)). reflexivity.
      + destruct (ctx !! "data") as [d|] eqn:Hd, (ctx !! "instructions") as [i|] eqn:Hi.
        * rewrite (lookup_union_l' _ _ "data") by (rewrite lookup_insert_eq; eauto).
          rewrite lookup_insert_eq.
          rewrite (lookup_union_r _ _ "instructions") by (by rewrite lookup_insert_ne).
          rewrite lookup_insert_eq.
          destruct (Nat.eqb_spec (size (<["data":=d]> (∅ : gmap string V)
                                        ∪ <["instructions":=i]> ∅)) 0) as [Hz|]; [| reflexivity].
          apply map_size_empty_iff in Hz.
          apply (f_equal (.!! "data")) in Hz.
          rewrite (lookup_union_l' _ _ "data") in Hz by (rewrite lookup_insert_eq; eauto).
          rewrite lookup_insert_eq, lookup_empty in Hz. discriminate.
        * rewrite (right_id_L ∅ (∪)). rewrite lookup_insert_eq.
          rewrite lookup_insert_ne by done. rewrite lookup_empty.
          rewrite map_size_insert_None by apply lookup_empty. reflexivity.
        * rewrite (left_id_L ∅ (∪)). rewrite lookup_insert_eq.
          rewrite lookup_insert_ne by done. rewrite lookup_empty.
          rewrite map_size_insert_None by apply lookup_empty. reflexivity.
        * rewrite (left_id_L ∅ (∪)). rewrite !lookup_empty. now rewrite map_size_empty.
    - rewrite (left_id_L ∅ (∪)). now rewrite map_size_empty. }
  intros Hd Hi. rewrite (Hnorm context), (Hnorm context'), Hd, Hi. reflexivity.
Qed.

Lemma prompt_uses_data_and_instructions_only_witness :
  _build_user_prompt (fun s : string => s) "How many rows?"
    (Some {[ "data" := "a,b"; "tables" := "[[1, 2]]" ]})
  = _build_user_prompt (fun s : string => s) "How many rows?"
      (Some {[ "data" := "a,b" ]}).
Proof.
  apply prompt_uses_data_and_instructions_only; vm_compute; reflexivity.
Defined.

(** X14. The question, and the data entry when the context has one,
    reach the model word for word: both are pieces of the prompt. *)
Theorem prompt_contains_question_and_data
    (V : Type) (fmt : V -> string) (question_text : string)
    (context : option (gmap string V)) :
  contains question_text (_build_user_prompt fmt question_text context) = true
  /\ forall d, context ≫= (.!! "data") = Some d ->
               contains (fmt d) (_build_user_prompt fmt question_text context) = true.
Proof.
  split.
  - apply contains_spec. unfold _build_user_prompt.
    exists ("Solve the following quiz question:" +:+ nl +:+ nl).
    destruct context as [ctx|]; [destruct (Nat.eqb (size ctx) 0) |];
      [| destruct (ctx !! "data"), (ctx !! "instructions") |];
      eexists; rewrite !append_assoc; reflexivity.
  - intros d Hd. destruct context as [ctx|]; [| discriminate]. cbn in Hd.
    apply contains_spec. unfold _build_user_prompt.
    destruct (Nat.eqb_spec (size ctx) 0) as [Hz | Hnz].
    { apply map_size_empty_iff in Hz. subst ctx. now rewrite lookup_empty in Hd. }
    rewrite Hd.
    exists ("Solve the following quiz question:" +:+ nl +:+ nl +:+ question_text
            +:+ nl +:+ nl +:+ "Data:" +:+ nl).
    destruct (ctx !! "instructions"); eexists; rewrite !append_assoc; reflexivity.
Qed.

Lemma prompt_contains_question_and_data_witness :
  contains "10,20,12"
    (_build_user_prompt (fun s : string => s) "What is the total?"
       (Some {[ "data" := "10,20,12" ]})) = true.
Proof.
  apply (prompt_contains_question_and_data string (fun s => s) "What is the total?"
           (Some {[ "data" := "10,20,12" ]})).
  vm_compute. reflexivity.
Defined.

(* ===================================================================== *)
(** * The two coercions                                                   *)
(* ===================================================================== *)

Lemma space_not_digit (c : ascii) : is_space c = true -> is_digit c = false.
Proof.
  unfold is_space, is_digit, in_range. intros H.
  destruct (48 <=? code c)%N eqn:E1, (code c <=? 57)%N eqn:E2; try reflexivity.
  exfalso. apply N.leb_le in E1, E2.
  rewrite !orb_true_iff, !andb_true_iff, !N.leb_le in H. lia.
Qed.

(** A greedy run of characters that are not whitespace reads the same
    with the whitespace at the end of the text removed. *)
Lemma span_rstrip (p : ascii -> bool) (s : string) :
  (forall c, p c = true -> is_space c = false) ->
  span p (rstrip s) = ((span p s).1, rstrip (span p s).2).
Proof.
  intros Hp. induction s as [|c s IH]; [reflexivity |].
  cbn [span]. destruct (p c) eqn:Hc.
  - rewrite (rstrip_cons_kept _ _ (Hp _ Hc)). cbn [span]. rewrite Hc, IH.
    now destruct (span p s).
  - cbn [fst snd]. destruct (rstrip_cons c s) as [-> | ->]; [reflexivity |].
    cbn [span]. now rewrite Hc.
Qed.

Lemma eat_rstrip (ch : ascii) (s : string) :
  is_space ch = false ->
  eat ch (rstrip s) = ((eat ch s).1, rstrip (eat ch s).2).
Proof.
  intros Hch. destruct s as [|c s]; [reflexivity |].
  cbn [eat]. destruct (Ascii.eqb_spec ch c) as [<- | Hne].
  - rewrite (rstrip_cons_kept _ _ Hch). cbn [eat]. now rewrite Ascii.eqb_refl.
  - cbn [fst snd]. destruct (rstrip_cons c s) as [-> | ->]; [reflexivity |].
    cbn [eat]. apply Ascii.eqb_neq in Hne. now rewrite Hne.
Qed.

Lemma digit_not_space (c : ascii) : is_digit c = true -> is_space c = false.
Proof.
  intros H. destruct (is_space c) eqn:E; [| reflexivity].
  apply space_not_digit in E. congruence.
Qed.

Lemma match_number_rstrip (s : string) : match_number (rstrip s) = match_number s.
Proof.
  unfold match_number.
  rewrite (eat_rstrip "-" s eq_refl). destruct (eat "-" s) as [sign s1]. cbn [fst snd].
  rewrite (span_rstrip is_digit s1 digit_not_space).
  destruct (span is_digit s1) as [ds s2]. cbn [fst snd].
  destruct ds as [|d ds]; [reflexivity |].
  rewrite (eat_rstrip "." s2 eq_refl). destruct (eat "." s2) as [dot s3]. cbn [fst snd].
  rewrite (span_rstrip is_digit s3 digit_not_space).
  now destruct (span is_digit s3).
Qed.

Lemma findall_number_rstrip (s : string) (skip : nat) :
  findall_from match_number skip (rstrip s) = findall_from match_number skip s.
Proof.
  revert skip. induction s as [|c s IH]; intros skip; [reflexivity |].
  pose proof (match_number_rstrip (String c s)) as Hm.
  destruct (rstrip_cons c s) as [E | E]; rewrite E in *.
  - apply rstrip_cons_nil in E as [_ E]. cbn [findall_from].
    destruct skip as [|k].
    + cbn in Hm. rewrite <- Hm. rewrite <- IH, E. reflexivity.
    + rewrite <- IH, E. reflexivity.
  - cbn [findall_from]. destruct skip as [|k]; [| apply IH].
    rewrite Hm. destruct (match_number (String c s)); [f_equal |]; apply IH.
Qed.

Lemma findall_number_lstrip (s : string) :
  findall match_number (lstrip s) = findall match_number s.
Proof.
  unfold findall. induction s as [|c s IH]; [reflexivity |].
  cbn [lstrip]. destruct (is_space c) eqn:Hc; [| reflexivity].
  cbn [findall_from]. rewrite match_number_none; [exact IH | |].
  - cbn [head_is]. now apply space_not_digit.
  - intros r [= -> _]. discriminate.
Qed.

Lemma findall_number_strip (s : string) :
  findall match_number (strip s) = findall match_number s.
Proof.
  unfold strip, findall. rewrite findall_number_rstrip. apply findall_number_lstrip.
Qed.

(** X15. The client's own coercion, asked for a number, gives on every
    response what the solver's coercion gives: stripping the response
    first loses no number, and a response without one comes back
    stripped. *)
Theorem client_number_coercion_agrees
    (max_str_digits : N) (response question_text : string) :
  extract_answer_from_response max_str_digits response (Some "number")
  = _extract_answer max_str_digits response question_text.
Proof.
  unfold extract_answer_from_response, _extract_answer.
  rewrite bool_decide_eq_true_2 by reflexivity.
  rewrite findall_number_strip.
  rewrite (bool_decide_eq_false_2 (Some "number" = Some "boolean")) by discriminate.
  destruct (findall match_number response) as [|num l]; [reflexivity |].
  destruct (contains "." num); [reflexivity |].
  now destruct (py_int max_str_digits num).
Qed.

(* ===================================================================== *)
(** * Configuration and the synchronous endpoint                          *)
(* ===================================================================== *)

(** X16. A configuration is valid exactly when the API key, the secret
    and the email are all present and neither prompt is longer than 100
    characters; a message comes with the verdict exactly when it is
    invalid. An empty prompt is accepted. *)
Theorem validate_characterised (cfg : Config) :
  ((validate cfg).1 = true
   <-> OPENAI_API_KEY cfg <> "" /\ SECRET cfg <> "" /\ EMAIL cfg <> ""
       /\ (String.length (SYSTEM_PROMPT cfg) <= 100)%nat
       /\ (String.length (USER_PROMPT cfg) <= 100)%nat)
  /\ ((validate cfg).1 = false <-> (validate cfg).2 <> None).
Proof.
  unfold validate.
  destruct (OPENAI_API_KEY cfg) as [|k1 k] eqn:Hk; cbn [str_truthy negb fst snd].
  { split; split; try discriminate; try reflexivity. intros (H & _). congruence. }
  destruct (SECRET cfg) as [|s1 s] eqn:Hs; cbn [str_truthy negb fst snd].
  { split; split; try discriminate; try reflexivity. intros (_ & H & _). congruence. }
  destruct (EMAIL cfg) as [|e1 e] eqn:He; cbn [str_truthy negb fst snd].
  { split; split; try discriminate; try reflexivity. intros (_ & _ & H & _). congruence. }
  destruct (Nat.ltb_spec 100 (String.length (SYSTEM_PROMPT cfg))); cbn [fst snd].
  { split; split; try discriminate; try reflexivity. intros (_ & _ & _ & H' & _). lia. }
  destruct (Nat.ltb_spec 100 (String.length (USER_PROMPT cfg))); cbn [fst snd].
  { split; split; try discriminate; try reflexivity. intros (_ & _ & _ & _ & H'). lia. }
  split; split; try discriminate; try congruence; try reflexivity.
  intros _. repeat split; try discriminate; lia.
Qed.

Lemma validate_characterised_witness :
  (validate {| OPENAI_API_KEY := "sk-test"; SECRET := "s3cret";
               EMAIL := "me@example.com"; SYSTEM_PROMPT := ""; USER_PROMPT := "" |}).1
  = true.
Proof.
  apply (proj1 (validate_characterised _)). repeat split; cbn; try discriminate; lia.
Defined.

Section SyncEndpoint.

Context {W DF J : Type} {C : Collaborators W DF J}.

Lemma solve_quiz_success_iff (email secret : string) (fuel : nat) (initial_url : string)
    (w : W) (s : Summary) (w' : W) :
  solve_quiz email secret fuel initial_url w = Some (s, w') ->
  (success s = false <-> exists e w1, browser_start (clock_now w).2 = (Raise e, w1)).
Proof.
  unfold solve_quiz. destruct (clock_now w) as [t0 w0]. cbn [snd].
  destruct (browser_start w0) as [[[]|e] w1].
  - destruct (quiz_loop _ _ _ _ _ _ _) as [[rs w2]|]; [| discriminate].
    destruct (clock_now w2). intros [= <- <-]. cbn [success].
    split; [discriminate | intros (e & wx & H); discriminate].
  - intros [= <- <-]. cbn [success]. split; eauto.
Qed.

End SyncEndpoint.

(** X17. The synchronous endpoint refuses a request whose secret is not
    the configured one with a 403 before anything else happens: the
    world is untouched, whatever the email and the URL. With the right
    secret and an API key it reports what the session returned, and it
    says failed only when the browser could not start: a session that
    got past that is reported as completed, however its steps went. *)
Theorem sync_endpoint_replies
    (W DF J : Type) (C : Collaborators W DF J)
    (cfg : Config) (fuel : nat) (request : QuizRequest) (w : W) :
  (req_secret request <> SECRET cfg ->
   solve_quiz_sync cfg fuel request w = Some (HttpError 403 "Invalid secret", w))
  /\ (req_secret request = SECRET cfg -> OPENAI_API_KEY cfg <> "" ->
      forall reply w',
        solve_quiz_sync cfg fuel request w = Some (reply, w') ->
        exists response,
          reply = Replied response
          /\ solve_quiz (req_email request) (req_secret request) fuel (req_url request) w
             = Some (resp_details response, w')
          /\ resp_success response = success (resp_details response)
          /\ (resp_message response = "Quiz solving failed"
              <-> exists e w1, browser_start (clock_now w).2 = (Raise e, w1))
          /\ (resp_message response = "Quiz solving completed"
              \/ resp_message response = "Quiz solving failed")).
Proof.
  unfold solve_quiz_sync. split.
  - intros Hne. apply String.eqb_neq in Hne. now rewrite Hne.
  - intros Heq Hkey reply w'. apply String.eqb_eq in Heq. rewrite Heq. cbn [negb].
    destruct (OPENAI_API_KEY cfg) as [|k1 k]; [congruence |]. cbn [str_truthy negb].
    destruct (solve_quiz _ _ _ _ w) as [[s w1]|] eqn:Hq; [| discriminate].
    intros [= <- <-]. eexists. split; [reflexivity |]. cbn.
    split; [reflexivity |]. split; [reflexivity |].
    pose proof (solve_quiz_success_iff _ _ _ _ _ _ _ Hq) as Hiff.
    destruct (success s); split; try (now left); try (now right).
    + split; [discriminate |]. intros H. apply Hiff in H. discriminate.
    + split; [intros _; now apply Hiff | reflexivity].
Qed.

(** The first page cannot be loaded, and the endpoint says completed. *)
Lemma sync_endpoint_replies_witness :
  exists response w',
    @solve_quiz_sync _ _ _ offline_world
      {| OPENAI_API_KEY := "sk-test"; SECRET := "s3cret"; EMAIL := "me@example.com";
         SYSTEM_PROMPT := ""; USER_PROMPT := "" |}
      1 {| req_email := "me@example.com"; req_secret := "s3cret"; req_url := quiz1 |}
      (script [])
    = Some (Replied response, w')
    /\ resp_message response = "Quiz solving completed".
Proof.
  pose (cfg := {| OPENAI_API_KEY := "sk-test"; SECRET := "s3cret";
                  EMAIL := "me@example.com"; SYSTEM_PROMPT := ""; USER_PROMPT := "" |}).
  pose (request := {| req_email := "me@example.com"; req_secret := "s3cret";
                      req_url := quiz1 |}).
  pose (run := @solve_quiz_sync _ _ _ offline_world cfg 1 request (script [])).
  assert (H : run = Some ((default (HttpError 0 "", script []) run).1,
                          (default (HttpError 0 "", script []) run).2))
    by (vm_compute; reflexivity).
  destruct (proj2 (sync_endpoint_replies Script unit unit offline_world cfg 1 request
                     (script [])) eq_refl ltac:(discriminate) _ _ H)
    as (response & Hreply & _ & _ & Hfailed & Hmsg).
  exists response. eexists. split; [rewrite <- Hreply; exact H |].
  destruct Hmsg as [Hmsg | Hmsg]; [exact Hmsg |].
  apply Hfailed in Hmsg as (e & w1 & Hstart). vm_compute in Hstart. discriminate.
Defined.

(* ===================================================================== *)
(** * The browser                                                         *)
(* ===================================================================== *)

(** X18. With a page open, a load that times out does not fail: what
    [navigate] gives is what reading the page's content gives right
    after, with no pause in between. A load that raises anything else
    makes [navigate] raise that, with the browser left as the load left
    it. *)
Theorem navigate_on_failed_load
    (P : Type) (PW : Playwright P) (url : pyval) (timeout : Z)
    (b : BrowserManager) (p p1 : P) (e : pw_exn) :
  bm_page b = true ->
  pw_goto url timeout p = (PwRaise e, p1) ->
  match e with
  | PwTimeout _ =>
      bm_navigate url timeout (b, p) = ((pw_content p1).1, (b, (pw_content p1).2))
  | PwError msg =>
      bm_navigate url timeout (b, p) = (PwRaise (PwError msg), (b, p1))
  end.
Proof.
  intros Hpage Hgoto. unfold bm_navigate. cbn [fst]. rewrite Hpage.
  unfold bm_load. rewrite Hgoto. destruct e as [msg | msg]; [| reflexivity].
  now destruct (pw_content p1).
Qed.

Lemma navigate_on_failed_load_witness :
  @bm_navigate _ counting_browser (PStr quiz1) 30000
    ({| bm_playwright := true; bm_browser := true; bm_page := true |},
     {| loads := 0; slow := true |})
  = (PwOk "<html>partial</html>",
     ({| bm_playwright := true; bm_browser := true; bm_page := true |},
      {| loads := 1; slow := true |})).
Proof.
  apply (navigate_on_failed_load LoadCount counting_browser (PStr quiz1) 30000
           {| bm_playwright := true; bm_browser := true; bm_page := true |}
           {| loads := 0; slow := true |} {| loads := 1; slow := true |}
           (PwTimeout "Timeout 30000ms exceeded") eq_refl eq_refl).
Defined.

(** X19. Reading the text of a page loads the page again: in a browser
    that is already started and whose loads succeed, [navigate] followed
    by [extract_text] for the same URL asks for two page loads. *)
Theorem extract_text_loads_again
    (url : pyval) (b : BrowserManager) (n : nat) :
  bm_page b = true ->
  let s1 := (@bm_navigate _ counting_browser url 30000 (b, {| loads := n; slow := false |})).2 in
  let s2 := (@bm_extract_text _ counting_browser url s1).2 in
  loads s1.2 = S n /\ loads s2.2 = S (S n) /\ s2.1 = b.
Proof.
  intros Hpage. unfold bm_extract_text, bm_navigate, bm_load. cbn.
  repeat (rewrite Hpage; cbn). auto.
Qed.

Lemma extract_text_loads_again_witness :
  loads (@bm_extract_text _ counting_browser (PStr quiz1)
           (@bm_navigate _ counting_browser (PStr quiz1) 30000
              ({| bm_playwright := true; bm_browser := true; bm_page := true |},
               {| loads := 0; slow := false |})).2).2.2
  = 2%nat.
Proof.
  apply (extract_text_loads_again (PStr quiz1)
           {| bm_playwright := true; bm_browser := true; bm_page := true |} 0 eq_refl).
Defined.

(** X20. Closing the browser leaves the manager's fields as they were:
    the page stays set, so a [navigate] after [close] does not start a
    browser again but goes straight to loading on the page that was
    closed. *)
Theorem close_keeps_fields
    (P : Type) (PW : Playwright P) (url : pyval) (timeout : Z)
    (b : BrowserManager) (p : P) :
  (bm_close (b, p)).1 = b
  /\ (bm_page b = true ->
      bm_navigate url timeout (bm_close (b, p))
      = bm_load url timeout (b, (bm_close (b, p)).2)).
Proof.
  assert (H1 : bm_close (b, p) = (b, (bm_close (b, p)).2)) by reflexivity.
  split; [now rewrite H1 |]. intros Hpage. unfold bm_navigate.
  rewrite H1. cbn [fst snd]. now rewrite Hpage.
Qed.

Lemma close_keeps_fields_witness :
  @bm_navigate _ counting_browser (PStr quiz1) 30000
    (@bm_close _ counting_browser
       ({| bm_playwright := true; bm_browser := true; bm_page := true |},
        {| loads := 3; slow := false |}))
  = @bm_load _ counting_browser (PStr quiz1) 30000
      ({| bm_playwright := true; bm_browser := true; bm_page := true |},
       (@bm_close _ counting_browser
          ({| bm_playwright := true; bm_browser := true; bm_page := true |},
           {| loads := 3; slow := false |})).2).
Proof.
  apply (close_keeps_fields LoadCount counting_browser (PStr quiz1) 30000
           {| bm_playwright := true; bm_browser := true; bm_page := true |}
           {| loads := 3; slow := false |}).
  reflexivity.
Defined.

(* ===================================================================== *)
(** * Parsing a PDF                                                       *)
(* ===================================================================== *)

Lemma parse_pages_bounds {R : Type} (pages : list (option string * list (list R)))
    (page_num : Z) :
  (length (parse_pages page_num pages).1 <= length pages)%nat
  /\ Forall (fun entry => page_num <= entry.1 < page_num + Z.of_nat (length pages)
                          /\ entry.2 <> [])
            (parse_pages page_num pages).2.
Proof.
  revert page_num. induction pages as [|[text tables] rest IH]; intros page_num.
  - cbn. split; [lia | constructor].
  - cbn [parse_pages]. destruct (IH (page_num + 1)) as [Hlen Hall].
    destruct (parse_pages (page_num + 1) rest) as [tp tl]. cbn [fst snd] in *.
    split.
    + rewrite length_app. destruct (opt_truthy text); cbn; lia.
    + apply Forall_app. split.
      * apply Forall_forall. intros [n t] Hin. apply list_elem_of_In in Hin.
        apply in_map_iff in Hin as (t' & [= <- <-] & Hin).
        apply filter_In in Hin as [_ Hne]. cbn [fst snd length].
        split; [lia |]. intros ->. discriminate.
      * eapply Forall_impl; [exact Hall |]. intros [n t] [Hn Ht]. cbn [fst snd length] in *.
        split; [lia | exact Ht].
Qed.

Lemma parse_pages_count {R : Type} (pages : list (option string * list (list R)))
    (page_num : Z) :
  length (parse_pages page_num pages).1
  = length (List.filter (fun page => bool_decide (is_Some (opt_truthy page.1))) pages).
Proof.
  revert page_num. induction pages as [|[text tables] rest IH]; intros n; [reflexivity |].
  cbn [parse_pages List.filter fst]. specialize (IH (n + 1)).
  destruct (parse_pages (n + 1) rest) as [tp tl]. cbn [fst] in *.
  rewrite length_app, IH. destruct (opt_truthy text); reflexivity.
Qed.

(** X21. The page count that [parse_pdf] reports counts the pages that
    gave text, so it is at most the number of pages and less when a page
    is blank. Every table it lists has at least one row and carries the
    number, from 1, of a page of the document. *)
Theorem parse_pdf_counts {R : Type} (pages : list (option string * list (list R))) :
  let '(text, tables, num_pages) := parse_pdf_pages pages in
  0 <= num_pages <= Z.of_nat (length pages)
  /\ num_pages
     = Z.of_nat (length (List.filter (fun page => bool_decide (is_Some (opt_truthy page.1)))
                                     pages))
  /\ Forall (fun entry => 1 <= entry.1 <= Z.of_nat (length pages) /\ entry.2 <> []) tables.
Proof.
  unfold parse_pdf_pages. destruct (parse_pages_bounds pages 1) as [Hlen Hall].
  pose proof (parse_pages_count pages 1) as Hcount.
  destruct (parse_pages 1 pages) as [tp tl]. cbn [fst snd] in *.
  split; [lia |]. split; [now rewrite Hcount |].
  eapply Forall_impl; [exact Hall |]. intros [n t] [Hn Ht]. cbn [fst snd] in *.
  split; [lia | exact Ht].
Qed.

(* ===================================================================== *)
(** * A question about a CSV file                                         *)
(* ===================================================================== *)

Lemma data_url_nonempty (text u : string) :
  In u (findall match_url text) -> str_truthy u = true.
Proof.
  intros Hin. destruct (findall_from_in _ _ _ _ Hin) as (pre & s' & _ & Hm).
  destruct (match_url_spec _ _ Hm) as (scheme & run & post & _ & -> & [-> | ->] & _);
    reflexivity.
Qed.


